(** * Ookla tile pipeline: quadkey decoder, aggregation, baseline comparison

    A shallow embedding of [src/prepare_tableau.py] (class
    [TableauDataPreparer]) and of the one constant it reads from
    [src/config.py], with the properties of the specification proved or
    refuted against it.

    Conventions.
    - Python [int] is [Z].  numpy [int64] is [Z] with the wrap-around written
      out ([wrap64]).
    - Python [str] is [string] in the decoder [Quadkey], the aggregation
      and the comparison: a string whose characters are code points below
      256.  [Unicode] has the decoder on any sequence of code points; on the
      strings of [Quadkey] the two are the same function.
    - A raised exception is a value of [exception]; code that can raise
      returns a [result].
    - float64 appears in three forms, each fitted to what is proved there:
      the decoder is written once over an interface [PyFloat] of the float
      operations it calls and read twice, at the real numbers, where
      [np.exp], [np.arctan] and [np.pi] have their mathematical meaning and
      rounding is left out, and at IEEE binary64 ([Float64.Binary64]), where
      every operation rounds and [np.exp] and [np.arctan] are the functions
      of the C library; the aggregation is generic in the cell type and in
      pandas' reducers, with the reducers of exact arithmetic and those of
      binary64 as instances; the comparison uses IEEE binary64 itself
      ([PrimFloat]), so that NaN and the infinities are the real ones. *)

From Stdlib Require Import ZArith List String Ascii Bool Lia Permutation.
From Stdlib Require Import Sorted Reals Lra Floats DecimalString DecimalZ FinFun.
From Stdlib Require Import OrdersEx RelationClasses Morphisms.
Import ListNotations.

Set Implicit Arguments.
Local Open Scope Z_scope.

(** ** Exceptions and results *)

Inductive exception : Set :=
| ValueError         (* int() on a character that is no digit, .agg({}) *)
| ZeroDivisionError  (* int / int with a zero divisor *)
| IndexError.        (* .iloc[0] on an empty frame, s[i] out of range *)

Inductive result (A : Type) : Type :=
| Ok (a : A)
| Raise (e : exception).

Arguments Ok {A} a.
Arguments Raise {A} e.

Definition bind {A B} (r : result A) (k : A -> result B) : result B :=
  match r with
  | Ok a => k a
  | Raise e => Raise e
  end.

Notation "x <- r ;; k" := (bind r (fun x => k))
  (at level 61, r at next level, right associativity).
Notation "' p <- r ;; k" := (bind r (fun p => k))
  (at level 61, p pattern, r at next level, right associativity).

(** [for i in range(n): s = body(i, s)], started at index [i]. *)
Fixpoint for_range {S : Type} (n : nat) (i : Z)
    (body : Z -> S -> result S) (s : S) : result S :=
  match n with
  | O => Ok s
  | Datatypes.S n' => s' <- body i s ;; for_range n' (i + 1) body s'
  end.

(** [df[col].apply(f)] with a function that may raise: the first exception
    stops the traversal. *)
Fixpoint apply {A B} (f : A -> result B) (l : list A) : result (list B) :=
  match l with
  | [] => Ok []
  | a :: l' => b <- f a ;; bs <- apply f l' ;; Ok (b :: bs)
  end.

(** The float operations [_decode_quadkey_to_latlon] calls. *)
Class PyFloat (F : Type) : Type := {
  int_truediv : Z -> Z -> F;      (* a / b on two ints *)
  of_int : Z -> F;                (* the int operand of a mixed operation *)
  half : F;                       (* the literal 0.5 *)
  fsub : F -> F -> F;
  fmul : F -> F -> F;
  fdiv : F -> F -> F;
  fneg : F -> F;
  np_pi : F;
  np_exp : F -> F;
  np_arctan : F -> F
}.

(** The operations read at the real numbers. *)
#[export] Instance RealFloat : PyFloat R := {
  int_truediv a b := (IZR a / IZR b)%R;
  of_int := IZR;
  half := (5 / 10)%R;
  fsub := Rminus;
  fmul := Rmult;
  fdiv := Rdiv;
  fneg := Ropp;
  np_pi := PI;
  np_exp := exp;
  np_arctan := atan
}.

(** ** The quadkey decoder *)

Module Quadkey.

(** [int(c)] for a one-character string: the value of a decimal digit,
    [ValueError] for anything else.  The character is a code point below
    256, where the decimal digits are "0" to "9"; [Unicode.int] reads any
    character. *)
Definition int (c : ascii) : result Z :=
  let n := Z.of_N (N_of_ascii c) in
  if (48 <=? n) && (n <=? 57) then Ok (n - 48) else Raise ValueError.

(** [str(quadkey)[i]]. *)
Definition getitem (quadkey : string) (i : Z) : result ascii :=
  match String.get (Z.to_nat i) quadkey with
  | Some c => Ok c
  | None => Raise IndexError
  end.

(** The body of the decoding loop, on the pair [(tile_x, tile_y)]. *)
Definition decode_digit (quadkey : string) (level_of_detail : Z)
    (i : Z) (tile : Z * Z) : result (Z * Z) :=
  let '(tile_x, tile_y) := tile in
  let mask := Z.shiftl 1 (level_of_detail - 1 - i) in
  c <- getitem quadkey i ;;
  digit <- int c ;;
  if digit =? 1 then Ok (Z.lor tile_x mask, tile_y)
  else if digit =? 2 then Ok (tile_x, Z.lor tile_y mask)
  else if digit =? 3 then Ok (Z.lor tile_x mask, Z.lor tile_y mask)
  else Ok (tile_x, tile_y).

Section Decoder.
Context {F : Type} {ops : PyFloat F}.

Definition _decode_quadkey_to_latlon (quadkey : string) : result (F * F) :=
  let level_of_detail := Z.of_nat (String.length quadkey) in
  '(tile_x, tile_y) <-
     for_range (String.length quadkey) 0
       (decode_digit quadkey level_of_detail) (0, 0) ;;
  let map_size := Z.shiftl 256 level_of_detail in
  let pixel_x := tile_x * 256 + 128 in
  let pixel_y := tile_y * 256 + 128 in
  let x := fsub (int_truediv pixel_x map_size) half in
  let y := fsub half (int_truediv pixel_y map_size) in
  let longitude := fmul (of_int 360) x in
  let latitude :=
    fsub (of_int 90)
      (fdiv (fmul (of_int 360)
               (np_arctan (np_exp (fmul (fmul (fneg y) (of_int 2)) np_pi))))
            np_pi) in
  Ok (latitude, longitude).

End Decoder.

Section Centre.
Context {F : Type} {ops : PyFloat F}.

(** The lines of the decoder after the loop, as a function of the level and
    of the tile coordinates the loop ends with. *)
Definition tile_center (level_of_detail tile_x tile_y : Z) : F * F :=
  let map_size := Z.shiftl 256 level_of_detail in
  let pixel_x := tile_x * 256 + 128 in
  let pixel_y := tile_y * 256 + 128 in
  let x := fsub (int_truediv pixel_x map_size) half in
  let y := fsub half (int_truediv pixel_y map_size) in
  let longitude := fmul (of_int 360) x in
  let latitude :=
    fsub (of_int 90)
      (fdiv (fmul (of_int 360)
               (np_arctan (np_exp (fmul (fmul (fneg y) (of_int 2)) np_pi))))
            np_pi) in
  (latitude, longitude).

End Centre.

(** *** The reference algorithm, from the words of the specification *)

(** The digit at position [i], as a number, for a character of "0123". *)
Definition spec_digit (quadkey : string) (i : nat) : option Z :=
  match String.get i quadkey with
  | Some "0"%char => Some 0
  | Some "1"%char => Some 1
  | Some "2"%char => Some 2
  | Some "3"%char => Some 3
  | _ => None
  end.

(** "the bit mask [1 << (L - 1 - i)] is OR-ed into tile_x when the digit is
    1 or 3 and into tile_y when the digit is 2 or 3". *)
Definition spec_or_x (quadkey : string) (acc : Z) (i : nat) : Z :=
  match spec_digit quadkey i with
  | Some 1 | Some 3 =>
      Z.lor acc (Z.shiftl 1 (Z.of_nat (String.length quadkey) - 1 - Z.of_nat i))
  | _ => acc
  end.

Definition spec_or_y (quadkey : string) (acc : Z) (i : nat) : Z :=
  match spec_digit quadkey i with
  | Some 2 | Some 3 =>
      Z.lor acc (Z.shiftl 1 (Z.of_nat (String.length quadkey) - 1 - Z.of_nat i))
  | _ => acc
  end.

(** "for each digit position i", from the first digit on. *)
Definition spec_tile_x (quadkey : string) : Z :=
  fold_left (spec_or_x quadkey) (seq 0 (String.length quadkey)) 0.

Definition spec_tile_y (quadkey : string) : Z :=
  fold_left (spec_or_y quadkey) (seq 0 (String.length quadkey)) 0.

Definition spec_map_size (quadkey : string) : Z :=
  Z.shiftl 256 (Z.of_nat (String.length quadkey)).

Definition spec_x (quadkey : string) : R :=
  (IZR (spec_tile_x quadkey * 256 + 128) / IZR (spec_map_size quadkey) - 5 / 10)%R.

Definition spec_y (quadkey : string) : R :=
  (5 / 10 - IZR (spec_tile_y quadkey * 256 + 128) / IZR (spec_map_size quadkey))%R.

Definition spec_longitude (quadkey : string) : R :=
  (360 * spec_x quadkey)%R.

Definition spec_latitude (quadkey : string) : R :=
  (90 - (360 / PI) * atan (exp (- spec_y quadkey * (2 * PI))))%R.

(** Characters of a well-formed quadkey, and decimal digits. *)
Definition is_quad_digit (c : ascii) : bool :=
  match c with
  | "0"%char | "1"%char | "2"%char | "3"%char => true
  | _ => false
  end.

Definition is_decimal_digit (c : ascii) : bool :=
  let n := Z.of_N (N_of_ascii c) in (48 <=? n) && (n <=? 57).

Definition chars (s : string) : list ascii := list_ascii_of_string s.

(** The bits a character gives to tile_x and to tile_y in the loop: the
    branches [digit == 1], [digit == 2] and [digit == 3]. *)
Definition x_bit (c : ascii) : bool :=
  match int c with
  | Ok digit => (digit =? 1) || (digit =? 3)
  | Raise _ => false
  end.

Definition y_bit (c : ascii) : bool :=
  match int c with
  | Ok digit => (digit =? 2) || (digit =? 3)
  | Raise _ => false
  end.

(** A decimal digit with the digits 4 to 9 replaced by 0. *)
Definition zero_above_three (c : ascii) : ascii :=
  if is_quad_digit c then c else "0"%char.

(** The string with [f] applied to every character. *)
Fixpoint map_chars (f : ascii -> ascii) (s : string) : string :=
  match s with
  | EmptyString => EmptyString
  | String c s' => String (f c) (map_chars f s')
  end.

End Quadkey.

(** ** The quadkey decoder on any string *)

Module Unicode.

(** A Python [str]: its code points. *)
Definition str : Type := list N.

(** The [str] of a Rocq [string]. *)
Definition of_string (s : string) : str :=
  map N_of_ascii (list_ascii_of_string s).

Section Decoder.

(** The decimal digit value of a character in the Unicode database of the
    interpreter ([Py_UNICODE_TODECIMAL], [unicodedata.decimal]): [None] for
    a character that is no decimal digit. *)
Variable todecimal : N -> option Z.

(** [int(c)] for a one-character string: the value of a decimal digit of
    any script, [ValueError] for anything else (a letter, a space, a sign,
    an underscore, a digit that is not decimal such as a superscript). *)
Definition int (c : N) : result Z :=
  match todecimal c with
  | Some digit => Ok digit
  | None => Raise ValueError
  end.

(** [str(quadkey)[i]]. *)
Definition getitem (quadkey : str) (i : Z) : result N :=
  match nth_error quadkey (Z.to_nat i) with
  | Some c => Ok c
  | None => Raise IndexError
  end.

(** The body of the decoding loop, on the pair [(tile_x, tile_y)]. *)
Definition decode_digit (quadkey : str) (level_of_detail : Z)
    (i : Z) (tile : Z * Z) : result (Z * Z) :=
  let '(tile_x, tile_y) := tile in
  let mask := Z.shiftl 1 (level_of_detail - 1 - i) in
  c <- getitem quadkey i ;;
  digit <- int c ;;
  if digit =? 1 then Ok (Z.lor tile_x mask, tile_y)
  else if digit =? 2 then Ok (tile_x, Z.lor tile_y mask)
  else if digit =? 3 then Ok (Z.lor tile_x mask, Z.lor tile_y mask)
  else Ok (tile_x, tile_y).

Context {F : Type} {ops : PyFloat F}.

Definition _decode_quadkey_to_latlon (quadkey : str) : result (F * F) :=
  let level_of_detail := Z.of_nat (List.length quadkey) in
  '(tile_x, tile_y) <-
     for_range (List.length quadkey) 0
       (decode_digit quadkey level_of_detail) (0, 0) ;;
  let map_size := Z.shiftl 256 level_of_detail in
  let pixel_x := tile_x * 256 + 128 in
  let pixel_y := tile_y * 256 + 128 in
  let x := fsub (int_truediv pixel_x map_size) half in
  let y := fsub half (int_truediv pixel_y map_size) in
  let longitude := fmul (of_int 360) x in
  let latitude :=
    fsub (of_int 90)
      (fdiv (fmul (of_int 360)
               (np_arctan (np_exp (fmul (fmul (fneg y) (of_int 2)) np_pi))))
            np_pi) in
  Ok (latitude, longitude).

(** The characters [int] accepts. *)
Definition is_decimal (c : N) : bool :=
  match todecimal c with
  | Some _ => true
  | None => false
  end.

(** The character of "0123" a decimal digit is read as: the digits 1, 2
    and 3 have a branch in the loop, every other digit falls through like
    0. *)
Definition quad_digit (c : N) : ascii :=
  match todecimal c with
  | Some 1 => "1"%char
  | Some 2 => "2"%char
  | Some 3 => "3"%char
  | _ => "0"%char
  end.

Definition quad_string (quadkey : str) : string :=
  string_of_list_ascii (map quad_digit quadkey).

End Decoder.

(** What every version of the Unicode database says of the code points
    below 256: the decimal digits are "0" to "9". *)
Definition latin1_decimal (todecimal : N -> option Z) : Prop :=
  forall c : N, (c < 256)%N ->
    todecimal c
    = if ((48 <=? c) && (c <=? 57))%N then Some (Z.of_N c - 48) else None.

(** An excerpt of the database: the ASCII digits, the Arabic-Indic digits
    U+0660 to U+0669 and the fullwidth digits U+FF10 to U+FF19. *)
Definition excerpt_decimal (c : N) : option Z :=
  if ((48 <=? c) && (c <=? 57))%N then Some (Z.of_N c - 48)
  else if ((1632 <=? c) && (c <=? 1641))%N then Some (Z.of_N c - 1632)
  else if ((65296 <=? c) && (c <=? 65305))%N then Some (Z.of_N c - 65296)
  else None.

End Unicode.

(** ** Configuration ([src/config.py]) *)

Module Config.

(** [TABLEAU_CONFIG['excel_row_limit']]. *)
Definition excel_row_limit : Z := 900000.

(** An entry of [REGION_PRESETS]. *)
Record region : Type := {
  name : string;
  country : string;
  provinces : list string
}.

(** [REGION_PRESETS], in the order of its keys. *)
Definition REGION_PRESETS : list (string * region) :=
  [("indonesia_sumatra",
    {| name := "Sumatra Region"; country := "Indonesia";
       provinces := ["Aceh"; "Sumatera Utara"; "Sumatera Barat"; "Riau";
                     "Jambi"; "Sumatera Selatan"; "Bengkulu"; "Lampung";
                     "Bangka-Belitung"; "Kepulauan Riau"] |});
   ("indonesia_java",
    {| name := "Java Region"; country := "Indonesia";
       provinces := ["Banten"; "Jakarta Raya"; "Jawa Barat"; "Jawa Tengah";
                     "Yogyakarta"; "Jawa Timur"] |});
   ("indonesia_kalimantan",
    {| name := "Kalimantan Region"; country := "Indonesia";
       provinces := ["Kalimantan Barat"; "Kalimantan Tengah";
                     "Kalimantan Selatan"; "Kalimantan Timur";
                     "Kalimantan Utara"] |});
   ("indonesia_sulawesi",
    {| name := "Sulawesi Region"; country := "Indonesia";
       provinces := ["Sulawesi Utara"; "Gorontalo"; "Sulawesi Tengah";
                     "Sulawesi Selatan"; "Sulawesi Tenggara"; "Sulawesi Barat"] |});
   ("indonesia_bali_nusa_tenggara",
    {| name := "Bali and Nusa Tenggara Region"; country := "Indonesia";
       provinces := ["Bali"; "Nusa Tenggara Barat"; "Nusa Tenggara Timur"] |});
   ("indonesia_maluku",
    {| name := "Maluku Region"; country := "Indonesia";
       provinces := ["Maluku"; "Maluku Utara"] |});
   ("indonesia_papua",
    {| name := "Papua Region"; country := "Indonesia";
       provinces := ["Papua"; "Papua Barat"] |})]%string.

(** [list(range(start, stop))]. *)
Definition list_range (start stop : Z) : list Z :=
  map (fun i => start + Z.of_nat i) (seq 0 (Z.to_nat (stop - start))).

(** [OOKLA_CONFIG['data_types']], ['available_years'] and
    ['available_quarters']. *)
Definition data_types : list string := ["mobile"; "fixed"]%string.

Definition available_years : list Z := list_range 2019 2026.

Definition available_quarters : list Z := [1; 2; 3; 4].

(** [x in l] on a list of ints and on a list of strings. *)
Definition contains_int (x : Z) (l : list Z) : bool := existsb (Z.eqb x) l.

Definition contains_str (x : string) (l : list string) : bool :=
  existsb (String.eqb x) l.

(** [get_region_info]: the preset of the key, [ValueError] when
    [region_key not in REGION_PRESETS]. *)
Definition get_region_info (region_key : string) : result region :=
  match find (fun preset => String.eqb (fst preset) region_key) REGION_PRESETS with
  | Some preset => Ok (snd preset)
  | None => Raise ValueError
  end.

(** [validate_year_quarter], for an int year and an int quarter. *)
Definition validate_year_quarter (year quarter : Z) : result bool :=
  if negb (contains_int year available_years) then Raise ValueError
  else if negb (contains_int quarter available_quarters) then Raise ValueError
  else Ok true.

End Config.

(** ** Choosing a region and validating a download ([src/download_ookla.py]) *)

Module Download.

(** The truth value of an argument that is [None] or a string, and of one
    that is [None] or a list. *)
Definition truthy_str (s : option string) : bool :=
  match s with
  | Some s => negb (String.eqb s EmptyString)
  | None => false
  end.

Definition truthy_list {A : Type} (l : option (list A)) : bool :=
  match l with
  | Some (_ :: _) => true
  | _ => false
  end.

Definition value {A : Type} (default : A) (a : option A) : A :=
  match a with
  | Some a => a
  | None => default
  end.

(** [set_region] up to the assignment of [self.region_info]: the region
    assigned, or the exception raised before anything is loaded. *)
Definition set_region (region_key country : option string)
    (provinces : option (list string)) : result Config.region :=
  if truthy_str region_key then Config.get_region_info (value EmptyString region_key)
  else if truthy_str country && truthy_list provinces then
    Ok {| Config.name := (value EmptyString country ++ " Custom Region")%string;
          Config.country := value EmptyString country;
          Config.provinces := value [] provinces |}
  else Raise ValueError.

Section Downloader.

(** The frame of a download and the exceptions of the libraries. *)
Variables GeoDataFrame Exception : Type.

(** The body of the [try] statement of [download]: reading from S3,
    filtering to the region and writing the file.  It returns the frame,
    returns [None] when no tile is left, or raises. *)
Variable fetch :
  Config.region -> Z -> Z -> string -> Exception + option GeoDataFrame.

(** [download], on [self.region_info] and its arguments. *)
Definition download (region_info : option Config.region) (year quarter : Z)
    (data_type : string) : result (option GeoDataFrame) :=
  match region_info with
  | None => Raise ValueError
  | Some info =>
      _ <- Config.validate_year_quarter year quarter ;;
      if negb (Config.contains_str data_type Config.data_types)
      then Raise ValueError
      else
        match fetch info year quarter data_type with
        | inr gdf_result => Ok gdf_result
        | inl _ => Ok None
        end
  end.

End Downloader.

End Download.

(** ** Writing a frame to a workbook *)

Module Excel.

(** [str(n)] for an int, as an f-string formats it. *)
Definition str_int (n : Z) : string :=
  DecimalString.NilEmpty.string_of_int (Z.to_int n).

(** [range(n)]. *)
Definition range (n : Z) : list Z := map Z.of_nat (seq 0 (Z.to_nat n)).

Section Sheets.
Context {row : Type}.

(** [len(df)]. *)
Definition len (df : list row) : Z := Z.of_nat (List.length df).

(** [df.iloc[start_row:end_row]] for two indices that are not negative. *)
Definition iloc (df : list row) (start_row end_row : Z) : list row :=
  firstn (Z.to_nat end_row - Z.to_nat start_row) (skipn (Z.to_nat start_row) df).

(** The workbook [_create_excel_file] writes: the sheets in the order of
    the [to_excel] calls, each with its name and its rows.  Header formats,
    column widths and the frozen pane do not change the rows. *)
Definition _create_excel_file (df : list row) (sheet_name : string)
    : list (string * list row) :=
  let max_rows := Config.excel_row_limit in
  let num_chunks := (len df - 1) / max_rows + 1 in
  map (fun chunk_idx =>
         let start_row := chunk_idx * max_rows in
         let end_row := Z.min ((chunk_idx + 1) * max_rows) (len df) in
         let chunk_data := iloc df start_row end_row in
         let chunk_sheet_name :=
           if 1 <? num_chunks
           then (sheet_name ++ "_" ++ str_int (chunk_idx + 1))%string
           else sheet_name in
         (chunk_sheet_name, chunk_data))
      (range num_chunks).

End Sheets.

End Excel.

(** ** Frame operations shared by the aggregation and the comparison *)

(** A comparison function that is a total order whose [Eq] is equality. *)
Class CmpOrder {K : Type} (cmp : K -> K -> comparison) : Prop := {
  cmp_eq : forall a b, cmp a b = Eq <-> a = b;
  cmp_opp : forall a b, cmp b a = CompOpp (cmp a b);
  cmp_lt_trans : forall a b c, cmp a b = Lt -> cmp b c = Lt -> cmp a c = Lt
}.

(** Code-point order of Python strings. *)
Definition str_compare : string -> string -> comparison := String_as_OT.compare.

(** A cell of an integer column that may hold missing values (NaN in
    pandas, [None] here): an int64, or the float64 of an integer, which is
    exact below 2^53.  A sort puts the missing values last. *)
Definition cell_compare (a b : option Z) : comparison :=
  match a, b with
  | Some x, Some y => Z.compare x y
  | Some _, None => Lt
  | None, Some _ => Gt
  | None, None => Eq
  end.

(** [==] on cells: a missing value equals nothing, itself included. *)
Definition cell_eqb (a b : option Z) : bool :=
  match a, b with
  | Some x, Some y => x =? y
  | _, _ => false
  end.

(** Order on several sort columns. *)
Definition lex_compare {A B : Type} (cmpA : A -> A -> comparison)
    (cmpB : B -> B -> comparison) (x y : A * B) : comparison :=
  match cmpA (fst x) (fst y) with
  | Eq => cmpB (snd x) (snd y)
  | c => c
  end.

(** [a <= b] for a comparison function. *)
Definition cmp_le {K : Type} (cmp : K -> K -> comparison) (a b : K) : Prop :=
  cmp a b <> Gt.

Section SortValues.
Context {A K : Type} (cmp : K -> K -> comparison) (key : A -> K).

Definition key_le (a b : A) : Prop := cmp_le cmp (key a) (key b).

Definition key_leb (a b : A) : bool :=
  match cmp (key a) (key b) with Gt => false | _ => true end.

Fixpoint insert_sorted (a : A) (l : list A) : list A :=
  match l with
  | [] => [a]
  | b :: l' => if key_leb a b then a :: l else b :: insert_sorted a l'
  end.

(** [df.sort_values(by)]: ascending and stable, rows of equal key keep
    their order. *)
Fixpoint sort_values (df : list A) : list A :=
  match df with
  | [] => []
  | a :: df' => insert_sorted a (sort_values df')
  end.

End SortValues.

(** [df.groupby(by)[col].shift(1)]: for each row, in frame order, the row
    before it in its group, if there is one.  [seen] holds the rows already
    passed, the latest first. *)
Fixpoint groupby_shift {A : Type} (same : A -> A -> bool)
    (seen : list A) (df : list A) : list (option A) :=
  match df with
  | [] => []
  | r :: df' => find (same r) seen :: groupby_shift same (r :: seen) df'
  end.

(** [series.iloc[0]]. *)
Definition iloc0 {A : Type} (series : list A) : result A :=
  match series with
  | [] => Raise IndexError
  | a :: _ => Ok a
  end.

(** The distinct values of a column, each at its first place. *)
Fixpoint unique {A : Type} (eqb : A -> A -> bool) (l : list A) : list A :=
  match l with
  | [] => []
  | a :: l' => a :: filter (fun b => negb (eqb a b)) (unique eqb l')
  end.

(** ** The comparison against the baseline period *)

Module Comparison.

(** A row of the aggregated frame, with the columns the comparison reads
    and [data_type], which tells apart rows of one tile and period. *)
Record bin : Type := {
  quadkey : string;
  year : option Z;
  quarter : option Z;
  data_type : string;
  avg_d_kbps_mean : float;
  avg_u_kbps_mean : float
}.

(** The frame after the merge and the two percent changes. *)
Record merged : Type := {
  m_bin : bin;
  m_baseline_d_kbps : float;
  m_baseline_u_kbps : float;
  m_d_kbps_pct_change : float;
  m_u_kbps_pct_change : float
}.

(** A row of the comparison sheet. *)
Record comparison_row : Type := {
  base : bin;
  baseline_d_kbps : float;
  baseline_u_kbps : float;
  d_kbps_pct_change : float;
  u_kbps_pct_change : float;
  time_period : float;
  d_kbps_qoq_change : float;
  u_kbps_qoq_change : float;
  is_year_transition : bool;
  d_kbps_cumulative_change : float;
  u_kbps_cumulative_change : float
}.

(** The float64 nearest to an int. *)
Definition float_of_Z (z : Z) : float :=
  SF2Prim (binary_normalize prec emax z 0 false).

Definition float_of_cell (c : option Z) : float :=
  match c with
  | Some z => float_of_Z z
  | None => nan
  end.

(** [(value - reference) / reference * 100] on float64 columns. *)
Definition percent_change (value reference : float) : float :=
  ((value - reference) / reference * 100)%float.

Definition period_key (r : bin) : option Z * option Z := (year r, quarter r).

Definition period_compare := lex_compare cell_compare cell_compare.

Definition row_key (r : bin) : string * (option Z * option Z) :=
  (quadkey r, (year r, quarter r)).

Definition row_compare := lex_compare str_compare period_compare.

(** The mean of the values that are not NaN, NaN when there is none: the
    sum from the left over the count. *)
Definition mean_skipna (values : list float) : float :=
  let present := filter (fun v => negb (is_nan v)) values in
  match present with
  | [] => nan
  | _ => (fold_left PrimFloat.add present 0 / float_of_Z (Z.of_nat (List.length present)))%float
  end.

(** "Find earliest period as baseline": the year and the quarter of the
    first row of the frame sorted by year, then quarter. *)
Definition baseline_period (df : list bin) : result (option Z * option Z) :=
  let df_sorted := sort_values period_compare period_key df in
  baseline_year <- iloc0 (map year df_sorted) ;;
  baseline_quarter <- iloc0 (map quarter df_sorted) ;;
  Ok (baseline_year, baseline_quarter).

(** The rows of the baseline period. *)
Definition baseline_rows (df : list bin) (baseline_year baseline_quarter : option Z)
    : list bin :=
  filter (fun r => cell_eqb (year r) baseline_year
                   && cell_eqb (quarter r) baseline_quarter) df.

Section CreateComparisonFile.

(** The mean of a group as pandas computes it.  How pandas orders and
    compensates the sum is its own; [mean_skipna] is one such mean. *)
Variable mean : list float -> float.

(** [baseline.groupby('quadkey').agg({...: 'mean'})], renamed: one row for
    each quadkey of the baseline, in key order. *)
Definition baseline_metrics (baseline : list bin) : list (string * (float * float)) :=
  map (fun q =>
         let group := filter (fun r => String.eqb (quadkey r) q) baseline in
         (q, (mean (map avg_d_kbps_mean group), mean (map avg_u_kbps_mean group))))
      (sort_values str_compare (fun q => q) (unique String.eqb (map quadkey baseline))).

(** A row of [df.merge(baseline_metrics, on='quadkey', how='left')], with
    the two percent changes from the baseline: the metrics of its quadkey,
    NaN when the baseline has none. *)
Definition merge_row (metrics : list (string * (float * float))) (r : bin) : merged :=
  let '(baseline_d, baseline_u) :=
    match find (fun m => String.eqb (fst m) (quadkey r)) metrics with
    | Some m => snd m
    | None => (nan, nan)
    end in
  {| m_bin := r;
     m_baseline_d_kbps := baseline_d;
     m_baseline_u_kbps := baseline_u;
     m_d_kbps_pct_change := percent_change (avg_d_kbps_mean r) baseline_d;
     m_u_kbps_pct_change := percent_change (avg_u_kbps_mean r) baseline_u |}.

(** The left join keeps the rows of [df] and their order. *)
Definition merge_baseline (df : list bin)
    (metrics : list (string * (float * float))) : list merged :=
  map (merge_row metrics) df.

Definition same_quadkey (a b : merged) : bool :=
  String.eqb (quadkey (m_bin a)) (quadkey (m_bin b)).

(** A shifted column: the value in the previous row of the group, missing
    when there is none. *)
Definition shifted_float (col : bin -> float) (prev : option merged) : float :=
  match prev with
  | Some p => col (m_bin p)
  | None => nan
  end.

Definition shifted_cell (col : bin -> option Z) (prev : option merged) : option Z :=
  match prev with
  | Some p => col (m_bin p)
  | None => None
  end.

(** The columns computed after the sort, for one row and the row before it
    in its quadkey group; the four [prev_] columns are dropped again. *)
Definition add_changes (m : merged) (prev : option merged) : comparison_row :=
  let r := m_bin m in
  let prev_d_kbps := shifted_float avg_d_kbps_mean prev in
  let prev_u_kbps := shifted_float avg_u_kbps_mean prev in
  let prev_year := shifted_cell year prev in
  let prev_quarter := shifted_cell quarter prev in
  {| base := r;
     baseline_d_kbps := m_baseline_d_kbps m;
     baseline_u_kbps := m_baseline_u_kbps m;
     d_kbps_pct_change := m_d_kbps_pct_change m;
     u_kbps_pct_change := m_u_kbps_pct_change m;
     time_period :=
       (float_of_cell (year r)
        + float_of_cell (option_map (fun q => (q - 1)%Z) (quarter r)) * 0.25)%float;
     d_kbps_qoq_change := percent_change (avg_d_kbps_mean r) prev_d_kbps;
     u_kbps_qoq_change := percent_change (avg_u_kbps_mean r) prev_u_kbps;
     is_year_transition :=
       cell_eqb (quarter r) (Some 1)
       && cell_eqb prev_quarter (Some 4)
       && negb (cell_eqb (year r) prev_year);
     d_kbps_cumulative_change := m_d_kbps_pct_change m;
     u_kbps_cumulative_change := m_u_kbps_pct_change m |}.

(** The merged frame, sorted by quadkey, year and quarter. *)
Definition sorted_comparison (df baseline : list bin) : list merged :=
  let comparison := merge_baseline df (baseline_metrics baseline) in
  sort_values row_compare (fun m => row_key (m_bin m)) comparison.

(** The comparison frame, from the merge to the cumulative columns. *)
Definition comparison_frame (df baseline : list bin) : list comparison_row :=
  let comparison := sorted_comparison df baseline in
  map (fun '(m, prev) => add_changes m prev)
      (combine comparison (groupby_shift same_quadkey [] comparison)).

(** [_create_comparison_file]: [Ok (Some workbook)] when the sheets were
    written and the path returned, [Ok None] for the [return None] after the
    warning "No baseline period found", where nothing is written. *)
Definition _create_comparison_file (df : list bin)
    : result (option (list (string * list comparison_row))) :=
  '(baseline_year, baseline_quarter) <- baseline_period df ;;
  let baseline := baseline_rows df baseline_year baseline_quarter in
  if Excel.len baseline =? 0 then Ok None
  else
    let comparison := comparison_frame df baseline in
    Ok (Some (Excel._create_excel_file comparison "Comparison")).

End CreateComparisonFile.

(** *** The previous period, from the words of the specification *)

(** "the immediately preceding row with the same quadkey" in the sorted
    frame: the row just above, when it has the quadkey of row [i]. *)
Definition spec_previous (rows : list comparison_row) (i : nat)
    : option comparison_row :=
  match i with
  | O => None
  | Datatypes.S j =>
      match nth_error rows j, nth_error rows i with
      | Some p, Some r =>
          if String.eqb (quadkey (base p)) (quadkey (base r)) then Some p else None
      | _, _ => None
      end
  end.




(** pandas' null test on a float cell. *)
Definition isna (x : float) : bool := is_nan x.

(** *** Fixtures *)

Definition row7 (y q : Z) (d u : float) : bin :=
  {| quadkey := "7"; year := Some y; quarter := Some q; data_type := "mobile";
     avg_d_kbps_mean := d; avg_u_kbps_mean := u |}.

Definition gap_fixture : list bin :=
  [row7 2024 1 100 100; row7 2024 3 80 80].


Definition year_transition_fixture : list bin :=
  [row7 2024 4 100 100; row7 2025 1 120 120].

Definition zero_baseline_fixture : list bin :=
  [row7 2024 1 0 0; row7 2024 2 100 50].

Definition missing_quarter_fixture : list bin :=
  [{| quadkey := "7"; year := Some 2024; quarter := None; data_type := "mobile";
      avg_d_kbps_mean := 100; avg_u_kbps_mean := 100 |}].

End Comparison.

(** ** The float operations at IEEE binary64 *)

Module Float64.

(** An int as an operand of the division, not yet rounded. *)
Definition Z2SF (z : Z) : spec_float :=
  match z with
  | Z0 => S754_zero false
  | Zpos p => S754_finite false p 0
  | Zneg p => S754_finite true p 0
  end.

(** [a / b] on two ints: the quotient of the integers, rounded once.  The
    divisor of the decoder, [256 << L], is positive. *)
Definition truediv (a b : Z) : float :=
  SF2Prim (SFdiv prec emax (Z2SF a) (Z2SF b)).

(** [np.pi], the float64 nearest to pi. *)
Definition pi : float := 0x1.921fb54442d18p+1%float.

Section Libm.

(** [np.exp] and [np.arctan] on a float64: functions of the C library,
    whose last bit IEEE 754 does not fix. *)
Variables exp arctan : float -> float.

Definition Binary64 : PyFloat float := {|
  int_truediv := truediv;
  of_int := Comparison.float_of_Z;
  half := 0.5%float;
  fsub := PrimFloat.sub;
  fmul := PrimFloat.mul;
  fdiv := PrimFloat.div;
  fneg := PrimFloat.opp;
  np_pi := pi;
  np_exp := exp;
  np_arctan := arctan
|}.

End Libm.

(** The argument of [np.exp] in the decoder, [-y * 2 * np.pi], for a tile
    row of a level. *)
Definition exponent (level_of_detail tile_y : Z) : float :=
  let map_size := Z.shiftl 256 level_of_detail in
  let pixel_y := tile_y * 256 + 128 in
  let y := (0.5 - truediv pixel_y map_size)%float in
  (- y * 2 * pi)%float.

(** The longitude of the decoder for a tile column of a level. *)
Definition longitude (level_of_detail tile_x : Z) : float :=
  let map_size := Z.shiftl 256 level_of_detail in
  let pixel_x := tile_x * 256 + 128 in
  (360 * (truediv pixel_x map_size - 0.5))%float.

(** The latitude of the decoder, [90 - 360 * a / np.pi], on the value [a]
    of [np.arctan]. *)
Definition latitude (a : float) : float := (90 - 360 * a / pi)%float.

(** The latitude in the words of the specification,
    [90 - (360 / pi) * a]. *)
Definition spec_latitude (a : float) : float := (90 - (360 / pi) * a)%float.

(** The reference algorithm in the words of the specification, each
    operation at float64: "x = pixel_x/map_size - 0.5, y = 0.5 -
    pixel_y/map_size, longitude = 360*x, and latitude = 90 -
    (360/pi)*atan(exp(-y*2*pi))". *)
Definition spec_latlon (exp arctan : float -> float) (quadkey : string)
    : float * float :=
  let map_size := Quadkey.spec_map_size quadkey in
  let pixel_x := Quadkey.spec_tile_x quadkey * 256 + 128 in
  let pixel_y := Quadkey.spec_tile_y quadkey * 256 + 128 in
  let x := (truediv pixel_x map_size - 0.5)%float in
  let y := (0.5 - truediv pixel_y map_size)%float in
  ((90 - (360 / pi) * arctan (exp (- y * 2 * pi)))%float, (360 * x)%float).

(** A function of the C library at the points of a table. *)
Definition tabulated (points : list (float * float)) (x : float) : float :=
  match find (fun point => (fst point =? x)%float) points with
  | Some point => snd point
  | None => nan
  end.

(** [np.exp] and [np.arctan], correctly rounded, at the arguments the
    decoder reaches for the quadkeys "0" and "22202". *)
Definition exp_points : list (float * float) :=
  [((-0x1.921fb54442d18p+0)%float, 0x1.a9bcc46f767e0p-3%float);
   (0x1.534ac0f19860cp+1%float, 0x1.c541426e073abp+3%float)].

Definition arctan_points : list (float * float) :=
  [(0x1.a9bcc46f767e0p-3%float, 0x1.a3c25055466e7p-3%float);
   (0x1.c541426e073abp+3%float, 0x1.8014806eb7e0ep+0%float)].

Definition numpy_exp : float -> float := tabulated exp_points.

Definition numpy_arctan : float -> float := tabulated arctan_points.

(** The float operations with the C library at these points. *)
Definition numpy : PyFloat float := Binary64 numpy_exp numpy_arctan.

(** The float64 values next to the arc tangent of the quadkey "22202",
    below and above. *)
Definition arctan_22202_neighbours : list float :=
  [0x1.8014806eb7e0dp+0%float; 0x1.8014806eb7e0ep+0%float;
   0x1.8014806eb7e0fp+0%float].

End Float64.

(** ** The aggregation to bins *)

Module Aggregate.

(** numpy int64: the representative of an integer in [-2^63, 2^63). *)
Definition wrap64 (z : Z) : Z := (z + 2 ^ 63) mod 2 ^ 64 - 2 ^ 63.

Definition list_sum (l : list Z) : Z := fold_right Z.add 0 l.

(** ['sum'] on an int64 column. *)
Definition sum64 (l : list Z) : Z := wrap64 (list_sum l).

(** Which of the optional columns the frame has ([col in df.columns]).  The
    columns [quadkey], [year], [quarter] and [data_type] are always there. *)
Record columns : Type := {
  has_latitude : bool;
  has_longitude : bool;
  has_name : bool;
  has_region : bool;
  has_country : bool;
  has_avg_d_kbps : bool;
  has_avg_u_kbps : bool;
  has_avg_lat_ms : bool;
  has_tests : bool;
  has_devices : bool;
  has_avg_d_mbps : bool;
  has_avg_u_mbps : bool
}.

Section Frame.

(** The float64 cells.  [F_eqb] is the equality of group keys and
    [F_compare] their sort order. *)
Context {F : Type} {ops : PyFloat F}.
Variable F_eqb : F -> F -> bool.
Variable F_compare : F -> F -> comparison.

(** pandas' reducers on the float64 cells of a group. *)
Variables agg_mean agg_min agg_max agg_std : list F -> F.

(** A row of the input frame.  The cell of a column the frame does not have
    is never read.  A missing year, quarter, name, region or country is
    [None]. *)
Record record : Type := {
  quadkey : string;
  year : option Z;
  quarter : option Z;
  data_type : string;
  name : option string;
  region : option string;
  country : option string;
  latitude : F;
  longitude : F;
  avg_d_kbps : F;
  avg_u_kbps : F;
  avg_lat_ms : F;
  tests : Z;
  devices : Z;
  avg_d_mbps : F;
  avg_u_mbps : F
}.

Record DataFrame : Type := {
  df_columns : columns;
  df_rows : list record
}.

(** The values of [group_cols] in a row; an optional grouping column the
    frame does not have is [None]. *)
Record group_key : Type := {
  k_quadkey : string;
  k_year : option Z;
  k_quarter : option Z;
  k_data_type : string;
  k_name : option (option string);
  k_region : option (option string);
  k_country : option (option string);
  k_latitude : F;
  k_longitude : F
}.

(** A row of the aggregated frame, after the column names are flattened and
    the index is reset: the group columns, then for each measurement column
    the frame has its statistics in the order of [agg_dict]. *)
Record aggregated_row : Type := {
  group : group_key;
  avg_d_kbps_stats : option (F * F * F * F);   (* _mean, _min, _max, _std *)
  avg_u_kbps_stats : option (F * F * F * F);   (* _mean, _min, _max, _std *)
  avg_lat_ms_stats : option (F * F * F);       (* _mean, _min, _max *)
  tests_sum : option Z;
  devices_sum : option Z;
  avg_d_mbps_stats : option (F * F * F);       (* _mean, _min, _max *)
  avg_u_mbps_stats : option (F * F * F)        (* _mean, _min, _max *)
}.

Definition with_latlon (r : record) (latlon : F * F) : record :=
  {| quadkey := quadkey r; year := year r; quarter := quarter r;
     data_type := data_type r; name := name r; region := region r;
     country := country r;
     latitude := fst latlon; longitude := snd latlon;
     avg_d_kbps := avg_d_kbps r; avg_u_kbps := avg_u_kbps r;
     avg_lat_ms := avg_lat_ms r; tests := tests r; devices := devices r;
     avg_d_mbps := avg_d_mbps r; avg_u_mbps := avg_u_mbps r |}.

(** A row and the same row with other coordinates. *)
Definition decoded (r r' : record) : Prop :=
  r' = r \/ exists latlon, r' = with_latlon r latlon.

(** "Decode quadkeys to lat/lon if not already present". *)
Definition decode_latlon (r : record) : result record :=
  latlon <- Quadkey._decode_quadkey_to_latlon (quadkey r) ;;
  Ok (with_latlon r latlon).

Definition optional {A : Type} (present : bool) (a : A) : option A :=
  if present then Some a else None.

Definition key_of (cols : columns) (r : record) : group_key :=
  {| k_quadkey := quadkey r;
     k_year := year r;
     k_quarter := quarter r;
     k_data_type := data_type r;
     k_name := optional (has_name cols) (name r);
     k_region := optional (has_region cols) (region r);
     k_country := optional (has_country cols) (country r);
     k_latitude := latitude r;
     k_longitude := longitude r |}.

Definition option_eqb {A : Type} (eqb : A -> A -> bool) (a b : option A) : bool :=
  match a, b with
  | Some x, Some y => eqb x y
  | None, None => true
  | _, _ => false
  end.

(** Equality of group keys; with [dropna=False] a missing value is a key
    like any other. *)
Definition key_eqb (a b : group_key) : bool :=
  String.eqb (k_quadkey a) (k_quadkey b)
  && option_eqb Z.eqb (k_year a) (k_year b)
  && option_eqb Z.eqb (k_quarter a) (k_quarter b)
  && String.eqb (k_data_type a) (k_data_type b)
  && option_eqb (option_eqb String.eqb) (k_name a) (k_name b)
  && option_eqb (option_eqb String.eqb) (k_region a) (k_region b)
  && option_eqb (option_eqb String.eqb) (k_country a) (k_country b)
  && F_eqb (k_latitude a) (k_latitude b)
  && F_eqb (k_longitude a) (k_longitude b).

(** A missing value sorts last. *)
Definition option_compare {A : Type} (cmp : A -> A -> comparison)
    (a b : option A) : comparison :=
  match a, b with
  | Some x, Some y => cmp x y
  | Some _, None => Lt
  | None, Some _ => Gt
  | None, None => Eq
  end.

Definition then_compare (c1 c2 : comparison) : comparison :=
  match c1 with
  | Eq => c2
  | _ => c1
  end.

(** The order of the groups in the result ([sort=True]). *)
Definition key_compare (a b : group_key) : comparison :=
  then_compare (str_compare (k_quadkey a) (k_quadkey b))
 (then_compare (cell_compare (k_year a) (k_year b))
 (then_compare (cell_compare (k_quarter a) (k_quarter b))
 (then_compare (str_compare (k_data_type a) (k_data_type b))
 (then_compare (option_compare (option_compare str_compare) (k_name a) (k_name b))
 (then_compare (option_compare (option_compare str_compare) (k_region a) (k_region b))
 (then_compare (option_compare (option_compare str_compare) (k_country a) (k_country b))
 (then_compare (F_compare (k_latitude a) (k_latitude b))
               (F_compare (k_longitude a) (k_longitude b))))))))).


(** The rows of one group. *)
Definition members (cols : columns) (k : group_key) (rows : list record)
    : list record :=
  filter (fun r => key_eqb (key_of cols r) k) rows.

Definition stats4 (col : record -> F) (g : list record) : F * F * F * F :=
  let values := map col g in
  (agg_mean values, agg_min values, agg_max values, agg_std values).

Definition stats3 (col : record -> F) (g : list record) : F * F * F :=
  let values := map col g in
  (agg_mean values, agg_min values, agg_max values).

(** [agg_dict], filtered to the columns of the frame, on one group. *)
Definition agg (cols : columns) (k : group_key) (g : list record)
    : aggregated_row :=
  {| group := k;
     avg_d_kbps_stats := optional (has_avg_d_kbps cols) (stats4 avg_d_kbps g);
     avg_u_kbps_stats := optional (has_avg_u_kbps cols) (stats4 avg_u_kbps g);
     avg_lat_ms_stats := optional (has_avg_lat_ms cols) (stats3 avg_lat_ms g);
     tests_sum := optional (has_tests cols) (sum64 (map tests g));
     devices_sum := optional (has_devices cols) (sum64 (map devices g));
     avg_d_mbps_stats := optional (has_avg_d_mbps cols) (stats3 avg_d_mbps g);
     avg_u_mbps_stats := optional (has_avg_u_mbps cols) (stats3 avg_u_mbps g) |}.

(** [df.groupby(group_cols, dropna=False).agg(agg_dict)]: one row for each
    distinct key, in key order. *)
Definition groupby_agg (cols : columns) (rows : list record)
    : list aggregated_row :=
  map (fun k => agg cols k (members cols k rows))
      (sort_values key_compare (fun k => k)
         (unique key_eqb (map (key_of cols) rows))).

(** [a / b] on two ints raises for a zero divisor; the quotient here only
    goes to the log. *)
Definition log_ratio (a b : Z) : result unit :=
  if b =? 0 then Raise ZeroDivisionError else Ok tt.

(** Whether [agg_dict], filtered to the columns of the frame, has an entry:
    the frame has one of the measurement columns. *)
Definition has_measurement (cols : columns) : bool :=
  has_avg_d_kbps cols || has_avg_u_kbps cols || has_avg_lat_ms cols
  || has_tests cols || has_devices cols
  || has_avg_d_mbps cols || has_avg_u_mbps cols.

(** [.agg(agg_dict)]: with an empty dict pandas has no result to put
    together and raises [ValueError] ("No objects to concatenate"). *)
Definition agg_checked (cols : columns) (rows : list record)
    : result (list aggregated_row) :=
  if has_measurement cols then Ok (groupby_agg cols rows) else Raise ValueError.

Definition _aggregate_data (df : DataFrame) : result (list aggregated_row) :=
  let cols := df_columns df in
  rows <-
    (if negb (has_latitude cols) || negb (has_longitude cols)
     then apply decode_latlon (df_rows df)
     else Ok (df_rows df)) ;;
  aggregated <- agg_checked cols rows ;;
  _ <- log_ratio (100 * Excel.len aggregated) (Excel.len rows) ;;
  Ok aggregated.

End Frame.

(** *** Reducers and cells at the real numbers *)

Definition R_eqb (a b : R) : bool := if Req_dec_T a b then true else false.

Definition R_compare (a b : R) : comparison :=
  if Rlt_dec a b then Lt else if Req_dec_T a b then Eq else Gt.

Definition R_sum (l : list R) : R := fold_right Rplus 0%R l.

Definition R_mean (l : list R) : R := (R_sum l / INR (List.length l))%R.

Definition R_min (l : list R) : R :=
  match l with
  | [] => 0%R
  | a :: l' => fold_right Rmin a l'
  end.

Definition R_max (l : list R) : R :=
  match l with
  | [] => 0%R
  | a :: l' => fold_right Rmax a l'
  end.

(** The sample standard deviation ([ddof=1]). *)
Definition R_std (l : list R) : R :=
  R_sqrt.sqrt (R_sum (map (fun x => (x - R_mean l) * (x - R_mean l))%R l)
        / (INR (List.length l) - 1))%R.

(** *** Reducers and cells at float64 *)

(** Two cells are one key when they are the same float64. *)
Definition float_eqb : float -> float -> bool := PrimFloat.Leibniz.eqb.

(** The order of float64 keys; NaN sorts last. *)
Definition float_compare (a b : float) : comparison :=
  match (a ?= b)%float with
  | FEq => Eq
  | FLt => Lt
  | FGt => Gt
  | FNotComparable => if is_nan a then (if is_nan b then Eq else Gt) else Lt
  end.

Definition present (values : list float) : list float :=
  filter (fun val => negb (is_nan val)) values.

Definition float_count (values : list float) : float :=
  Comparison.float_of_Z (Z.of_nat (List.length values)).

(** A step of the compensated sum of ['mean'] (pandas' [group_mean]): the
    sum and the compensation, in row order. *)
Definition kahan_step (acc : float * float) (val : float) : float * float :=
  let '(sumx, compensation) := acc in
  let y := (val - compensation)%float in
  let t := (sumx + y)%float in
  let c := (t - sumx - y)%float in
  (t, if is_nan c then 0%float else c).

(** ['mean']: the compensated sum of the values that are not NaN, in row
    order, over their count. *)
Definition float_mean (values : list float) : float :=
  match present values with
  | [] => nan
  | vals => (fst (fold_left kahan_step vals (0, 0)) / float_count vals)%float
  end.

(** ['min'] and ['max'] (pandas' [group_min] and [group_max]). *)
Definition float_min (values : list float) : float :=
  match present values with
  | [] => nan
  | vals => fold_left (fun m val => if (val <? m)%float then val else m) vals infinity
  end.

Definition float_max (values : list float) : float :=
  match present values with
  | [] => nan
  | vals => fold_left (fun m val => if (m <? val)%float then val else m) vals neg_infinity
  end.

(** A step of ['std'] (pandas' [group_var]): the count, the running mean
    and the sum of squared differences, in row order. *)
Definition welford_step (acc : float * float * float) (val : float)
    : float * float * float :=
  let '(nobs, oldmean, m2) := acc in
  let nobs' := (nobs + 1)%float in
  let mean := (oldmean + (val - oldmean) / nobs')%float in
  (nobs', mean, (m2 + (val - mean) * (val - oldmean))%float).

(** ['std'] with [ddof=1]. *)
Definition float_std (values : list float) : float :=
  let '(ct, _, m2) := fold_left welford_step (present values) (0, 0, 0)%float in
  if (ct <=? 1)%float then nan else PrimFloat.sqrt (m2 / (ct - 1))%float.

(** *** Fixtures *)

Definition all_columns : columns :=
  {| has_latitude := true; has_longitude := true; has_name := true;
     has_region := true; has_country := true; has_avg_d_kbps := true;
     has_avg_u_kbps := true; has_avg_lat_ms := true; has_tests := true;
     has_devices := true; has_avg_d_mbps := true; has_avg_u_mbps := true |}.

(** The columns of a file [download_ookla.py] writes: no coordinates. *)
Definition downloaded_columns : columns :=
  {| has_latitude := false; has_longitude := false; has_name := true;
     has_region := true; has_country := true; has_avg_d_kbps := true;
     has_avg_u_kbps := true; has_avg_lat_ms := true; has_tests := true;
     has_devices := true; has_avg_d_mbps := true; has_avg_u_mbps := true |}.

(** A frame with the grouping columns only: none of the measurement
    columns of [agg_dict]. *)
Definition coordinates_only : columns :=
  {| has_latitude := true; has_longitude := true; has_name := true;
     has_region := true; has_country := true; has_avg_d_kbps := false;
     has_avg_u_kbps := false; has_avg_lat_ms := false; has_tests := false;
     has_devices := false; has_avg_d_mbps := false; has_avg_u_mbps := false |}.

Definition tile (q : string) (d : R) (t : Z) : record (F := R) :=
  {| quadkey := q; year := Some 2024; quarter := Some 3; data_type := "mobile";
     name := Some "Aceh"%string; region := Some "Sumatra Region"%string;
     country := Some "Indonesia"%string;
     latitude := 0%R; longitude := 0%R;
     avg_d_kbps := d; avg_u_kbps := d; avg_lat_ms := 30%R;
     tests := t; devices := t; avg_d_mbps := 0%R; avg_u_mbps := 0%R |}.

Definition two_tiles : list (record (F := R)) :=
  [tile "3101" 1000 5; tile "3102" 2000 7; tile "3101" 3000 11].

(** A row of float64 cells as [download_ookla.py] makes it: the speeds in
    kbps are integers and [avg_d_mbps] is [avg_d_kbps / 1000]. *)
Definition test64 (q : string) (d_kbps u_kbps : Z) (t : Z) : record (F := float) :=
  {| quadkey := q; year := Some 2024; quarter := Some 3; data_type := "mobile";
     name := Some "Aceh"%string; region := Some "Sumatra Region"%string;
     country := Some "Indonesia"%string;
     latitude := 5.5%float; longitude := 95.25%float;
     avg_d_kbps := Comparison.float_of_Z d_kbps;
     avg_u_kbps := Comparison.float_of_Z u_kbps;
     avg_lat_ms := 30%float; tests := t; devices := t;
     avg_d_mbps := (Comparison.float_of_Z d_kbps / 1000)%float;
     avg_u_mbps := (Comparison.float_of_Z u_kbps / 1000)%float |}.

(** Three rows of one tile and period, with download speeds of 41.295,
    54.146 and 4.508 Mbps. *)
Definition three_tests : list (record (F := float)) :=
  [test64 "3101" 41295 9000 5; test64 "3101" 54146 9000 7;
   test64 "3101" 4508 9000 11].

End Aggregate.

(** ** Preparing one file, and exporting the combined frame *)

Module Prepare.

Section SingleFile.
Context {F : Type} {ops : PyFloat F}.
Variable F_eqb : F -> F -> bool.
Variable F_compare : F -> F -> comparison.
Variables agg_mean agg_min agg_max agg_std : list F -> F.

(** [_prepare_single_file], from the frame [pd.read_parquet] gave: the
    workbook written to [<stem>.xlsx]. *)
Definition _prepare_single_file (df : Aggregate.DataFrame)
    : result (list (string * list (@Aggregate.aggregated_row F))) :=
  aggregated <-
    Aggregate._aggregate_data F_eqb F_compare agg_mean agg_min agg_max agg_std df ;;
  Ok (Excel._create_excel_file aggregated "Data").

End SingleFile.

(** What [_export_to_excel] can raise: an exception of
    [_create_comparison_file], or the [AttributeError] of [stat] on
    [None]. *)
Inductive export_exception : Set :=
| Propagated (e : exception)
| AttributeError.

Inductive export_result (A : Type) : Type :=
| Returned (a : A)
| Raised (e : export_exception).

Arguments Returned {A} a.
Arguments Raised {A} e.

(** The dict [output_files], by the workbook behind each path.  A key that
    is not set is [None]; the value of ['comparison'] is what
    [_create_comparison_file] returned, a path or [None]. *)
Record output_files : Type := {
  combined : list (string * list Comparison.bin);
  mobile : option (list (string * list Comparison.bin));
  fixed : option (list (string * list Comparison.bin));
  comparison : option (option (list (string * list Comparison.comparison_row)))
}.

(** [df[df['data_type'] == data_type]]. *)
Definition rows_of_type (data_type : string) (df : list Comparison.bin)
    : list Comparison.bin :=
  filter (fun r => String.eqb (Comparison.data_type r) data_type) df.

Definition period_eqb (a b : Z * Z) : bool :=
  (fst a =? fst b) && (snd a =? snd b).

(** The periods of the rows that have a year and a quarter. *)
Definition complete_periods (df : list Comparison.bin) : list (Z * Z) :=
  flat_map (fun r => match Comparison.year r, Comparison.quarter r with
                     | Some y, Some q => [(y, q)]
                     | _, _ => []
                     end) df.

(** [df.groupby(['year', 'quarter']).size()]: an entry for each period;
    [groupby] leaves out the rows with a missing key. *)
Definition time_periods (df : list Comparison.bin) : list (Z * Z) :=
  unique period_eqb (complete_periods df).

Section ExportToExcel.
Variable mean : list float -> float.

(** [_export_to_excel] on an aggregated frame that has the columns
    [data_type], [year] and [quarter]. *)
Definition _export_to_excel (df : list Comparison.bin) : export_result output_files :=
  let combined := Excel._create_excel_file df "All Data" in
  let mobile_data := rows_of_type "mobile" df in
  let mobile :=
    if 0 <? Excel.len mobile_data
    then Some (Excel._create_excel_file mobile_data "Mobile") else None in
  let fixed_data := rows_of_type "fixed" df in
  let fixed :=
    if 0 <? Excel.len fixed_data
    then Some (Excel._create_excel_file fixed_data "Fixed") else None in
  let time_periods := time_periods df in
  match (if 1 <? Excel.len time_periods
         then path <- Comparison._create_comparison_file mean df ;; Ok (Some path)
         else Ok None) with
  | Raise e => Raised (Propagated e)
  | Ok (Some None) =>
      (* [file_path.stat()] in the loop that prints the files *)
      Raised AttributeError
  | Ok comparison =>
      Returned {| combined := combined; mobile := mobile; fixed := fixed;
                  comparison := comparison |}
  end.

End ExportToExcel.

(** A frame whose earliest row has no quarter, before two periods. *)
Definition early_row_without_quarter : list Comparison.bin :=
  [{| Comparison.quadkey := "7"; Comparison.year := Some 2023;
      Comparison.quarter := None; Comparison.data_type := "mobile";
      Comparison.avg_d_kbps_mean := 90; Comparison.avg_u_kbps_mean := 90 |};
   Comparison.row7 2024 1 100 100;
   Comparison.row7 2024 2 110 110].

End Prepare.

(** * Properties *)

(** ** Results *)

Lemma bind_Ok {A B} (r : result A) (k : A -> result B) (b : B) :
  bind r k = Ok b -> exists a, r = Ok a /\ k a = Ok b.
Proof. destruct r as [a|e]; simpl; intros H; [eauto | discriminate]. Qed.

Lemma bind_Raise {A B} (r : result A) (k : A -> result B) (e : exception) :
  bind r k = Raise e -> r = Raise e \/ exists a, r = Ok a /\ k a = Raise e.
Proof. destruct r as [a|e']; simpl; intros H; [eauto | left; congruence]. Qed.

(** ** The quadkey decoder *)

Section QuadkeyFacts.
Import Quadkey.

Lemma get_chars (s : string) : forall i, String.get i s = nth_error (chars s) i.
Proof.
  induction s as [|c s IH]; intros [|i]; simpl; auto.
Qed.

Lemma length_chars (s : string) : List.length (chars s) = String.length s.
Proof. induction s; simpl; auto. Qed.

Lemma skipn_nth_error {A} (l : list A) : forall i a,
  nth_error l i = Some a -> skipn i l = a :: skipn (S i) l.
Proof.
  induction l as [|b l IH]; intros [|i] a H; simpl in *; try discriminate.
  - congruence.
  - now apply IH.
Qed.

Lemma quad_digit_cases (c : ascii) :
  is_quad_digit c = true ->
  c = "0"%char \/ c = "1"%char \/ c = "2"%char \/ c = "3"%char.
Proof.
  destruct c as [[] [] [] [] [] [] [] []]; simpl; intros H;
    try discriminate; auto.
Qed.

Lemma quad_digit_decimal (c : ascii) :
  is_quad_digit c = true -> is_decimal_digit c = true.
Proof.
  intros H. destruct (quad_digit_cases c H) as [-> | [-> | [-> | ->]]];
    reflexivity.
Qed.

Lemma int_decimal (c : ascii) :
  is_decimal_digit c = true -> exists d, int c = Ok d /\ 0 <= d <= 9.
Proof.
  unfold is_decimal_digit, int. cbv zeta. intros H. rewrite H.
  apply andb_prop in H. destruct H as [H1 H2].
  apply Z.leb_le in H1. apply Z.leb_le in H2.
  eexists. split; [reflexivity | lia].
Qed.

Lemma int_not_decimal (c : ascii) :
  is_decimal_digit c = false -> int c = Raise ValueError.
Proof.
  unfold is_decimal_digit, int. cbv zeta. intros H. now rewrite H.
Qed.

Lemma getitem_nth (s : string) (i : nat) (c : ascii) :
  nth_error (chars s) i = Some c -> getitem s (Z.of_nat i) = Ok c.
Proof.
  intros H. unfold getitem. rewrite Nat2Z.id, get_chars, H. reflexivity.
Qed.

(** A digit of the loop never raises on a decimal digit, whatever the
    accumulators. *)
Lemma decode_digit_decimal (s : string) (L : Z) (i : nat) (c : ascii) (t : Z * Z) :
  nth_error (chars s) i = Some c ->
  is_decimal_digit c = true ->
  exists t', decode_digit s L (Z.of_nat i) t = Ok t'.
Proof.
  intros Hc Hd. destruct t as [x y]. unfold decode_digit.
  rewrite (getitem_nth _ _ Hc). simpl.
  destruct (int_decimal c Hd) as [d [-> _]]. simpl.
  destruct (d =? 1); [eauto|]. destruct (d =? 2); [eauto|].
  destruct (d =? 3); eauto.
Qed.

Lemma decode_digit_not_decimal (s : string) (L : Z) (i : nat) (c : ascii) (t : Z * Z) :
  nth_error (chars s) i = Some c ->
  is_decimal_digit c = false ->
  decode_digit s L (Z.of_nat i) t = Raise ValueError.
Proof.
  intros Hc Hd. destruct t as [x y]. unfold decode_digit.
  rewrite (getitem_nth _ _ Hc). simpl.
  now rewrite (int_not_decimal c Hd).
Qed.

(** The loop from index [i] on: it ends normally when all remaining
    characters are decimal digits and raises [ValueError] otherwise. *)
Lemma decode_loop_outcome (s : string) (L : Z) : forall n i t,
  (i + n = String.length s)%nat ->
  if forallb is_decimal_digit (skipn i (chars s))
  then exists t', for_range n (Z.of_nat i) (decode_digit s L) t = Ok t'
  else for_range n (Z.of_nat i) (decode_digit s L) t = Raise ValueError.
Proof.
  induction n as [|n IH]; intros i t Hlen.
  - rewrite skipn_all2 by (rewrite length_chars; lia). simpl. eauto.
  - assert (Hi : (i < List.length (chars s))%nat) by (rewrite length_chars; lia).
    destruct (nth_error (chars s) i) as [c|] eqn:Hc;
      [| apply nth_error_None in Hc; lia].
    rewrite (skipn_nth_error _ _ Hc).
    change (forallb is_decimal_digit (c :: skipn (S i) (chars s)))
      with (is_decimal_digit c && forallb is_decimal_digit (skipn (S i) (chars s))).
    change (for_range (S n) (Z.of_nat i) (decode_digit s L) t)
      with (bind (decode_digit s L (Z.of_nat i) t)
              (for_range n (Z.of_nat i + 1) (decode_digit s L))).
    destruct (is_decimal_digit c) eqn:Hd.
    + destruct (decode_digit_decimal s L i t Hc Hd) as [t' Ht'].
      rewrite Ht'. cbn [bind andb].
      replace (Z.of_nat i + 1) with (Z.of_nat (S i)) by lia.
      apply IH. lia.
    + now rewrite (decode_digit_not_decimal s L i t Hc Hd).
Qed.

Lemma decode_digit_quad (s : string) (i : nat) (c : ascii) (x y : Z) :
  nth_error (chars s) i = Some c ->
  is_quad_digit c = true ->
  decode_digit s (Z.of_nat (String.length s)) (Z.of_nat i) (x, y)
  = Ok (spec_or_x s x i, spec_or_y s y i).
Proof.
  intros Hc Hq. unfold decode_digit, spec_or_x, spec_or_y, spec_digit.
  rewrite (getitem_nth _ _ Hc), get_chars, Hc.
  destruct (quad_digit_cases c Hq) as [-> | [-> | [-> | ->]]]; reflexivity.
Qed.

Lemma decode_loop_quad (s : string) :
  forallb is_quad_digit (chars s) = true ->
  forall n i x y,
  (i + n = String.length s)%nat ->
  for_range n (Z.of_nat i) (decode_digit s (Z.of_nat (String.length s))) (x, y)
  = Ok (fold_left (spec_or_x s) (seq i n) x, fold_left (spec_or_y s) (seq i n) y).
Proof.
  intros Hall. rewrite forallb_forall in Hall.
  induction n as [|n IH]; intros i x y Hlen; [reflexivity|].
  assert (Hi : (i < List.length (chars s))%nat) by (rewrite length_chars; lia).
  destruct (nth_error (chars s) i) as [c|] eqn:Hc;
    [| apply nth_error_None in Hc; lia].
  change (for_range (S n) (Z.of_nat i) ?b (x, y))
    with (bind (b (Z.of_nat i) (x, y)) (for_range n (Z.of_nat i + 1) b)).
  rewrite (decode_digit_quad s i x y Hc (Hall c (nth_error_In _ _ Hc))).
  cbn [bind seq fold_left]. replace (Z.of_nat i + 1) with (Z.of_nat (S i)) by lia.
  apply IH. lia.
Qed.

Lemma latitude_arith (y : R) :
  (90 - 360 * atan (exp (- y * 2 * PI)) / PI
   = 90 - 360 / PI * atan (exp (- y * (2 * PI))))%R.
Proof.
  replace (- y * 2 * PI)%R with (- y * (2 * PI))%R by ring.
  field. apply PI_neq0.
Qed.

Lemma decode_tile_center {F : Type} {ops : PyFloat F} (quadkey : string) :
  forallb is_quad_digit (chars quadkey) = true ->
  _decode_quadkey_to_latlon (F := F) quadkey
  = Ok (tile_center (Z.of_nat (String.length quadkey))
          (spec_tile_x quadkey) (spec_tile_y quadkey)).
Proof.
  intros Hall. unfold _decode_quadkey_to_latlon.
  pose proof (decode_loop_quad quadkey Hall (String.length quadkey) 0 0 0 eq_refl)
    as Hloop.
  cbn [Z.of_nat] in Hloop. rewrite Hloop. reflexivity.
Qed.

Lemma float_of_small_int :
  Comparison.float_of_Z 2 = 2%float
  /\ Comparison.float_of_Z 90 = 90%float
  /\ Comparison.float_of_Z 360 = 360%float.
Proof. vm_compute. repeat split. Qed.

Lemma tile_center_float64 (exp arctan : float -> float) (level_of_detail tile_x tile_y : Z) :
  tile_center (ops := Float64.Binary64 exp arctan) level_of_detail tile_x tile_y
  = (Float64.latitude (arctan (exp (Float64.exponent level_of_detail tile_y))),
     Float64.longitude level_of_detail tile_x).
Proof.
  destruct float_of_small_int as (H2 & H90 & H360).
  unfold tile_center, Float64.latitude, Float64.exponent, Float64.longitude.
  cbn [int_truediv of_int half fsub fmul fdiv fneg np_pi np_exp np_arctan
       Float64.Binary64].
  now rewrite H2, H90, H360.
Qed.

(** C1, as the code computes it.  For a quadkey made of the characters 0,
    1, 2, 3 and of length at least 1, the loop of the decoder ends with the
    tile coordinates of the reference algorithm, the mask [1 << (L - 1 - i)]
    OR-ed into tile_x for the digits 1 and 3 and into tile_y for the digits
    2 and 3, and the decoder returns the tile centre of its last lines on
    them, in any float arithmetic.  At the real numbers this is the
    reference algorithm: the pixel centre [tile * 256 + 128] over the map
    size [256 << L], the longitude [360 * x] and the latitude
    [90 - (360 / pi) * atan (exp (- y * 2 pi))].  At float64 the latitude is
    [90 - 360 * a / np.pi], each operation rounded and in this order, on the
    value [a] that [np.arctan] gives for [np.exp (-y * 2 * np.pi)], and the
    longitude [360 * x]; the reference algorithm at float64 has the same
    longitude and the latitude [90 - (360 / pi) * a] on the same [a]. *)
Theorem decode_quadkey_reference (quadkey : string) :
  forallb is_quad_digit (chars quadkey) = true ->
  (1 <= String.length quadkey)%nat ->
  (forall (F : Type) (ops : PyFloat F),
     _decode_quadkey_to_latlon (F := F) quadkey
     = Ok (tile_center (Z.of_nat (String.length quadkey))
             (spec_tile_x quadkey) (spec_tile_y quadkey)))
  /\ _decode_quadkey_to_latlon (F := R) quadkey
     = Ok (spec_latitude quadkey, spec_longitude quadkey)
  /\ (forall exp arctan : float -> float,
        _decode_quadkey_to_latlon (ops := Float64.Binary64 exp arctan) quadkey
        = Ok (Float64.latitude
                (arctan (exp (Float64.exponent (Z.of_nat (String.length quadkey))
                                (spec_tile_y quadkey)))),
              Float64.longitude (Z.of_nat (String.length quadkey))
                (spec_tile_x quadkey))
        /\ Float64.spec_latlon exp arctan quadkey
           = (Float64.spec_latitude
                (arctan (exp (Float64.exponent (Z.of_nat (String.length quadkey))
                                (spec_tile_y quadkey)))),
              Float64.longitude (Z.of_nat (String.length quadkey))
                (spec_tile_x quadkey))).
Proof.
  intros Hall _. split; [| split].
  - intros F ops. now apply decode_tile_center.
  - rewrite (decode_tile_center quadkey Hall).
    apply f_equal. unfold tile_center. apply f_equal2; [| reflexivity].
    unfold spec_latitude, spec_y, spec_map_size, spec_tile_y.
    cbn [fsub fdiv fmul fneg of_int half np_pi np_exp np_arctan int_truediv RealFloat].
    apply latitude_arith.
  - intros exp arctan. rewrite (decode_tile_center quadkey Hall).
    split; [now rewrite tile_center_float64 | reflexivity].
Qed.

(** The level-1 fixtures: the tile "0" is centred at longitude -90 and the
    tile "3" at longitude 90. *)
Lemma decode_level1_longitudes :
  (exists latitude, _decode_quadkey_to_latlon (F := R) "0" = Ok (latitude, (-90)%R))
  /\ (exists latitude, _decode_quadkey_to_latlon (F := R) "3" = Ok (latitude, 90%R)).
Proof.
  split; eexists; unfold _decode_quadkey_to_latlon; cbn;
    apply f_equal; apply f_equal; lra.
Qed.

Lemma decode_quadkey_reference_witness :
  (forall (F : Type) (ops : PyFloat F),
     _decode_quadkey_to_latlon (F := F) "3101020323112312"
     = Ok (tile_center 16 53622 34253))
  /\ _decode_quadkey_to_latlon (F := R) "3101020323112312"
     = Ok (spec_latitude "3101020323112312", spec_longitude "3101020323112312")
  /\ (forall exp arctan : float -> float,
        _decode_quadkey_to_latlon (ops := Float64.Binary64 exp arctan)
          "3101020323112312"
        = Ok (Float64.latitude (arctan (exp (Float64.exponent 16 34253))),
              Float64.longitude 16 53622)
        /\ Float64.spec_latlon exp arctan "3101020323112312"
           = (Float64.spec_latitude (arctan (exp (Float64.exponent 16 34253))),
              Float64.longitude 16 53622)).
Proof.
  apply (@decode_quadkey_reference "3101020323112312"); [reflexivity | simpl; lia].
Defined.

(** C1 as stated fails at float64.  For the quadkeys "0" and "22202" the
    latitude the decoder returns is not the float64 value of
    [90 - (360 / pi) * a] on the same arc tangent [a]: 66.513260443111861
    against 66.513260443111847 for "0"; for "22202" the two differ on the
    arc tangent and on the float64 values next to it on both sides. *)
Lemma decode_quadkey_float64_latitude_differs :
  _decode_quadkey_to_latlon (ops := Float64.numpy) "0"
  = Ok (0x1.0a0d942545fbdp+6, -90)%float
  /\ Float64.spec_latlon Float64.numpy_exp Float64.numpy_arctan "0"
     = (0x1.0a0d942545fbcp+6, -90)%float
  /\ forallb
       (fun quadkey =>
          match _decode_quadkey_to_latlon (ops := Float64.numpy) quadkey with
          | Ok (latitude, longitude) =>
              negb (latitude
                    =? fst (Float64.spec_latlon Float64.numpy_exp
                              Float64.numpy_arctan quadkey))%float
          | Raise _ => false
          end)
       ["0"%string; "22202"%string] = true
  /\ forallb (fun a => negb (Float64.latitude a =? Float64.spec_latitude a)%float)
       Float64.arctan_22202_neighbours = true.
Proof. vm_compute. repeat split. Qed.

Lemma decode_quadkey_outcome {F : Type} {ops : PyFloat F} (quadkey : string) :
  if forallb is_decimal_digit (chars quadkey)
  then exists latlon : F * F, _decode_quadkey_to_latlon quadkey = Ok latlon
  else _decode_quadkey_to_latlon (F := F) quadkey = Raise ValueError.
Proof.
  pose proof (decode_loop_outcome quadkey (Z.of_nat (String.length quadkey))
                (String.length quadkey) 0 (0, 0) eq_refl) as H.
  cbn [skipn Z.of_nat] in H. unfold _decode_quadkey_to_latlon.
  destruct (forallb is_decimal_digit (chars quadkey)).
  - destruct H as [[x y] ->]. cbn [bind]. eauto.
  - rewrite H. reflexivity.
Qed.

(** C2 as stated fails: the digit 4 and the empty string are decoded, the
    first like the digit 0 and the second to the centre of the level-0 tile. *)
Lemma decode_quadkey_accepts_four_and_empty :
  _decode_quadkey_to_latlon (F := R) "4" = _decode_quadkey_to_latlon (F := R) "0"
  /\ (exists latlon, _decode_quadkey_to_latlon (F := R) "4" = Ok latlon)
  /\ (exists latlon, _decode_quadkey_to_latlon (F := R) "" = Ok latlon).
Proof.
  split; [reflexivity | split; eexists; reflexivity].
Qed.

End QuadkeyFacts.

(** ** The decoder on any string *)

Section UnicodeFacts.
Import Quadkey.

Variable todecimal : N -> option Z.

Local Abbreviation quad_string := (Unicode.quad_string todecimal).
Local Abbreviation is_decimal := (Unicode.is_decimal todecimal).

Lemma chars_quad_string (quadkey : Unicode.str) :
  chars (quad_string quadkey) = map (Unicode.quad_digit todecimal) quadkey.
Proof. apply list_ascii_of_string_of_list_ascii. Qed.

Lemma length_quad_string (quadkey : Unicode.str) :
  String.length (quad_string quadkey) = List.length quadkey.
Proof. now rewrite <- length_chars, chars_quad_string, length_map. Qed.

Lemma quad_string_quad (quadkey : Unicode.str) :
  forallb is_quad_digit (chars (quad_string quadkey)) = true.
Proof.
  rewrite chars_quad_string, forallb_forall. intros c Hc.
  apply in_map_iff in Hc. destruct Hc as (n & <- & _).
  unfold Unicode.quad_digit.
  destruct (todecimal n) as [[|[[p|p|]|[p|p|]|]|p]|]; reflexivity.
Qed.

(** On a decimal digit the loop takes the branch of its character in
    "0123". *)
Lemma unicode_digit_decimal (quadkey : Unicode.str) (L : Z) (i : nat) (c : N)
    (t : Z * Z) :
  nth_error quadkey i = Some c ->
  is_decimal c = true ->
  exists t', Unicode.decode_digit todecimal quadkey L (Z.of_nat i) t = Ok t'
             /\ decode_digit (quad_string quadkey) L (Z.of_nat i) t = Ok t'.
Proof.
  intros Hc Hd. destruct t as [x y].
  unfold Unicode.decode_digit, decode_digit, Unicode.getitem, Unicode.int.
  rewrite Nat2Z.id, Hc.
  assert (Hq : nth_error (chars (quad_string quadkey)) i
               = Some (Unicode.quad_digit todecimal c))
    by (now rewrite chars_quad_string, nth_error_map, Hc).
  rewrite (getitem_nth _ _ Hq). cbn [bind].
  unfold Unicode.is_decimal in Hd. unfold Unicode.quad_digit.
  destruct (todecimal c) as [[|[[p|p|]|[p|p|]|]|p]|]; try discriminate;
    cbn; eauto.
Qed.

Lemma unicode_digit_not_decimal (quadkey : Unicode.str) (L : Z) (i : nat) (c : N)
    (t : Z * Z) :
  nth_error quadkey i = Some c ->
  is_decimal c = false ->
  Unicode.decode_digit todecimal quadkey L (Z.of_nat i) t = Raise ValueError.
Proof.
  intros Hc Hd. destruct t as [x y].
  unfold Unicode.decode_digit, Unicode.getitem, Unicode.int.
  rewrite Nat2Z.id, Hc. cbn [bind].
  unfold Unicode.is_decimal in Hd. now destruct (todecimal c).
Qed.

Lemma unicode_loop (quadkey : Unicode.str) (L : Z) : forall n i t,
  (i + n = List.length quadkey)%nat ->
  if forallb is_decimal (skipn i quadkey)
  then exists t',
         for_range n (Z.of_nat i) (Unicode.decode_digit todecimal quadkey L) t = Ok t'
         /\ for_range n (Z.of_nat i) (decode_digit (quad_string quadkey) L) t = Ok t'
  else for_range n (Z.of_nat i) (Unicode.decode_digit todecimal quadkey L) t
       = Raise ValueError.
Proof.
  induction n as [|n IH]; intros i t Hlen.
  - rewrite skipn_all2 by lia. simpl. eauto.
  - destruct (nth_error quadkey i) as [c|] eqn:Hc;
      [| apply nth_error_None in Hc; lia].
    rewrite (skipn_nth_error _ _ Hc).
    cbn [forallb for_range].
    destruct (is_decimal c) eqn:Hd.
    + destruct (unicode_digit_decimal quadkey L i t Hc Hd) as (t' & -> & ->).
      cbn [bind andb].
      replace (Z.of_nat i + 1) with (Z.of_nat (S i)) by lia.
      apply IH. lia.
    + now rewrite (unicode_digit_not_decimal quadkey L i t Hc Hd).
Qed.

Context {F : Type} {ops : PyFloat F}.

Lemma unicode_decode_outcome (quadkey : Unicode.str) :
  if forallb is_decimal quadkey
  then Unicode._decode_quadkey_to_latlon todecimal (F := F) quadkey
       = _decode_quadkey_to_latlon (quad_string quadkey)
       /\ exists latlon : F * F,
            Unicode._decode_quadkey_to_latlon todecimal quadkey = Ok latlon
  else Unicode._decode_quadkey_to_latlon todecimal (F := F) quadkey
       = Raise ValueError.
Proof.
  pose proof (unicode_loop quadkey (Z.of_nat (List.length quadkey))
                (List.length quadkey) 0 (0, 0) eq_refl) as H.
  cbn [skipn Z.of_nat] in H.
  unfold Unicode._decode_quadkey_to_latlon, _decode_quadkey_to_latlon.
  rewrite length_quad_string.
  destruct (forallb is_decimal quadkey).
  - destruct H as ([x y] & -> & ->). cbn [bind]. split; [reflexivity | eauto].
  - now rewrite H.
Qed.

End UnicodeFacts.

Section UnicodeLatin1.
Import Quadkey.
Variable todecimal : N -> option Z.
Hypothesis latin1 : Unicode.latin1_decimal todecimal.

Lemma latin1_int (c : ascii) :
  Unicode.int todecimal (N_of_ascii c) = int c.
Proof.
  unfold Unicode.int, int. cbv zeta.
  rewrite (latin1 (N_ascii_bounded c)).
  replace (48 <=? Z.of_N (N_of_ascii c)) with (48 <=? N_of_ascii c)%N.
  2:{ destruct (N.leb_spec 48 (N_of_ascii c)), (Z.leb_spec 48 (Z.of_N (N_of_ascii c)));
        try reflexivity; lia. }
  replace (Z.of_N (N_of_ascii c) <=? 57) with (N_of_ascii c <=? 57)%N.
  2:{ destruct (N.leb_spec (N_of_ascii c) 57), (Z.leb_spec (Z.of_N (N_of_ascii c)) 57);
        try reflexivity; lia. }
  now destruct ((48 <=? N_of_ascii c)%N && (N_of_ascii c <=? 57)%N).
Qed.

Lemma latin1_digit (s : string) (L i : Z) (t : Z * Z) :
  Unicode.decode_digit todecimal (Unicode.of_string s) L i t = decode_digit s L i t.
Proof.
  destruct t as [x y].
  unfold Unicode.decode_digit, decode_digit, Unicode.getitem, getitem, Unicode.of_string.
  rewrite nth_error_map, get_chars. fold (chars s).
  destruct (nth_error (chars s) (Z.to_nat i)) as [c|]; [| reflexivity].
  cbn [option_map bind]. now rewrite latin1_int.
Qed.

Lemma for_range_ext {S : Type} (body body' : Z -> S -> result S) :
  (forall i s, body i s = body' i s) ->
  forall n i s, for_range n i body s = for_range n i body' s.
Proof.
  intros H. induction n as [|n IH]; intros i s; [reflexivity|].
  cbn [for_range]. rewrite H. destruct (body' i s); cbn [bind]; auto.
Qed.

Lemma latin1_decode {F : Type} {ops : PyFloat F} (s : string) :
  Unicode._decode_quadkey_to_latlon todecimal (F := F) (Unicode.of_string s)
  = _decode_quadkey_to_latlon s.
Proof.
  unfold Unicode._decode_quadkey_to_latlon, _decode_quadkey_to_latlon.
  assert (Hlen : List.length (Unicode.of_string s) = String.length s)
    by (unfold Unicode.of_string; now rewrite length_map, <- length_chars).
  rewrite Hlen.
  now rewrite (for_range_ext _ _ (latin1_digit s (Z.of_nat (String.length s)))).
Qed.

End UnicodeLatin1.

Lemma unicode_decode_empty (todecimal : N -> option Z) :
  Unicode._decode_quadkey_to_latlon todecimal (F := R) [] = Ok (0%R, 0%R).
Proof.
  unfold Unicode._decode_quadkey_to_latlon.
  cbn [List.length for_range bind Z.of_nat Z.shiftl Z.mul Z.add Pos.mul Pos.add
       fsub fdiv fmul fneg of_int half np_pi np_exp np_arctan int_truediv RealFloat].
  apply f_equal.
  replace (5 / 10 - 128 / 256)%R with 0%R by lra.
  replace (- 0 * 2 * PI)%R with 0%R by ring.
  rewrite exp_0, atan_1.
  apply f_equal2; [| lra].
  field. apply PI_neq0.
Qed.

Lemma excerpt_latin1 : Unicode.latin1_decimal Unicode.excerpt_decimal.
Proof.
  intros c Hc. unfold Unicode.excerpt_decimal.
  destruct ((48 <=? c)%N && (c <=? 57)%N); [reflexivity|].
  destruct (N.leb_spec 1632 c); [lia|]. cbn [andb].
  destruct (N.leb_spec 65296 c); [lia|]. reflexivity.
Qed.

(** C2, as the code has it.  The decoder has no check of its own: it
    raises exactly when the string has a character that [int] does not read
    as a decimal digit, and the exception is the [ValueError] of [int].  A
    string of decimal digits, of any script, decodes to a coordinate: that
    of the quadkey of the same length over "0123" in which the digits 1, 2
    and 3 stand for themselves and every other digit, 4 to 9 among them,
    for 0.  The empty string decodes to latitude 0 and longitude 0, the
    centre of the level-0 tile.  On a string of code points below 256 the
    decoder is the decoder of [Quadkey]. *)
Theorem decode_quadkey_raises_iff_not_decimal
    (todecimal : N -> option Z) {F : Type} {ops : PyFloat F} (quadkey : Unicode.str) :
  (forallb (Unicode.is_decimal todecimal) quadkey = false <->
   Unicode._decode_quadkey_to_latlon todecimal (F := F) quadkey = Raise ValueError)
  /\ (forallb (Unicode.is_decimal todecimal) quadkey = true <->
      exists latlon : F * F,
        Unicode._decode_quadkey_to_latlon todecimal quadkey = Ok latlon)
  /\ (forallb (Unicode.is_decimal todecimal) quadkey = true ->
      Unicode._decode_quadkey_to_latlon todecimal (F := F) quadkey
      = Quadkey._decode_quadkey_to_latlon (Unicode.quad_string todecimal quadkey)
      /\ forallb Quadkey.is_quad_digit
           (Quadkey.chars (Unicode.quad_string todecimal quadkey)) = true
      /\ String.length (Unicode.quad_string todecimal quadkey) = List.length quadkey)
  /\ Unicode._decode_quadkey_to_latlon todecimal (F := R) [] = Ok (0%R, 0%R)
  /\ (Unicode.latin1_decimal todecimal ->
      forall s : string,
        Unicode._decode_quadkey_to_latlon todecimal (F := F) (Unicode.of_string s)
        = Quadkey._decode_quadkey_to_latlon s).
Proof.
  pose proof (unicode_decode_outcome todecimal (F := F) quadkey) as H.
  split; [| split; [| split; [| split]]].
  - destruct (forallb _ quadkey).
    + destruct H as [_ [latlon ->]]. split; discriminate.
    + split; [intros _; exact H | reflexivity].
  - destruct (forallb _ quadkey).
    + destruct H as [_ H]. split; [intros _; exact H | reflexivity].
    + rewrite H. split; [discriminate | intros [latlon Hl]; discriminate].
  - intros Hall. rewrite Hall in H. destruct H as [H _].
    split; [exact H | split].
    + apply quad_string_quad.
    + apply length_quad_string.
  - apply unicode_decode_empty.
  - intros Hlatin1 s. now apply latin1_decode.
Qed.

Lemma decode_quadkey_raises_iff_not_decimal_witness :
  Unicode.latin1_decimal Unicode.excerpt_decimal
  /\ Unicode._decode_quadkey_to_latlon Unicode.excerpt_decimal (F := R)
       [1635; 52; 65297]%N
     = Quadkey._decode_quadkey_to_latlon "301"
  /\ Unicode._decode_quadkey_to_latlon Unicode.excerpt_decimal (F := R)
       [51; 178]%N
     = Raise ValueError
  /\ Unicode._decode_quadkey_to_latlon Unicode.excerpt_decimal (F := R)
       (Unicode.of_string "3a")
     = Quadkey._decode_quadkey_to_latlon "3a".
Proof.
  split; [exact excerpt_latin1 | split; [| split]].
  - exact (proj1 (proj1 (proj2 (proj2 (decode_quadkey_raises_iff_not_decimal
             Unicode.excerpt_decimal (F := R) [1635; 52; 65297]%N))) eq_refl)).
  - exact (proj1 (proj1 (decode_quadkey_raises_iff_not_decimal
             Unicode.excerpt_decimal (F := R) [51; 178]%N)) eq_refl).
  - exact (proj2 (proj2 (proj2 (proj2 (decode_quadkey_raises_iff_not_decimal
             Unicode.excerpt_decimal (F := R) [])))) excerpt_latin1 "3a"%string).
Defined.

(** ** Splitting a frame into sheets *)

Section ExcelFacts.
Import Excel.
Context {row : Type}.

Lemma firstn_slice (df : list row) (a b : nat) :
  (a <= b)%nat ->
  firstn a df ++ firstn (b - a) (skipn a df) = firstn b df.
Proof.
  intros Hab. rewrite <- (firstn_skipn a (firstn b df)).
  rewrite firstn_firstn, Nat.min_l by assumption.
  now rewrite skipn_firstn_comm.
Qed.

(** The first [c] chunks of width [m] make up the first [c * m] rows. *)
Lemma chunks_prefix (df : list row) (m : Z) :
  0 < m ->
  forall c : nat,
  List.concat (map (fun k => iloc df (k * m) (Z.min ((k + 1) * m) (len df)))
              (map Z.of_nat (seq 0 c)))
  = firstn (Z.to_nat (Z.min (Z.of_nat c * m) (len df))) df.
Proof.
  intros Hm. induction c as [|c IH].
  - cbn [seq map List.concat]. unfold len.
    rewrite Z.min_l by lia. reflexivity.
  - rewrite seq_S, !map_app, concat_app, IH. cbn [map List.concat plus].
    rewrite app_nil_r. unfold iloc.
    replace (Z.of_nat (S c) * m) with ((Z.of_nat c + 1) * m) by lia.
    destruct (Z.le_gt_cases (Z.of_nat c * m) (len df)) as [Hle | Hgt].
    + rewrite (Z.min_l (Z.of_nat c * m)) by assumption.
      apply firstn_slice. unfold len in *. lia.
    + rewrite (Z.min_r (Z.of_nat c * m)) by lia.
      rewrite (Z.min_r ((Z.of_nat c + 1) * m)) by lia.
      unfold len in *. rewrite Nat2Z.id, firstn_all.
      rewrite (skipn_all2 (n := Z.to_nat (Z.of_nat c * m))) by lia.
      rewrite firstn_nil. apply app_nil_r.
Qed.

Lemma str_int_inj (a b : Z) : str_int a = str_int b -> a = b.
Proof.
  unfold str_int. intros H. apply DecimalZ.to_int_inj.
  assert (Hs : Some (Z.to_int a) = Some (Z.to_int b))
    by (rewrite <- !NilEmpty.isi; now rewrite H).
  now inversion Hs.
Qed.

Lemma append_inj_r (p x y : string) : (p ++ x = p ++ y)%string -> x = y.
Proof.
  induction p as [|c p IH]; simpl; intros H; [assumption|].
  inversion H. auto.
Qed.

Lemma range_NoDup (n : Z) : NoDup (range n).
Proof.
  unfold range. apply Finite.Injective_map_NoDup; [| apply seq_NoDup].
  intros a b. apply Nat2Z.inj.
Qed.

Lemma num_chunks_bounds (n : Z) :
  0 <= n ->
  let q := (n - 1) / Config.excel_row_limit + 1 in
  0 <= q /\ n <= q * Config.excel_row_limit
  /\ (Config.excel_row_limit < n -> 1 < q).
Proof.
  intros Hn q. subst q. unfold Config.excel_row_limit.
  pose proof (Z.div_mod (n - 1) 900000 ltac:(lia)) as Hdm.
  pose proof (Z.mod_pos_bound (n - 1) 900000 ltac:(lia)) as Hr.
  lia.
Qed.

(** The sheets, read in order, are the frame. *)
Lemma sheets_concat (df : list row) (sheet_name : string) :
  List.concat (map snd (_create_excel_file df sheet_name)) = df.
Proof.
  unfold _create_excel_file. cbv zeta.
  destruct (num_chunks_bounds (n := len df)) as (Hq0 & Hqn & _);
    [unfold len; lia|].
  set (q := (len df - 1) / Config.excel_row_limit + 1) in *.
  rewrite map_map. cbn [snd]. unfold range.
  rewrite (chunks_prefix df (m := Config.excel_row_limit)) by reflexivity.
  rewrite Z2Nat.id, Z.min_r by lia.
  unfold len. rewrite Nat2Z.id. apply firstn_all.
Qed.

(** C9.  The sheets [_create_excel_file] writes, read in order, are the rows
    of the frame: each row is on one sheet, none is dropped or repeated.  No
    sheet has more than 900000 rows.  A frame of more than 900000 rows goes
    to more than one sheet, and the sheet names differ. *)
Theorem create_excel_file_partitions_rows (df : list row) (sheet_name : string) :
  let sheets := _create_excel_file df sheet_name in
  List.concat (map snd sheets) = df
  /\ Forall (fun sheet => len (snd sheet) <= Config.excel_row_limit) sheets
  /\ (Config.excel_row_limit < len df ->
      (1 < List.length sheets)%nat /\ NoDup (map fst sheets)).
Proof.
  intros sheets. subst sheets.
  split; [| split]; [apply sheets_concat | |];
    unfold _create_excel_file; cbv zeta;
    (destruct (num_chunks_bounds (n := len df)) as (Hq0 & Hqn & Hmany);
       [unfold len; lia|]);
    set (q := (len df - 1) / Config.excel_row_limit + 1) in *.
  - apply Forall_forall. intros sheet Hin.
    apply in_map_iff in Hin. destruct Hin as (k & <- & Hk). cbn [snd].
    apply in_map_iff in Hk. destruct Hk as (j & <- & _).
    unfold len, iloc. rewrite length_firstn.
    unfold len, Config.excel_row_limit in *. lia.
  - intros Hbig. specialize (Hmany Hbig). split.
    + rewrite length_map. unfold range. rewrite length_map, length_seq. lia.
    + rewrite map_map. cbn [fst].
      apply Z.ltb_lt in Hmany. rewrite Hmany.
      apply Finite.Injective_map_NoDup; [| apply range_NoDup].
      intros a b Hab. apply append_inj_r in Hab. apply append_inj_r in Hab.
      apply str_int_inj in Hab. lia.
Qed.

End ExcelFacts.

Lemma create_excel_file_partitions_rows_witness :
  let df := repeat tt (Z.to_nat 900001) in
  let sheets := Excel._create_excel_file df "Data" in
  Config.excel_row_limit < Excel.len df
  /\ (1 < List.length sheets)%nat /\ NoDup (map fst sheets).
Proof.
  intros df sheets.
  assert (Hbig : Config.excel_row_limit < Excel.len df).
  { unfold Excel.len, df. rewrite repeat_length, Z2Nat.id by lia. reflexivity. }
  split; [exact Hbig|].
  exact (proj2 (proj2 (create_excel_file_partitions_rows df "Data")) Hbig).
Defined.

(** ** Orders and sorting *)

Section OrderFacts.

Lemma str_lt_irrefl (a : string) : ~ String_as_OT.lt a a.
Proof. apply (StrictOrder_Irreflexive (R := String_as_OT.lt)). Qed.

Lemma str_lt_trans (a b c : string) :
  String_as_OT.lt a b -> String_as_OT.lt b c -> String_as_OT.lt a c.
Proof. apply (StrictOrder_Transitive (R := String_as_OT.lt)). Qed.

#[export] Instance str_order : CmpOrder str_compare.
Proof.
  split.
  - intros a b. unfold str_compare.
    destruct (String_as_OT.compare_spec a b) as [H | H | H];
      unfold String_as_OT.eq in *; split; intros H';
      try discriminate; try assumption; try reflexivity;
      subst b; exfalso; eapply str_lt_irrefl; eassumption.
  - intros a b. unfold str_compare.
    destruct (String_as_OT.compare_spec a b) as [H | H | H];
      destruct (String_as_OT.compare_spec b a) as [H' | H' | H'];
      unfold String_as_OT.eq in *; try reflexivity; exfalso;
      try (subst; eapply str_lt_irrefl; eassumption);
      eapply str_lt_irrefl; eapply str_lt_trans; eassumption.
  - intros a b c. apply str_lt_trans.
Qed.

#[export] Instance cell_order : CmpOrder cell_compare.
Proof.
  split.
  - intros [x|] [y|]; simpl; split; intros H; try discriminate; try reflexivity.
    + apply Z.compare_eq_iff in H. congruence.
    + inversion H. apply Z.compare_refl.
  - intros [x|] [y|]; simpl; try reflexivity. apply Z.compare_antisym.
  - intros [x|] [y|] [z|]; simpl; try discriminate; try reflexivity.
    rewrite !Z.compare_lt_iff. lia.
Qed.

#[export] Instance lex_order {A B : Type} (cmpA : A -> A -> comparison)
    (cmpB : B -> B -> comparison) :
  CmpOrder cmpA -> CmpOrder cmpB -> CmpOrder (lex_compare cmpA cmpB).
Proof.
  intros HA HB. split.
  - intros [a1 b1] [a2 b2]. unfold lex_compare. cbn [fst snd].
    destruct (cmpA a1 a2) eqn:Ha.
    + apply cmp_eq in Ha. subst a2. rewrite cmp_eq. split; congruence.
    + split; [discriminate|]. intros H. inversion H; subst.
      assert (cmpA a2 a2 = Eq) by now apply cmp_eq. congruence.
    + split; [discriminate|]. intros H. inversion H; subst.
      assert (cmpA a2 a2 = Eq) by now apply cmp_eq. congruence.
  - intros [a1 b1] [a2 b2]. unfold lex_compare. cbn [fst snd].
    rewrite (cmp_opp (cmp := cmpA) a1 a2).
    destruct (cmpA a1 a2); cbn [CompOpp]; try reflexivity. apply cmp_opp.
  - intros [a1 b1] [a2 b2] [a3 b3]. unfold lex_compare. cbn [fst snd].
    destruct (cmpA a1 a2) eqn:H12; try discriminate;
      destruct (cmpA a2 a3) eqn:H23; try discriminate; intros Hb1 Hb2.
    + apply cmp_eq in H12, H23. subst.
      assert (Hr : cmpA a3 a3 = Eq) by now apply cmp_eq.
      rewrite Hr. eapply cmp_lt_trans; eassumption.
    + apply cmp_eq in H12. subst. now rewrite H23.
    + apply cmp_eq in H23. subst. now rewrite H12.
    + now rewrite (cmp_lt_trans _ _ _ H12 H23).
Qed.

Context {K : Type} (cmp : K -> K -> comparison) {order : CmpOrder cmp}.

Lemma cmp_refl (a : K) : cmp a a = Eq.
Proof. now apply cmp_eq. Qed.

Lemma cmp_le_trans (a b c : K) : cmp_le cmp a b -> cmp_le cmp b c -> cmp_le cmp a c.
Proof.
  unfold cmp_le. intros Hab Hbc.
  destruct (cmp a b) eqn:H1; [| | congruence].
  - apply cmp_eq in H1. now subst.
  - destruct (cmp b c) eqn:H2; [| | congruence].
    + apply cmp_eq in H2. subst. congruence.
    + rewrite (cmp_lt_trans _ _ _ H1 H2). discriminate.
Qed.

Lemma cmp_le_total (a b : K) : cmp a b = Gt -> cmp_le cmp b a.
Proof.
  unfold cmp_le. intros H. rewrite (cmp_opp a b), H. discriminate.
Qed.

Lemma cmp_le_antisym (a b : K) : cmp_le cmp a b -> cmp_le cmp b a -> a = b.
Proof.
  unfold cmp_le. intros Hab Hba. rewrite (cmp_opp a b) in Hba.
  destruct (cmp a b) eqn:H; [now apply cmp_eq | | congruence].
  simpl in Hba. congruence.
Qed.

End OrderFacts.

Section SortFacts.
Context {A K : Type} (cmp : K -> K -> comparison) {order : CmpOrder cmp}
        (key : A -> K).

Lemma key_leb_le (a b : A) : key_leb cmp key a b = true <-> key_le cmp key a b.
Proof.
  unfold key_leb, key_le, cmp_le. destruct (cmp (key a) (key b));
    split; intros H; try reflexivity; try discriminate; congruence.
Qed.

Lemma insert_sorted_perm (a : A) (l : list A) :
  Permutation (insert_sorted cmp key a l) (a :: l).
Proof.
  induction l as [|b l IH]; simpl; [reflexivity|].
  destruct (key_leb cmp key a b); [reflexivity|].
  rewrite IH. apply perm_swap.
Qed.

Lemma sort_values_perm (df : list A) : Permutation (sort_values cmp key df) df.
Proof.
  induction df as [|a df IH]; simpl; [reflexivity|].
  rewrite insert_sorted_perm. now constructor.
Qed.

Lemma insert_sorted_sorted (a : A) (l : list A) :
  StronglySorted (key_le cmp key) l -> StronglySorted (key_le cmp key) (insert_sorted cmp key a l).
Proof.
  induction 1 as [|b l Hs IH Hb]; simpl.
  - repeat constructor.
  - destruct (key_leb cmp key a b) eqn:Hab.
    + apply key_leb_le in Hab. constructor.
      * constructor; assumption.
      * constructor; [assumption|].
        eapply Forall_impl; [| exact Hb]. intros c Hc.
        exact (@cmp_le_trans K cmp order (key a) (key b) (key c) Hab Hc).
    + constructor; [assumption|].
      assert (Hba : key_le cmp key b a).
      { apply (@cmp_le_total K cmp order (key a) (key b)). unfold key_leb in Hab.
        destruct (cmp (key a) (key b)); congruence. }
      eapply Permutation_Forall; [symmetry; apply insert_sorted_perm|].
      constructor; assumption.
Qed.

Lemma sort_values_sorted (df : list A) :
  StronglySorted (key_le cmp key) (sort_values cmp key df).
Proof.
  induction df as [|a df IH]; simpl; [constructor|].
  now apply insert_sorted_sorted.
Qed.

End SortFacts.

(** ** float64 *)

Section FloatFacts.
Import Comparison.

Lemma is_nan_iff (x : float) : is_nan x = true <-> Prim2SF x = S754_nan.
Proof.
  split.
  - intros H. unfold Prim2SF. destruct (is_nan x); [reflexivity | discriminate].
  - intros H. unfold is_nan. rewrite FloatAxioms.eqb_spec, H. reflexivity.
Qed.

Lemma is_nan_eq (x : float) : is_nan x = true -> x = nan.
Proof.
  intros H. apply Prim2SF_inj. apply is_nan_iff in H. rewrite H. reflexivity.
Qed.

Lemma is_zero_iff (x : float) :
  is_zero x = true <-> exists s, Prim2SF x = S754_zero s.
Proof.
  unfold is_zero. rewrite FloatAxioms.eqb_spec.
  change (Prim2SF zero) with (S754_zero false).
  destruct (Prim2SF x) as [s| s | | s m e]; simpl; split;
    try discriminate; eauto; try (intros [s' H]; discriminate).
  all: destruct s; discriminate.
Qed.

Lemma is_infinity_iff (x : float) :
  is_infinity x = true <-> exists s, Prim2SF x = S754_infinity s.
Proof.
  unfold is_infinity. rewrite FloatAxioms.eqb_spec, abs_spec.
  change (Prim2SF infinity) with (S754_infinity false).
  destruct (Prim2SF x) as [s| s | | s m e]; simpl; split;
    try discriminate; eauto; try (intros [s' H]; discriminate).
Qed.

Lemma percent_change_nan (value : float) : percent_change value nan = nan.
Proof.
  apply Prim2SF_inj. unfold percent_change.
  rewrite mul_spec, div_spec, sub_spec.
  change (Prim2SF nan) with S754_nan.
  destruct (Prim2SF value); reflexivity.
Qed.

Lemma percent_change_zero_reference (value reference : float) :
  is_zero reference = true ->
  if is_nan value || is_zero value
  then is_nan (percent_change value reference) = true
  else is_infinity (percent_change value reference) = true.
Proof.
  intros Hz. apply is_zero_iff in Hz. destruct Hz as [sr Hr].
  destruct (is_nan value) eqn:Hn; [| destruct (is_zero value) eqn:Hv]; cbn [orb].
  - apply is_nan_eq in Hn. subst value. apply is_nan_iff.
    unfold percent_change. rewrite mul_spec, div_spec, sub_spec, Hr. reflexivity.
  - apply is_zero_iff in Hv. destruct Hv as [sv Hv]. apply is_nan_iff.
    unfold percent_change. rewrite mul_spec, div_spec, sub_spec, Hr, Hv.
    destruct sv, sr; reflexivity.
  - apply is_infinity_iff. unfold percent_change.
    rewrite mul_spec, div_spec, sub_spec, Hr.
    change (Prim2SF 100) with (S754_finite false 7036874417766400 (-46)).
    destruct (Prim2SF value) as [s| s | | s m e] eqn:Hp.
    + assert (is_zero value = true) by (apply is_zero_iff; eauto). congruence.
    + simpl. eauto.
    + assert (is_nan value = true) by (now apply is_nan_iff). congruence.
    + simpl. eauto.
Qed.

End FloatFacts.

(** ** The comparison against the baseline period *)

Section ShiftFacts.
Context {A : Type} (same : A -> A -> bool).

Lemma groupby_shift_length (df : list A) : forall seen,
  List.length (groupby_shift same seen df) = List.length df.
Proof.
  induction df as [|r df IH]; intros seen; simpl; [reflexivity|].
  now rewrite IH.
Qed.

(** The shifted value of row [i] is the latest row above it in its group. *)
Lemma groupby_shift_nth (df : list A) : forall seen i r,
  nth_error df i = Some r ->
  nth_error (groupby_shift same seen df) i
  = Some (find (same r) (rev (firstn i df) ++ seen)).
Proof.
  induction df as [|a df IH]; intros seen [|i] r H; simpl in *;
    try discriminate.
  - now inversion H.
  - rewrite (IH (a :: seen) i r H). now rewrite <- app_assoc.
Qed.

End ShiftFacts.

Lemma StronglySorted_nth {A : Type} (R : A -> A -> Prop) (l : list A) :
  StronglySorted R l ->
  forall i j a b, (i < j)%nat ->
  nth_error l i = Some a -> nth_error l j = Some b -> R a b.
Proof.
  induction 1 as [|x l Hs IH Hx]; intros i j a b Hij Ha Hb.
  - destruct i; discriminate.
  - destruct j as [|j]; [lia|]. simpl in Hb. destruct i as [|i]; simpl in Ha.
    + inversion Ha; subst. rewrite Forall_forall in Hx.
      apply Hx. eapply nth_error_In; eassumption.
    + eapply IH; [| eassumption | eassumption]. lia.
Qed.

Lemma firstn_S_nth {A : Type} (l : list A) : forall j p,
  nth_error l j = Some p -> firstn (S j) l = firstn j l ++ [p].
Proof.
  induction l as [|a l IH]; intros [|j] p H; simpl in *; try discriminate.
  - now inversion H.
  - now rewrite (IH j p H).
Qed.

Lemma find_none_iff {A : Type} (f : A -> bool) (l : list A) :
  find f l = None <-> forall a, In a l -> f a = false.
Proof.
  split; [apply find_none|].
  induction l as [|a l IH]; intros H; simpl; [reflexivity|].
  rewrite (H a) by (now left). apply IH. intros b Hb. apply H. now right.
Qed.

Section ComparisonFacts.
Import Comparison.

Local Abbreviation merged_le := (key_le row_compare (fun m => row_key (m_bin m))).

#[export] Instance period_order : CmpOrder period_compare.
Proof. unfold period_compare. typeclasses eauto. Qed.

#[export] Instance row_order : CmpOrder row_compare.
Proof. unfold row_compare. typeclasses eauto. Qed.

Lemma row_le_quadkey (a b : bin) :
  cmp_le row_compare (row_key a) (row_key b) ->
  cmp_le str_compare (quadkey a) (quadkey b).
Proof.
  unfold cmp_le, row_compare, lex_compare, row_key. cbn [fst snd].
  destruct (str_compare (quadkey a) (quadkey b)); congruence.
Qed.

Lemma row_le_period (a b : bin) :
  quadkey a = quadkey b ->
  cmp_le row_compare (row_key a) (row_key b) ->
  cmp_le period_compare (period_key a) (period_key b).
Proof.
  unfold cmp_le, row_compare, lex_compare at 1, row_key, period_key.
  cbn [fst snd]. intros ->.
  now rewrite (@cmp_refl _ str_compare _ (quadkey b)).
Qed.

(** In a frame sorted by quadkey first, the rows of a quadkey are
    adjacent: the latest row above row [i] with its quadkey is row [i - 1]
    or there is none. *)
Lemma sorted_shift (ms : list merged) (i : nat) (m : merged) :
  StronglySorted merged_le ms ->
  nth_error ms i = Some m ->
  match i with
  | O => find (same_quadkey m) (rev (firstn i ms)) = None
  | Datatypes.S j =>
      exists p, nth_error ms j = Some p /\
        if String.eqb (quadkey (m_bin p)) (quadkey (m_bin m))
        then find (same_quadkey m) (rev (firstn i ms)) = Some p
        else find (same_quadkey m) (rev (firstn i ms)) = None
  end.
Proof.
  intros Hs Hm. destruct i as [|j]; [reflexivity|].
  assert (Hj : (j < List.length ms)%nat).
  { apply Nat.lt_trans with (S j); [lia|]. apply nth_error_Some. congruence. }
  destruct (nth_error ms j) as [p|] eqn:Hp; [| apply nth_error_None in Hp; lia].
  exists p. split; [reflexivity|].
  rewrite (firstn_S_nth _ _ Hp), rev_app_distr. cbn [rev app find].
  unfold same_quadkey at 1 3.
  rewrite (String.eqb_sym (quadkey (m_bin m)) (quadkey (m_bin p))).
  destruct (String.eqb (quadkey (m_bin p)) (quadkey (m_bin m))) eqn:Hpm;
    [reflexivity|].
  apply find_none_iff. intros p' Hin. apply in_rev in Hin.
  destruct (same_quadkey m p') eqn:Hsame; [| reflexivity]. exfalso.
  unfold same_quadkey in Hsame. apply String.eqb_eq in Hsame.
  apply In_nth_error in Hin. destruct Hin as [k Hk].
  assert (Hkj : (k < j)%nat).
  { assert (k < List.length (firstn j ms))%nat
      by (apply nth_error_Some; congruence).
    rewrite length_firstn in H. lia. }
  rewrite nth_error_firstn in Hk.
  destruct (Nat.ltb_spec k j) as [_ | ?]; [| lia].
  pose proof (StronglySorted_nth Hs Hkj Hk Hp) as H1.
  pose proof (StronglySorted_nth Hs (Nat.lt_succ_diag_r j) Hp Hm) as H2.
  apply row_le_quadkey in H1, H2. rewrite <- Hsame in H1.
  apply String.eqb_neq in Hpm. apply Hpm.
  eapply (@cmp_le_antisym _ str_compare _); eassumption.
Qed.


Lemma nth_error_combine {A B : Type} (l1 : list A) : forall (l2 : list B) i,
  nth_error (combine l1 l2) i =
  match nth_error l1 i, nth_error l2 i with
  | Some a, Some b => Some (a, b)
  | _, _ => None
  end.
Proof.
  induction l1 as [|a l1 IH]; intros [|b l2] [|i]; simpl; try reflexivity.
  - now destruct (nth_error l1 i).
  - apply IH.
Qed.

Variable mean : list float -> float.

Lemma sorted_comparison_sorted (df baseline : list bin) :
  StronglySorted merged_le (sorted_comparison mean df baseline).
Proof. apply sort_values_sorted. exact row_order. Qed.



Lemma comparison_frame_nth (df baseline : list bin) (i : nat) (r : comparison_row) :
  nth_error (comparison_frame mean df baseline) i = Some r ->
  exists m, nth_error (sorted_comparison mean df baseline) i = Some m /\
    r = add_changes m
          (find (same_quadkey m) (rev (firstn i (sorted_comparison mean df baseline)))).
Proof.
  unfold comparison_frame. cbv zeta.
  set (ms := sorted_comparison mean df baseline).
  rewrite nth_error_map, nth_error_combine.
  destruct (nth_error ms i) as [m|] eqn:Hm; [| discriminate].
  rewrite (groupby_shift_nth same_quadkey ms [] i Hm), app_nil_r.
  cbn [option_map]. intros H. inversion H. eauto.
Qed.

Lemma comparison_frame_base (df baseline : list bin) (i : nat) :
  nth_error (comparison_frame mean df baseline) i
  = option_map (fun m => add_changes m
        (find (same_quadkey m) (rev (firstn i (sorted_comparison mean df baseline)))))
      (nth_error (sorted_comparison mean df baseline) i).
Proof.
  unfold comparison_frame. cbv zeta.
  set (ms := sorted_comparison mean df baseline).
  rewrite nth_error_map, nth_error_combine.
  destruct (nth_error ms i) as [m|] eqn:Hm; [| reflexivity].
  now rewrite (groupby_shift_nth same_quadkey ms [] i Hm), app_nil_r.
Qed.

Lemma comparison_frame_bins (df baseline : list bin) :
  map base (comparison_frame mean df baseline)
  = map m_bin (sorted_comparison mean df baseline).
Proof.
  apply nth_error_ext. intros i.
  rewrite !nth_error_map, comparison_frame_base.
  now destruct (nth_error (sorted_comparison mean df baseline) i).
Qed.

(** The row before row [i] in its quadkey group, as the code finds it, is
    the previous row of the specification. *)
Lemma comparison_frame_previous (df baseline : list bin) (i : nat) (r : comparison_row) :
  let rows := comparison_frame mean df baseline in
  nth_error rows i = Some r ->
  exists m, base r = m_bin m /\
    match spec_previous rows i with
    | Some p => exists pm, base p = m_bin pm /\ r = add_changes m (Some pm)
                           /\ (exists j, i = S j /\ nth_error rows j = Some p)
                           /\ quadkey (base p) = quadkey (base r)
    | None => r = add_changes m None /\
              forall j p, (j < i)%nat -> nth_error rows j = Some p ->
                          quadkey (base p) <> quadkey (base r)
    end.
Proof.
  intros rows Hr. unfold rows in *.
  destruct (comparison_frame_nth df baseline i Hr) as (m & Hm & Heq).
  exists m. split; [subst r; reflexivity|].
  pose proof (sorted_shift i (sorted_comparison_sorted df baseline) Hm) as Hshift.
  unfold spec_previous. destruct i as [|j].
  - rewrite Hshift in Heq. split; [assumption|]. intros j p Hj. lia.
  - destruct Hshift as (pm & Hpm & Hfind).
    rewrite Hr, (comparison_frame_base df baseline j), Hpm. cbn [option_map].
    set (p := add_changes pm _).
    assert (Hbr : base r = m_bin m) by (subst r; reflexivity).
    change (base p) with (m_bin pm). rewrite Hbr.
    destruct (String.eqb (quadkey (m_bin pm)) (quadkey (m_bin m))) eqn:Hq.
    + exists pm. rewrite Hfind in Heq.
      split; [reflexivity|]. split; [assumption|]. split.
      * exists j. split; [reflexivity|].
        rewrite (comparison_frame_base df baseline j), Hpm. reflexivity.
      * now apply String.eqb_eq.
    + rewrite Hfind in Heq. split; [assumption|].
      intros k q Hk Hq'. rewrite (comparison_frame_base df baseline k) in Hq'.
      destruct (nth_error (sorted_comparison mean df baseline) k) as [qm|] eqn:Hqm;
        [| discriminate].
      cbn [option_map] in Hq'. inversion Hq'; subst q. cbn [base add_changes].
      intros Hsame.
      assert (Hin : In qm (rev (firstn (S j) (sorted_comparison mean df baseline)))).
      { apply in_rev. rewrite rev_involutive.
        apply nth_error_In with k. rewrite nth_error_firstn.
        destruct (Nat.ltb_spec k (S j)); [assumption | lia]. }
      pose proof (proj1 (find_none_iff _ _) Hfind qm Hin) as Hno.
      unfold same_quadkey in Hno. apply String.eqb_neq in Hno. congruence.
Qed.


Lemma create_comparison_file_inv (df : list bin) wb :
  _create_comparison_file mean df = Ok (Some wb) ->
  exists baseline_year baseline_quarter,
    baseline_period df = Ok (baseline_year, baseline_quarter)
    /\ baseline_rows df baseline_year baseline_quarter <> []
    /\ List.concat (map snd wb)
       = comparison_frame mean df (baseline_rows df baseline_year baseline_quarter).
Proof.
  unfold _create_comparison_file.
  destruct (baseline_period df) as [[baseline_year baseline_quarter]|e];
    cbn [bind]; [| discriminate].
  destruct (Excel.len _ =? 0) eqn:Hlen; [discriminate|].
  intros H. inversion H. exists baseline_year, baseline_quarter.
  split; [reflexivity|]. split.
  - intros Hnil. rewrite Hnil in Hlen. discriminate.
  - apply sheets_concat.
Qed.

Lemma baseline_period_first (df : list bin) baseline_year baseline_quarter :
  baseline_period df = Ok (baseline_year, baseline_quarter) ->
  exists r rest, sort_values period_compare period_key df = r :: rest
                 /\ period_key r = (baseline_year, baseline_quarter).
Proof.
  unfold baseline_period. cbv zeta.
  destruct (sort_values period_compare period_key df) as [|r rest];
    [discriminate|].
  cbn [map iloc0 bind]. intros H. inversion H. now exists r, rest.
Qed.

Lemma baseline_period_nonempty (df : list bin) :
  df <> [] -> exists period, baseline_period df = Ok period.
Proof.
  intros Hne. unfold baseline_period. cbv zeta.
  destruct (sort_values period_compare period_key df) as [|r rest] eqn:Hs.
  - exfalso. apply Hne. apply Permutation_nil.
    rewrite <- Hs. apply sort_values_perm.
  - cbn [map iloc0 bind]. eauto.
Qed.

Lemma cell_eqb_eq (a : option Z) (z : Z) : cell_eqb a (Some z) = true <-> a = Some z.
Proof.
  destruct a as [x|]; simpl; [| split; discriminate].
  rewrite Z.eqb_eq. split; congruence.
Qed.

Lemma cell_eqb_ne (a b : option Z) : a <> b -> cell_eqb a b = false.
Proof.
  destruct a as [x|], b as [y|]; simpl; try reflexivity.
  intros H. apply Z.eqb_neq. congruence.
Qed.


Lemma StronglySorted_map {A B : Type} (R : B -> B -> Prop) (f : A -> B) (l : list A) :
  StronglySorted (fun a b => R (f a) (f b)) l -> StronglySorted R (map f l).
Proof.
  induction 1 as [|a l Hs IH Ha]; simpl; constructor; [assumption|].
  apply Forall_map. exact Ha.
Qed.

Lemma comparison_frame_sorted (df baseline : list bin) :
  StronglySorted (key_le row_compare row_key)
    (map base (comparison_frame mean df baseline)).
Proof.
  rewrite comparison_frame_bins. apply StronglySorted_map.
  apply sorted_comparison_sorted.
Qed.

(** Of two rows of one quadkey, the lower in the sorted frame is not in
    quarter 1 of a year whose quarter 4 is above it. *)
Lemma sorted_quarter_4_then_1 (p r : bin) :
  quadkey p = quadkey r ->
  key_le row_compare row_key p r ->
  quarter p = Some 4 -> quarter r = Some 1 ->
  year p <> year r.
Proof.
  intros Hq Hle Hp Hr Hy. apply (row_le_period Hq) in Hle.
  unfold cmp_le, period_compare, lex_compare, period_key in Hle.
  cbn [fst snd] in Hle.
  rewrite Hy, (@cmp_refl _ cell_compare _ (year r)), Hp, Hr in Hle.
  now apply Hle.
Qed.










(** C5.  A row of the comparison sheet has [is_year_transition] exactly
    when its quarter is 1, the row above it has its quadkey and quarter 4,
    and the year of that row differs from its own; when the row above has
    another quadkey, no row above has its quadkey.  With (2024, Q4) = 100
    and (2025, Q1) = 120 for one quadkey, the 2025 Q1 row has the flag and a
    quarter-over-quarter change of 20. *)
Theorem year_transition_flag :
  (forall (df : list bin) wb,
     _create_comparison_file mean df = Ok (Some wb) ->
     let rows := List.concat (map snd wb) in
     forall i r, nth_error rows i = Some r ->
       (is_year_transition r = true <->
        quarter (base r) = Some 1
        /\ exists p, spec_previous rows i = Some p
                     /\ quarter (base p) = Some 4
                     /\ year (base p) <> year (base r))
       /\ (spec_previous rows i = None ->
           forall j p, (j < i)%nat -> nth_error rows j = Some p ->
                       quadkey (base p) <> quadkey (base r)))
  /\ match _create_comparison_file mean_skipna year_transition_fixture with
     | Ok (Some [(sheet_name, [q4; q1])]) =>
         sheet_name = "Comparison"%string
         /\ base q4 = row7 2024 4 100 100
         /\ base q1 = row7 2025 1 120 120
         /\ is_year_transition q1 = true
         /\ d_kbps_qoq_change q1 = 20%float
     | _ => False
     end.
Proof.
  split.
  - intros df wb Hwb rows.
    destruct (create_comparison_file_inv df Hwb) as (y & q & _ & _ & Hrows).
    subst rows. rewrite Hrows. intros i r Hr.
    destruct (comparison_frame_previous df _ i Hr) as (m & Hm & Hprev).
    destruct (spec_previous _ i) as [p|].
    + destruct Hprev as (pm & Hp & Heq & (j & -> & Hj) & Hq).
      assert (Hle : key_le row_compare row_key (base p) (base r)).
      { apply (StronglySorted_nth (comparison_frame_sorted df (baseline_rows df y q))
                 (Nat.lt_succ_diag_r j)); rewrite nth_error_map.
        - now rewrite Hj.
        - now rewrite Hr. }
      assert (Hflag : is_year_transition r
                      = cell_eqb (quarter (base r)) (Some 1)
                        && cell_eqb (quarter (base p)) (Some 4)
                        && negb (cell_eqb (year (base r)) (year (base p)))).
      { rewrite Hp. subst r. reflexivity. }
      rewrite Hflag, !andb_true_iff, negb_true_iff, !cell_eqb_eq.
      split; [split | discriminate].
      * intros [[H1 H4] _]. split; [assumption|]. exists p.
        split; [reflexivity|]. split; [assumption|].
        now apply sorted_quarter_4_then_1.
      * intros (H1 & p' & Hp' & H4 & Hy). inversion Hp'; subst p'.
        split; [split; assumption|]. apply cell_eqb_ne. congruence.
    + destruct Hprev as (-> & Hnone).
      cbn [is_year_transition add_changes shifted_cell cell_eqb].
      rewrite andb_false_r. cbn [andb].
      split; [split; [discriminate|] | intros _; exact Hnone].
      intros (_ & p & Hp & _). discriminate.
  - vm_compute. repeat split.
Qed.

(** C6.  The baseline period is the period of a row of the frame and no
    row has an earlier one, by year and then quarter.  When no row belongs
    to it the function returns [None], after the warning, and writes no
    workbook. *)
Theorem no_baseline_rows_no_comparison (df : list bin)
    (baseline_year baseline_quarter : option Z) :
  baseline_period df = Ok (baseline_year, baseline_quarter) ->
  (exists r, In r df /\ period_key r = (baseline_year, baseline_quarter))
  /\ (forall r, In r df ->
        cmp_le period_compare (baseline_year, baseline_quarter) (period_key r))
  /\ (baseline_rows df baseline_year baseline_quarter = [] ->
        _create_comparison_file mean df = Ok None).
Proof.
  intros Hperiod.
  destruct (baseline_period_first df Hperiod) as (r0 & rest & Hsort & Hkey).
  pose proof (sort_values_perm period_compare period_key df) as Hperm.
  pose proof (sort_values_sorted (order := period_order) period_key df) as Hsorted.
  rewrite Hsort in Hperm, Hsorted.
  split; [| split].
  - exists r0. split; [| assumption].
    apply (Permutation_in _ Hperm). now left.
  - intros r Hin. apply (Permutation_in _ (Permutation_sym Hperm)) in Hin.
    rewrite <- Hkey. destruct Hin as [<- | Hin].
    + unfold cmp_le. now rewrite (@cmp_refl _ period_compare _ (period_key r0)).
    + apply StronglySorted_inv in Hsorted. destruct Hsorted as [_ Hall].
      rewrite Forall_forall in Hall. exact (Hall r Hin).
  - intros Hnone. unfold _create_comparison_file.
    rewrite Hperiod. cbn [bind]. now rewrite Hnone.
Qed.


Lemma unique_In (l : list string) (q : string) :
  In q (unique String.eqb l) <-> In q l.
Proof.
  induction l as [|a l IH]; simpl; [tauto|].
  rewrite filter_In, IH, negb_true_iff, String.eqb_neq.
  destruct (string_dec a q); tauto.
Qed.

Lemma find_key (g : string -> float * float) (keys : list string) (q : string) :
  find (fun m => String.eqb (fst m) q) (map (fun k => (k, g k)) keys)
  = if in_dec string_dec q keys then Some (q, g q) else None.
Proof.
  induction keys as [|k keys IH]; simpl; [reflexivity|].
  destruct (String.eqb_spec k q) as [-> | Hne].
  - now destruct (string_dec q q).
  - rewrite IH. destruct (string_dec k q); [contradiction|].
    now destruct (in_dec string_dec q keys).
Qed.

Lemma group_nil_iff (baseline : list bin) (q : string) :
  filter (fun b => String.eqb (quadkey b) q) baseline = []
  <-> ~ In q (map quadkey baseline).
Proof.
  induction baseline as [|b baseline IH]; simpl; [tauto|].
  destruct (String.eqb_spec (quadkey b) q) as [Heq | Hne].
  - split; [discriminate|]. intros H. exfalso. apply H. now left.
  - rewrite IH. tauto.
Qed.

(** The baseline columns of a merged row: the means over the baseline rows
    of its quadkey, NaN when the baseline has no such row. *)
Lemma merge_row_baseline (baseline : list bin) (r : bin) :
  let group := filter (fun b => String.eqb (quadkey b) (quadkey r)) baseline in
  let m := merge_row (baseline_metrics mean baseline) r in
  (m_baseline_d_kbps m, m_baseline_u_kbps m)
  = match group with
    | [] => (nan, nan)
    | _ => (mean (map avg_d_kbps_mean group), mean (map avg_u_kbps_mean group))
    end.
Proof.
  intros group m. subst m. unfold merge_row, baseline_metrics.
  rewrite (find_key
             (fun q => let group := filter (fun r => String.eqb (quadkey r) q) baseline in
                       (mean (map avg_d_kbps_mean group), mean (map avg_u_kbps_mean group)))).
  pose proof (group_nil_iff baseline (quadkey r)) as Hnil.
  cbv zeta. fold group. fold group in Hnil. clearbody group.
  destruct (in_dec string_dec (quadkey r) _) as [Hin | Hout].
  - apply (Permutation_in _ (sort_values_perm _ _ _)) in Hin.
    rewrite unique_In in Hin. cbn [snd m_baseline_d_kbps m_baseline_u_kbps].
    destruct group; [| reflexivity]. exfalso. now apply (proj1 Hnil).
  - assert (Hno : ~ In (quadkey r) (map quadkey baseline)).
    { intros Hin. apply Hout.
      apply (Permutation_in _ (Permutation_sym (sort_values_perm _ _ _))).
      now apply unique_In. }
    apply Hnil in Hno. now rewrite Hno.
Qed.

Lemma comparison_frame_In (df baseline : list bin) (r : comparison_row) :
  In r (comparison_frame mean df baseline) ->
  exists b prev, In b df
    /\ r = add_changes (merge_row (baseline_metrics mean baseline) b) prev.
Proof.
  intros Hin. apply In_nth_error in Hin. destruct Hin as [i Hi].
  destruct (comparison_frame_nth df baseline i Hi) as (m & Hm & ->).
  apply nth_error_In in Hm. unfold sorted_comparison in Hm.
  apply (Permutation_in _ (sort_values_perm _ _ _)) in Hm.
  unfold merge_baseline in Hm. apply in_map_iff in Hm.
  destruct Hm as (b & <- & Hb). eauto.
Qed.

Lemma percent_change_nan_reference (value reference : float) :
  isna reference = true -> isna (percent_change value reference) = true.
Proof.
  unfold isna. intros H. apply is_nan_eq in H. subst reference.
  now rewrite percent_change_nan.
Qed.

(** C3, as the code has it.  On a frame that is not empty the function
    raises nothing.  In each row of the comparison sheet the two percent
    changes are [(value - baseline) / baseline * 100] in float64, on the
    baseline columns of the row; these are the means over the baseline rows
    of the quadkey, NaN when there is none.  A null baseline gives a null
    change.  A zero baseline gives a null change when the value is zero or
    null, and an infinite one otherwise. *)
Theorem pct_change_from_baseline (df : list bin) :
  (df <> [] -> exists out, _create_comparison_file mean df = Ok out)
  /\ forall wb,
       _create_comparison_file mean df = Ok (Some wb) ->
       forall r, In r (List.concat (map snd wb)) ->
         let d := avg_d_kbps_mean (base r) in
         let u := avg_u_kbps_mean (base r) in
         d_kbps_pct_change r = percent_change d (baseline_d_kbps r)
         /\ u_kbps_pct_change r = percent_change u (baseline_u_kbps r)
         /\ (isna (baseline_d_kbps r) = true -> isna (d_kbps_pct_change r) = true)
         /\ (isna (baseline_u_kbps r) = true -> isna (u_kbps_pct_change r) = true)
         /\ (is_zero (baseline_d_kbps r) = true ->
               if is_nan d || is_zero d
               then isna (d_kbps_pct_change r) = true
               else is_infinity (d_kbps_pct_change r) = true)
         /\ (is_zero (baseline_u_kbps r) = true ->
               if is_nan u || is_zero u
               then isna (u_kbps_pct_change r) = true
               else is_infinity (u_kbps_pct_change r) = true)
         /\ forall baseline_year baseline_quarter,
              baseline_period df = Ok (baseline_year, baseline_quarter) ->
              let group :=
                filter (fun b => String.eqb (quadkey b) (quadkey (base r)))
                       (baseline_rows df baseline_year baseline_quarter) in
              (baseline_d_kbps r, baseline_u_kbps r)
              = match group with
                | [] => (nan, nan)
                | _ => (mean (map avg_d_kbps_mean group),
                        mean (map avg_u_kbps_mean group))
                end.
Proof.
  split.
  - intros Hne. destruct (baseline_period_nonempty Hne) as [[y q] Hp].
    unfold _create_comparison_file. rewrite Hp. cbn [bind].
    destruct (Excel.len _ =? 0); eauto.
  - intros wb Hwb r Hin d u.
    destruct (create_comparison_file_inv df Hwb) as (y & q & Hp & _ & Hrows).
    rewrite Hrows in Hin.
    destruct (comparison_frame_In _ _ _ Hin) as (b & prev & Hb & ->).
    subst d u.
    cbn [d_kbps_pct_change u_kbps_pct_change baseline_d_kbps baseline_u_kbps
         base add_changes].
    assert (Hd : m_d_kbps_pct_change (merge_row (baseline_metrics mean (baseline_rows df y q)) b)
                 = percent_change (avg_d_kbps_mean b)
                     (m_baseline_d_kbps (merge_row (baseline_metrics mean (baseline_rows df y q)) b))).
    { unfold merge_row. now destruct (find _ _) as [[k [bd bu]]|]. }
    assert (Hu : m_u_kbps_pct_change (merge_row (baseline_metrics mean (baseline_rows df y q)) b)
                 = percent_change (avg_u_kbps_mean b)
                     (m_baseline_u_kbps (merge_row (baseline_metrics mean (baseline_rows df y q)) b))).
    { unfold merge_row. now destruct (find _ _) as [[k [bd bu]]|]. }
    assert (Hbin : m_bin (merge_row (baseline_metrics mean (baseline_rows df y q)) b) = b).
    { unfold merge_row. now destruct (find _ _) as [[k [bd bu]]|]. }
    rewrite Hd, Hu, Hbin.
    repeat split.
    + apply percent_change_nan_reference.
    + apply percent_change_nan_reference.
    + apply percent_change_zero_reference.
    + apply percent_change_zero_reference.
    + intros y' q' Hp'. rewrite Hp in Hp'. inversion Hp'; subst y' q'.
      apply merge_row_baseline.
Qed.

End ComparisonFacts.

Section ComparisonWitnesses.
Import Comparison.


Lemma year_transition_flag_witness :
  exists wb,
    _create_comparison_file mean_skipna year_transition_fixture = Ok (Some wb)
    /\ forall i r, nth_error (List.concat (map snd wb)) i = Some r ->
         (is_year_transition r = true <->
          quarter (base r) = Some 1
          /\ exists p, spec_previous (List.concat (map snd wb)) i = Some p
                       /\ quarter (base p) = Some 4
                       /\ year (base p) <> year (base r)).
Proof.
  eexists. split; [vm_compute; reflexivity|].
  intros i r Hr.
  refine (proj1 (proj1 (year_transition_flag mean_skipna)
                   year_transition_fixture _ _ i r Hr)).
  vm_compute. reflexivity.
Defined.

Lemma pct_change_from_baseline_witness :
  zero_baseline_fixture <> []
  /\ exists wb,
       _create_comparison_file mean_skipna zero_baseline_fixture = Ok (Some wb)
       /\ forall r, In r (List.concat (map snd wb)) ->
            d_kbps_pct_change r
            = percent_change (avg_d_kbps_mean (base r)) (baseline_d_kbps r).
Proof.
  split; [discriminate|].
  eexists. split; [vm_compute; reflexivity|].
  intros r Hin.
  refine (proj1 (proj2 (pct_change_from_baseline mean_skipna zero_baseline_fixture)
                   _ _ r Hin)).
  vm_compute. reflexivity.
Defined.

(** C3 as stated fails: with a baseline of 0 and a value of 100 the change
    is neither null nor finite. *)
Lemma zero_baseline_gives_infinity :
  match _create_comparison_file mean_skipna zero_baseline_fixture with
  | Ok (Some [(_, [r1; r2])]) =>
      is_zero (baseline_d_kbps r2) = true
      /\ avg_d_kbps_mean (base r2) = 100%float
      /\ isna (d_kbps_pct_change r2) = false
      /\ d_kbps_pct_change r2 = infinity
  | _ => False
  end.
Proof. vm_compute. repeat split. Qed.

End ComparisonWitnesses.

Lemma no_baseline_rows_no_comparison_witness :
  Comparison.baseline_period Comparison.missing_quarter_fixture = Ok (Some 2024, None)
  /\ Comparison.baseline_rows Comparison.missing_quarter_fixture (Some 2024) None = []
  /\ Comparison._create_comparison_file Comparison.mean_skipna
       Comparison.missing_quarter_fixture = Ok None.
Proof.
  split; [reflexivity|]. split; [reflexivity|].
  apply (proj2 (proj2 (no_baseline_rows_no_comparison Comparison.mean_skipna
                         Comparison.missing_quarter_fixture eq_refl))).
  reflexivity.
Defined.

(** C6 as stated fails.  A frame whose only row has no quarter has the
    baseline period (2024, missing) and no row that belongs to it: the
    function returns [None], a normal return, and raises nothing. *)
Lemma no_baseline_rows_returns_None :
  Comparison.baseline_period Comparison.missing_quarter_fixture = Ok (Some 2024, None)
  /\ Comparison.baseline_rows Comparison.missing_quarter_fixture (Some 2024) None = []
  /\ match Comparison._create_comparison_file Comparison.mean_skipna
            Comparison.missing_quarter_fixture with
     | Ok None => True
     | Ok (Some _) => False
     | Raise _ => False
     end.
Proof. vm_compute. repeat split. Qed.

(** ** The aggregation to bins *)

Section ApplyFacts.
Context {A B : Type} (f : A -> result B).

Lemma apply_Ok_iff (l : list A) : forall l',
  apply f l = Ok l' <-> Forall2 (fun a b => f a = Ok b) l l'.
Proof.
  induction l as [|a l IH]; intros l'; cbn [apply].
  - split; intros H; [inversion H; constructor | inversion H; reflexivity].
  - destruct (f a) as [b|e] eqn:Hfa; cbn [bind].
    + destruct (apply f l) as [bs|e] eqn:Hl; cbn [bind].
      * split; intros H.
        -- inversion H. constructor; [assumption | now apply IH].
        -- inversion H as [|a0 b0 l0 bs0 Hb Hbs]; subst.
           apply IH in Hbs. congruence.
      * split; [discriminate|]. intros H.
        inversion H as [|a0 b0 l0 bs0 Hb Hbs]; subst.
        apply IH in Hbs. discriminate.
    + split; [discriminate|]. intros H. inversion H; congruence.
Qed.

Lemma apply_Raise_inv (l : list A) (e : exception) :
  apply f l = Raise e -> exists a, In a l /\ f a = Raise e.
Proof.
  induction l as [|a l IH]; cbn [apply]; [discriminate|].
  destruct (f a) as [b|e'] eqn:Hfa; cbn [bind].
  - destruct (apply f l) as [bs|e'] eqn:Hl; cbn [bind]; [discriminate|].
    intros H. inversion H; subst.
    destruct (IH eq_refl) as (a0 & Hin & Ha0). exists a0. split; [now right | assumption].
  - intros H. inversion H; subst. exists a. split; [now left | assumption].
Qed.

Lemma apply_total (l : list A) :
  (forall a, In a l -> exists b, f a = Ok b) -> exists l', apply f l = Ok l'.
Proof.
  intros H. destruct (apply f l) as [l'|e] eqn:Hl; [eauto|].
  destruct (apply_Raise_inv l Hl) as (a & Hin & Ha).
  destruct (H a Hin) as [b Hb]. congruence.
Qed.

End ApplyFacts.

Section Int64Facts.
Import Aggregate.

Lemma wrap64_small (z : Z) : - 2 ^ 63 <= z < 2 ^ 63 -> wrap64 z = z.
Proof. intros H. unfold wrap64. rewrite Z.mod_small; lia. Qed.

Lemma wrap64_add (a b : Z) : wrap64 (wrap64 a + b) = wrap64 (a + b).
Proof.
  unfold wrap64. f_equal.
  replace ((a + 2 ^ 63) mod 2 ^ 64 - 2 ^ 63 + b + 2 ^ 63)
    with ((a + 2 ^ 63) mod 2 ^ 64 + b) by lia.
  rewrite Zplus_mod_idemp_l. f_equal. lia.
Qed.

Lemma list_sum_cons (a : Z) (l : list Z) : list_sum (a :: l) = a + list_sum l.
Proof. reflexivity. Qed.

Lemma list_sum_map_add {A : Type} (f g : A -> Z) (l : list A) :
  list_sum (map (fun a => f a + g a) l) = list_sum (map f l) + list_sum (map g l).
Proof. induction l as [|a l IH]; simpl; lia. Qed.

(** Summing wrapped partial sums wraps to the sum. *)
Lemma sum64_wrapped (l : list Z) : sum64 (map wrap64 l) = sum64 l.
Proof.
  unfold sum64. induction l as [|a l IH]; [reflexivity|].
  rewrite map_cons, !list_sum_cons.
  rewrite wrap64_add, Z.add_comm, <- wrap64_add, IH, wrap64_add.
  f_equal. lia.
Qed.

Lemma list_sum_perm (l l' : list Z) : Permutation l l' -> list_sum l = list_sum l'.
Proof.
  induction 1; rewrite ?list_sum_cons; lia.
Qed.

Lemma sum64_perm (l l' : list Z) : Permutation l l' -> sum64 l = sum64 l'.
Proof. intros H. unfold sum64. now rewrite (list_sum_perm H). Qed.

Lemma filter_perm {A : Type} (p : A -> bool) (l l' : list A) :
  Permutation l l' -> Permutation (filter p l) (filter p l').
Proof.
  induction 1 as [| a l l' _ IH | a b l | l1 l2 l3 _ IH1 _ IH2]; cbn [filter].
  - constructor.
  - destruct (p a); [now constructor | assumption].
  - destruct (p a), (p b); try reflexivity. apply perm_swap.
  - now transitivity (filter p l2).
Qed.

End Int64Facts.

Section GroupFacts.
Import Aggregate.
Context {A K : Type} (key : A -> K) (eqb : K -> K -> bool).
Hypothesis eqb_eq : forall a b, eqb a b = true <-> a = b.

Lemma unique_In_iff (l : list K) (k : K) : In k (unique eqb l) <-> In k l.
Proof.
  induction l as [|a l IH]; simpl; [tauto|].
  rewrite filter_In, IH, negb_true_iff.
  destruct (eqb a k) eqn:Hak.
  - apply eqb_eq in Hak. subst. intuition congruence.
  - assert (a <> k) by (intros ->; rewrite (proj2 (eqb_eq k k) eq_refl) in Hak; discriminate).
    tauto.
Qed.

Lemma unique_NoDup (l : list K) : NoDup (unique eqb l).
Proof.
  induction l as [|a l IH]; simpl; constructor.
  - rewrite filter_In, negb_true_iff. intros [_ H].
    rewrite (proj2 (eqb_eq a a) eq_refl) in H. discriminate.
  - now apply NoDup_filter.
Qed.

(** Exactly one key of a duplicate-free list is the key of a row. *)
Lemma no_group (ks : list K) (a : K) (v : Z) :
  ~ In a ks -> list_sum (map (fun k => if eqb a k then v else 0) ks) = 0.
Proof.
  induction ks as [|k ks IH]; intros Hout; [reflexivity|].
  rewrite map_cons, list_sum_cons, IH by (intros H; apply Hout; now right).
  destruct (eqb a k) eqn:Hak; [| reflexivity].
  apply eqb_eq in Hak. subst. exfalso. apply Hout. now left.
Qed.

Lemma one_group (ks : list K) (a : K) (v : Z) :
  NoDup ks -> In a ks ->
  list_sum (map (fun k => if eqb a k then v else 0) ks) = v.
Proof.
  induction 1 as [|k ks Hk Hnd IH]; intros Hin; [contradiction|].
  rewrite map_cons, list_sum_cons.
  destruct (eqb a k) eqn:Hak.
  - apply eqb_eq in Hak. subst k. rewrite no_group by assumption. lia.
  - destruct Hin as [Heq | Hin].
    + subst k. rewrite (proj2 (eqb_eq a a) eq_refl) in Hak. discriminate.
    + rewrite IH by assumption. lia.
Qed.

(** Every row is in the group of its key and in no other: the sums of the
    groups add up to the sum of the frame. *)
Lemma group_sums (f : A -> Z) (ks : list K) (rows : list A) :
  NoDup ks ->
  (forall r, In r rows -> In (key r) ks) ->
  list_sum (map (fun k => list_sum (map f (filter (fun r => eqb (key r) k) rows))) ks)
  = list_sum (map f rows).
Proof.
  intros Hnd. induction rows as [|r rows IH]; intros Hin.
  - cbn [filter map]. clear. induction ks as [|k ks IHk]; [reflexivity|].
    rewrite map_cons, list_sum_cons, IHk. reflexivity.
  - rewrite (map_ext _ (fun k => (if eqb (key r) k then f r else 0)
                       + list_sum (map f (filter (fun r => eqb (key r) k) rows)))).
    + rewrite list_sum_map_add, IH, one_group.
      * reflexivity.
      * assumption.
      * apply Hin. now left.
      * intros r' Hr'. apply Hin. now right.
    + intros k. cbn [filter]. now destruct (eqb (key r) k).
Qed.

Lemma group_sum_bounds (f : A -> Z) (p : A -> bool) (rows : list A) :
  (forall r, In r rows -> 0 <= f r) ->
  0 <= list_sum (map f (filter p rows)) <= list_sum (map f rows).
Proof.
  induction rows as [|r rows IH]; intros Hpos; [simpl; lia|].
  assert (0 <= f r) by (apply Hpos; now left).
  assert (Hrest : forall r', In r' rows -> 0 <= f r') by (intros; apply Hpos; now right).
  specialize (IH Hrest). cbn [filter]. rewrite map_cons, list_sum_cons.
  destruct (p r); [rewrite map_cons, list_sum_cons|]; lia.
Qed.

End GroupFacts.

Section AggregateFacts.
Import Aggregate.
Context {F : Type} {ops : PyFloat F}.
Variable F_eqb : F -> F -> bool.
Variable F_compare : F -> F -> comparison.
Variables agg_mean agg_min agg_max agg_std : list F -> F.

Local Abbreviation aggregate :=
  (_aggregate_data F_eqb F_compare agg_mean agg_min agg_max agg_std).

Lemma decode_latlon_outcome (r : record) :
  (exists r', decode_latlon r = Ok r') \/ decode_latlon r = Raise ValueError.
Proof.
  unfold decode_latlon.
  pose proof (decode_quadkey_outcome (F := F) (quadkey r)) as H.
  destruct (forallb _ _).
  - destruct H as [latlon ->]. cbn [bind]. eauto.
  - rewrite H. now right.
Qed.

Lemma decode_latlon_only_ValueError (r : record) (e : exception) :
  decode_latlon r = Raise e -> e = ValueError.
Proof.
  destruct (decode_latlon_outcome r) as [[r' H] | H]; rewrite H; congruence.
Qed.

Lemma decode_latlon_decoded (r r' : @record F) :
  decode_latlon r = Ok r' -> decoded r r'.
Proof.
  unfold decode_latlon. destruct (Quadkey._decode_quadkey_to_latlon (quadkey r))
    as [latlon|e]; cbn [bind]; [| discriminate].
  intros H. inversion H. right. eauto.
Qed.

(** What follows the decoding: the aggregation, checked, and the log
    line. *)
Local Abbreviation grouped_and_logged cols rows :=
  (aggregated <- agg_checked F_eqb F_compare agg_mean agg_min agg_max agg_std
                   cols rows ;;
   _ <- log_ratio (100 * Excel.len aggregated) (Excel.len rows) ;;
   Ok aggregated).

Lemma grouped_and_logged_measured (cols : columns) (rows : list record) :
  has_measurement cols = true ->
  grouped_and_logged cols rows
  = (_ <- log_ratio (100 * Excel.len (groupby_agg F_eqb F_compare agg_mean agg_min
                                       agg_max agg_std cols rows))
                    (Excel.len rows) ;;
     Ok (groupby_agg F_eqb F_compare agg_mean agg_min agg_max agg_std cols rows)).
Proof. intros H. unfold agg_checked. rewrite H. reflexivity. Qed.

(** The frame that is grouped: the rows, with the decoded coordinates when
    the frame came without them. *)
Lemma aggregate_rows (df : DataFrame) :
  (exists rows,
     Forall2 decoded (df_rows df) rows
     /\ aggregate df = grouped_and_logged (df_columns df) rows)
  \/ (df_rows df <> [] /\ aggregate df = Raise ValueError
      /\ (negb (has_latitude (df_columns df)) || negb (has_longitude (df_columns df)) = true)
      /\ exists r, In r (df_rows df)
                   /\ forallb Quadkey.is_decimal_digit (Quadkey.chars (quadkey r)) = false).
Proof.
  unfold _aggregate_data. cbv zeta.
  destruct (negb (has_latitude (df_columns df)) || negb (has_longitude (df_columns df))).
  - destruct (apply decode_latlon (df_rows df)) as [rows|e] eqn:Hap.
    + left. exists rows. split; [| reflexivity].
      apply apply_Ok_iff in Hap.
      eapply Forall2_impl; [| exact Hap]. apply decode_latlon_decoded.
    + right. destruct (apply_Raise_inv _ _ Hap) as (r & Hin & Hr).
      rewrite (decode_latlon_only_ValueError _ Hr). cbn [bind].
      split; [| split; [reflexivity | split; [reflexivity|]]].
      * intros Hnil. rewrite Hnil in Hin. contradiction.
      * exists r. split; [assumption|].
        unfold decode_latlon in Hr.
        pose proof (decode_quadkey_outcome (F := F) (quadkey r)) as H.
        destruct (forallb _ _); [| reflexivity].
        destruct H as [latlon H]. rewrite H in Hr. discriminate.
  - left. exists (df_rows df). split; [| reflexivity].
    clear. induction (df_rows df); constructor; [now left | assumption].
Qed.

Lemma Forall2_length_eq {A B : Type} (R : A -> B -> Prop) (l : list A) (l' : list B) :
  Forall2 R l l' -> List.length l = List.length l'.
Proof. induction 1; simpl; congruence. Qed.

Lemma tests_measured (cols : columns) :
  has_tests cols = true -> has_measurement cols = true.
Proof.
  intros H. unfold has_measurement. rewrite H.
  now rewrite orb_true_r.
Qed.

(** After the decoding there is no [ZeroDivisionError] on a frame with
    rows. *)
Lemma grouped_and_logged_rows (cols : columns) (rows : list record) :
  rows <> [] -> grouped_and_logged cols rows <> Raise ZeroDivisionError.
Proof.
  intros Hne. unfold agg_checked.
  destruct (has_measurement cols); cbn [bind]; [| discriminate].
  unfold log_ratio, Excel.len.
  destruct (Z.eqb_spec (Z.of_nat (List.length rows)) 0) as [H0 | _];
    cbn [bind]; [| discriminate].
  destruct rows; [contradiction | simpl in H0; lia].
Qed.

(** C7, as the code has it.  The code has no check for an empty input and
    no error of its own for it.  On a frame with no rows the aggregation
    never returns the empty table: with a measurement column the table is
    built and the ratio of the log line divides by the number of rows
    ([ZeroDivisionError]); with none, [agg] raises on the empty [agg_dict]
    ([ValueError]).  On a frame with rows there is no
    [ZeroDivisionError]. *)
Theorem aggregate_empty_input_raises :
  (forall cols : columns,
     aggregate {| df_columns := cols; df_rows := [] |}
     = if has_measurement cols then Raise ZeroDivisionError else Raise ValueError)
  /\ (forall df : DataFrame,
        df_rows df <> [] -> aggregate df <> Raise ZeroDivisionError).
Proof.
  split.
  - intros cols. unfold _aggregate_data, agg_checked.
    cbn [df_columns df_rows apply].
    destruct (negb (has_latitude cols) || negb (has_longitude cols));
      cbn [bind]; now destruct (has_measurement cols).
  - intros df Hne.
    destruct (aggregate_rows df) as [(rows & Hrows & ->) | (_ & -> & _)];
      [| discriminate].
    apply grouped_and_logged_rows.
    apply Forall2_length_eq in Hrows.
    intros Hnil. rewrite Hnil in Hrows.
    destruct (df_rows df); [contradiction | discriminate].
Qed.

Lemma apply_perm {A B : Type} (f : A -> result B) (l l' : list A) (bs : list B) :
  Permutation l l' -> apply f l = Ok bs ->
  exists bs', apply f l' = Ok bs' /\ Permutation bs bs'.
Proof.
  intros Hp Hok. apply apply_Ok_iff in Hok.
  destruct (Permutation_Forall2 Hp Hok) as (bs' & Hbs & Hf).
  exists bs'. split; [now apply apply_Ok_iff | assumption].
Qed.

(** What holds of the groups of two frames with the same rows holds of the
    results of the aggregation; the exceptions are the same. *)
Lemma aggregate_perm_lift (Rel : list aggregated_row -> list aggregated_row -> Prop)
    (cols : columns) :
  (forall l l' : list record, Permutation l l' ->
     Rel (groupby_agg F_eqb F_compare agg_mean agg_min agg_max agg_std cols l)
         (groupby_agg F_eqb F_compare agg_mean agg_min agg_max agg_std cols l')) ->
  forall rows rows' : list record, Permutation rows rows' ->
  match aggregate {| df_columns := cols; df_rows := rows |},
        aggregate {| df_columns := cols; df_rows := rows' |} with
  | Ok out, Ok out' => Rel out out'
  | Raise e, Raise e' => e = e'
  | _, _ => False
  end.
Proof.
  intros Hrel rows rows' Hp.
  assert (Hgroups : forall l l' : list record, Permutation l l' ->
    match grouped_and_logged cols l, grouped_and_logged cols l' with
    | Ok out, Ok out' => Rel out out'
    | Raise e, Raise e' => e = e'
    | _, _ => False
    end).
  { intros l l' Hl. unfold agg_checked.
    destruct (has_measurement cols); cbn [bind]; [| reflexivity].
    unfold log_ratio, Excel.len.
    rewrite <- (Permutation_length Hl).
    destruct (Z.of_nat (List.length l) =? 0); cbn [bind]; [reflexivity|].
    now apply Hrel. }
  unfold _aggregate_data. cbn [df_columns df_rows].
  destruct (negb (has_latitude cols) || negb (has_longitude cols)).
  - destruct (apply decode_latlon rows) as [l|e] eqn:Hl.
    + destruct (apply_perm decode_latlon Hp Hl) as (l' & -> & Hll').
      cbn [bind]. now apply Hgroups.
    + destruct (apply decode_latlon rows') as [l'|e'] eqn:Hl'.
      * destruct (apply_perm decode_latlon (Permutation_sym Hp) Hl') as (l & Hl2 & _).
        congruence.
      * cbn [bind].
        destruct (apply_Raise_inv _ _ Hl) as (r & _ & Hr).
        destruct (apply_Raise_inv _ _ Hl') as (r' & _ & Hr').
        rewrite (decode_latlon_only_ValueError _ Hr).
        now rewrite (decode_latlon_only_ValueError _ Hr').
  - cbn [bind]. now apply Hgroups.
Qed.

Hypothesis F_eqb_eq : forall a b : F, F_eqb a b = true <-> a = b.

Lemma option_eqb_eq {A : Type} (eqb : A -> A -> bool) :
  (forall a b, eqb a b = true <-> a = b) ->
  forall a b, option_eqb eqb a b = true <-> a = b.
Proof.
  intros H [x|] [y|]; simpl; try (split; congruence).
  rewrite H. split; congruence.
Qed.

Lemma key_eqb_eq (a b : group_key) : key_eqb F_eqb a b = true <-> a = b.
Proof.
  destruct a, b. unfold key_eqb. cbn.
  rewrite !andb_true_iff, !String.eqb_eq, !F_eqb_eq.
  rewrite !(option_eqb_eq _ Z.eqb_eq).
  rewrite !(option_eqb_eq _ (option_eqb_eq _ String.eqb_eq)).
  split.
  - intros [[[[[[[[-> ->] ->] ->] ->] ->] ->] ->] ->]. reflexivity.
  - intros H. inversion H. repeat split.
Qed.

Local Abbreviation keys_of cols rows :=
  (sort_values (key_compare F_compare) (fun k => k)
     (unique (key_eqb F_eqb) (map (key_of cols) rows))).

Lemma keys_NoDup (cols : columns) (rows : list record) : NoDup (keys_of cols rows).
Proof.
  eapply Permutation_NoDup; [symmetry; apply sort_values_perm|].
  apply unique_NoDup. apply key_eqb_eq.
Qed.

Lemma keys_In (cols : columns) (rows : list record) (k : group_key) :
  In k (keys_of cols rows) <-> In k (map (key_of cols) rows).
Proof.
  split; intros H.
  - apply (Permutation_in _ (sort_values_perm _ _ _)) in H.
    exact (proj1 (unique_In_iff _ key_eqb_eq _ _) H).
  - apply (Permutation_in _ (Permutation_sym (sort_values_perm _ _ _))).
    exact (proj2 (unique_In_iff _ key_eqb_eq _ _) H).
Qed.

Lemma decoded_counts (rows rows' : list (@record F)) :
  Forall2 decoded rows rows' ->
  map tests rows' = map tests rows /\ map devices rows' = map devices rows.
Proof.
  induction 1 as [|r r' rows rows' Hr _ [IHt IHd]]; [split; reflexivity|].
  cbn [map]. rewrite IHt, IHd.
  destruct Hr as [-> | [latlon ->]]; split; reflexivity.
Qed.

(** The sums of a count column over the groups, wrapped or not. *)
Lemma count_column_total (col : @record F -> Z) (cols : columns) (rows : list record) :
  let sums := map (fun k => sum64 (map col (members F_eqb cols k rows)))
                  (keys_of cols rows) in
  sum64 sums = sum64 (map col rows)
  /\ ((forall r, In r rows -> 0 <= col r) ->
      list_sum (map col rows) < 2 ^ 63 ->
      list_sum sums = list_sum (map col rows)).
Proof.
  intros sums.
  assert (Hparts :
    list_sum (map (fun k => list_sum (map col (members F_eqb cols k rows)))
                  (keys_of cols rows))
    = list_sum (map col rows)).
  { apply (group_sums (key_of cols) _ key_eqb_eq).
    - apply keys_NoDup.
    - intros r Hr. apply keys_In. now apply in_map. }
  split.
  - subst sums. unfold sum64 at 2.
    rewrite <- (map_map (fun k => list_sum (map col (members F_eqb cols k rows))) wrap64).
    rewrite sum64_wrapped. unfold sum64. now rewrite Hparts.
  - intros Hpos Hmax. subst sums. rewrite <- Hparts.
    f_equal. apply map_ext. intros k. unfold sum64. apply wrap64_small.
    pose proof (group_sum_bounds col (fun r => key_eqb F_eqb (key_of cols r) k) rows Hpos).
    unfold members. lia.
Qed.

(** C10.  On a frame with rows and with the count columns, whose quadkeys
    decode when the coordinates are to be computed, the aggregation returns,
    and the sum of [tests_sum] over its rows is the sum of [tests] over the
    input rows, as int64 sums; the same holds for [devices_sum] and
    [devices].  When the counts are not negative and their total is below
    2^63 nothing wraps and the sums are equal as integers. *)
Theorem aggregate_preserves_count_totals (df : DataFrame) :
  df_rows df <> [] ->
  has_tests (df_columns df) = true ->
  has_devices (df_columns df) = true ->
  (negb (has_latitude (df_columns df)) || negb (has_longitude (df_columns df)) = true ->
   forall r, In r (df_rows df) ->
     forallb Quadkey.is_decimal_digit (Quadkey.chars (quadkey r)) = true) ->
  exists out tests_sums devices_sums,
    aggregate df = Ok out
    /\ map tests_sum out = map Some tests_sums
    /\ map devices_sum out = map Some devices_sums
    /\ sum64 tests_sums = sum64 (map tests (df_rows df))
    /\ sum64 devices_sums = sum64 (map devices (df_rows df))
    /\ ((forall r, In r (df_rows df) -> 0 <= tests r) ->
        list_sum (map tests (df_rows df)) < 2 ^ 63 ->
        list_sum tests_sums = list_sum (map tests (df_rows df)))
    /\ ((forall r, In r (df_rows df) -> 0 <= devices r) ->
        list_sum (map devices (df_rows df)) < 2 ^ 63 ->
        list_sum devices_sums = list_sum (map devices (df_rows df))).
Proof.
  intros Hne Htests Hdevices Hquadkeys.
  destruct (aggregate_rows df) as [(rows & Hrows & Hagg) | (_ & _ & Hcols & r & Hin & Hbad)].
  2: { rewrite (Hquadkeys Hcols r Hin) in Hbad. discriminate. }
  rewrite grouped_and_logged_measured in Hagg by now apply tests_measured.
  destruct (decoded_counts Hrows) as [Ht Hd].
  assert (Hlen : (Excel.len rows =? 0) = false).
  { apply Forall2_length_eq in Hrows. apply Z.eqb_neq. unfold Excel.len.
    destruct (df_rows df); [contradiction | simpl in Hrows; lia]. }
  unfold log_ratio in Hagg. rewrite Hlen in Hagg. cbn [bind] in Hagg.
  destruct (count_column_total tests (df_columns df) rows) as [Ht64 HtZ].
  destruct (count_column_total devices (df_columns df) rows) as [Hd64 HdZ].
  rewrite Ht in Ht64, HtZ. rewrite Hd in Hd64, HdZ.
  eexists. eexists. eexists.
  split; [exact Hagg|].
  split; [| split; [| split; [exact Ht64 | split; [exact Hd64 | split]]]].
  - unfold groupby_agg. rewrite !map_map. apply map_ext. intros k.
    cbn [tests_sum agg]. now rewrite Htests.
  - unfold groupby_agg. rewrite !map_map. apply map_ext. intros k.
    cbn [devices_sum agg]. now rewrite Hdevices.
  - intros Hpos. apply HtZ. intros r Hr.
    assert (Hin : In (tests r) (map tests rows)) by now apply in_map.
    rewrite Ht in Hin. apply in_map_iff in Hin. destruct Hin as (r0 & <- & Hr0).
    now apply Hpos.
  - intros Hpos. apply HdZ. intros r Hr.
    assert (Hin : In (devices r) (map devices rows)) by now apply in_map.
    rewrite Hd in Hin. apply in_map_iff in Hin. destruct Hin as (r0 & <- & Hr0).
    now apply Hpos.
Qed.

Hypothesis agg_mean_perm : forall l l', Permutation l l' -> agg_mean l = agg_mean l'.
Hypothesis agg_min_perm : forall l l', Permutation l l' -> agg_min l = agg_min l'.
Hypothesis agg_max_perm : forall l l', Permutation l l' -> agg_max l = agg_max l'.
Hypothesis agg_std_perm : forall l l', Permutation l l' -> agg_std l = agg_std l'.

Lemma agg_perm (cols : columns) (k : group_key) (g g' : list record) :
  Permutation g g' ->
  agg agg_mean agg_min agg_max agg_std cols k g
  = agg agg_mean agg_min agg_max agg_std cols k g'.
Proof.
  intros Hp. unfold agg, stats4, stats3. cbv zeta.
  rewrite (agg_mean_perm (Permutation_map avg_d_kbps Hp)),
          (agg_min_perm (Permutation_map avg_d_kbps Hp)),
          (agg_max_perm (Permutation_map avg_d_kbps Hp)),
          (agg_std_perm (Permutation_map avg_d_kbps Hp)),
          (agg_mean_perm (Permutation_map avg_u_kbps Hp)),
          (agg_min_perm (Permutation_map avg_u_kbps Hp)),
          (agg_max_perm (Permutation_map avg_u_kbps Hp)),
          (agg_std_perm (Permutation_map avg_u_kbps Hp)),
          (agg_mean_perm (Permutation_map avg_lat_ms Hp)),
          (agg_min_perm (Permutation_map avg_lat_ms Hp)),
          (agg_max_perm (Permutation_map avg_lat_ms Hp)),
          (agg_mean_perm (Permutation_map avg_d_mbps Hp)),
          (agg_min_perm (Permutation_map avg_d_mbps Hp)),
          (agg_max_perm (Permutation_map avg_d_mbps Hp)),
          (agg_mean_perm (Permutation_map avg_u_mbps Hp)),
          (agg_min_perm (Permutation_map avg_u_mbps Hp)),
          (agg_max_perm (Permutation_map avg_u_mbps Hp)),
          (sum64_perm (Permutation_map tests Hp)),
          (sum64_perm (Permutation_map devices Hp)).
  reflexivity.
Qed.

(** The groups of a frame do not depend on the order of its rows. *)
Lemma groupby_agg_perm (cols : columns) (rows rows' : list record) :
  Permutation rows rows' ->
  Permutation
    (groupby_agg F_eqb F_compare agg_mean agg_min agg_max agg_std cols rows)
    (groupby_agg F_eqb F_compare agg_mean agg_min agg_max agg_std cols rows').
Proof.
  intros Hp. unfold groupby_agg.
  rewrite (map_ext
             (fun k => agg agg_mean agg_min agg_max agg_std cols k (members F_eqb cols k rows))
             (fun k => agg agg_mean agg_min agg_max agg_std cols k (members F_eqb cols k rows'))).
  - apply Permutation_map.
    rewrite (sort_values_perm _ _ (unique _ (map (key_of cols) rows))).
    rewrite (sort_values_perm _ _ (unique _ (map (key_of cols) rows'))).
    apply NoDup_Permutation; try (apply unique_NoDup; apply key_eqb_eq).
    intros k. rewrite !(unique_In_iff _ key_eqb_eq). split; apply Permutation_in.
    + now apply Permutation_map.
    + symmetry. now apply Permutation_map.
  - intros k. apply agg_perm. unfold members. now apply filter_perm.
Qed.

(** The keys and the int64 sums of the groups do not depend on the order
    of the rows, whatever the reducers of the float columns. *)
Lemma groupby_counts_perm (cols : columns) (rows rows' : list record) :
  Permutation rows rows' ->
  Permutation
    (map (fun b => (group b, tests_sum b, devices_sum b))
         (groupby_agg F_eqb F_compare agg_mean agg_min agg_max agg_std cols rows))
    (map (fun b => (group b, tests_sum b, devices_sum b))
         (groupby_agg F_eqb F_compare agg_mean agg_min agg_max agg_std cols rows')).
Proof.
  intros Hp. unfold groupby_agg. rewrite !map_map. cbn [group tests_sum devices_sum agg].
  rewrite (map_ext
             (fun k => (k, optional (has_tests cols)
                             (sum64 (map tests (members F_eqb cols k rows))),
                        optional (has_devices cols)
                          (sum64 (map devices (members F_eqb cols k rows)))))
             (fun k => (k, optional (has_tests cols)
                             (sum64 (map tests (members F_eqb cols k rows'))),
                        optional (has_devices cols)
                          (sum64 (map devices (members F_eqb cols k rows')))))).
  - apply Permutation_map.
    rewrite (sort_values_perm _ _ (unique _ (map (key_of cols) rows))).
    rewrite (sort_values_perm _ _ (unique _ (map (key_of cols) rows'))).
    apply NoDup_Permutation; try (apply unique_NoDup; apply key_eqb_eq).
    intros k. rewrite !(unique_In_iff _ key_eqb_eq). split; apply Permutation_in.
    + now apply Permutation_map.
    + symmetry. now apply Permutation_map.
  - intros k.
    assert (Hm : Permutation (members F_eqb cols k rows) (members F_eqb cols k rows'))
      by (unfold members; now apply filter_perm).
    now rewrite (sum64_perm (Permutation_map tests Hm)),
                (sum64_perm (Permutation_map devices Hm)).
Qed.

End AggregateFacts.

Section AggregatePermutation.
Import Aggregate.
Context {F : Type} {ops : PyFloat F}.
Variable F_eqb : F -> F -> bool.
Variable F_compare : F -> F -> comparison.
Variables agg_mean agg_min agg_max agg_std : list F -> F.
Hypothesis F_eqb_eq : forall a b : F, F_eqb a b = true <-> a = b.

(** C8, as the code has it.  Two frames with the same rows in different
    orders raise the same exception or both return, and then the results
    have the same group keys, each with the same [tests_sum] and
    [devices_sum]: the rows are put in the same groups and the int64 sums do
    not depend on the order.  The float statistics of a group are computed
    by pandas from its values in the order of the rows.  For reducers that
    give the same on a reordered group, as in exact arithmetic, each row of
    one result is a row of the other, once; the float64 mean, a running sum
    in row order, is no such reducer. *)
Theorem aggregate_permutation_invariant (cols : columns) (rows rows' : list record) :
  Permutation rows rows' ->
  match _aggregate_data F_eqb F_compare agg_mean agg_min agg_max agg_std
          {| df_columns := cols; df_rows := rows |},
        _aggregate_data F_eqb F_compare agg_mean agg_min agg_max agg_std
          {| df_columns := cols; df_rows := rows' |} with
  | Ok out, Ok out' =>
      Permutation (map (fun b => (group b, tests_sum b, devices_sum b)) out)
                  (map (fun b => (group b, tests_sum b, devices_sum b)) out')
      /\ ((forall l l', Permutation l l' -> agg_mean l = agg_mean l') ->
          (forall l l', Permutation l l' -> agg_min l = agg_min l') ->
          (forall l l', Permutation l l' -> agg_max l = agg_max l') ->
          (forall l l', Permutation l l' -> agg_std l = agg_std l') ->
          Permutation out out' /\ (forall b, In b out <-> In b out'))
  | Raise e, Raise e' => e = e'
  | _, _ => False
  end.
Proof.
  intros Hp.
  apply (aggregate_perm_lift F_eqb F_compare agg_mean agg_min agg_max agg_std
           (fun out out' =>
              Permutation (map (fun b => (group b, tests_sum b, devices_sum b)) out)
                          (map (fun b => (group b, tests_sum b, devices_sum b)) out')
              /\ ((forall l l', Permutation l l' -> agg_mean l = agg_mean l') ->
                  (forall l l', Permutation l l' -> agg_min l = agg_min l') ->
                  (forall l l', Permutation l l' -> agg_max l = agg_max l') ->
                  (forall l l', Permutation l l' -> agg_std l = agg_std l') ->
                  Permutation out out' /\ (forall b, In b out <-> In b out')))
           cols); [| exact Hp].
  intros l l' Hl. split.
  - now apply groupby_counts_perm.
  - intros Hmean Hmin Hmax Hstd.
    pose proof (groupby_agg_perm F_eqb F_compare agg_mean agg_min agg_max agg_std
                  F_eqb_eq Hmean Hmin Hmax Hstd cols Hl) as Hout.
    split; [assumption|]. intros b. split; apply Permutation_in;
      [assumption | now symmetry].
Qed.

End AggregatePermutation.

(** *** The reducers at the real numbers do not depend on the order *)

Section RealReducers.
Import Aggregate.

Lemma R_eqb_eq (a b : R) : R_eqb a b = true <-> a = b.
Proof.
  unfold R_eqb. destruct (Req_dec_T a b); split; congruence.
Qed.

Lemma R_sum_perm (l l' : list R) : Permutation l l' -> R_sum l = R_sum l'.
Proof.
  unfold R_sum. induction 1; cbn [fold_right]; lra.
Qed.

Lemma R_mean_perm (l l' : list R) : Permutation l l' -> R_mean l = R_mean l'.
Proof.
  intros H. unfold R_mean.
  now rewrite (R_sum_perm H), (Permutation_length H).
Qed.

Lemma R_std_perm (l l' : list R) : Permutation l l' -> R_std l = R_std l'.
Proof.
  intros H. unfold R_std.
  rewrite (R_mean_perm H), (Permutation_length H).
  now rewrite (R_sum_perm (Permutation_map _ H)).
Qed.

(** A fold of an associative and commutative operation over a list that is
    not empty, started at its head. *)
Section Fold1.
Variable op : R -> R -> R.
Hypothesis op_comm : forall a b, op a b = op b a.
Hypothesis op_assoc : forall a b c, op a (op b c) = op (op a b) c.

Lemma fold_head_swap (a b : R) (l : list R) :
  op b (fold_right op a l) = op a (fold_right op b l).
Proof.
  induction l as [|x l IH]; cbn [fold_right]; [apply op_comm|].
  rewrite op_assoc, (op_comm b x), <- op_assoc, IH.
  rewrite op_assoc, (op_comm x a), <- op_assoc. reflexivity.
Qed.

Lemma fold1_perm (l l' : list R) :
  Permutation l l' ->
  match l, l' with
  | a :: m, b :: m' => fold_right op a m = fold_right op b m'
  | [], [] => True
  | _, _ => False
  end.
Proof.
  induction 1 as [| a l l' Hp IH | a b l | l1 l2 l3 H1 IH1 H2 IH2].
  - exact I.
  - clear IH. induction Hp as [| x l l' _ IH | x y l | l1 l2 l3 _ IH1 _ IH2];
      cbn [fold_right]; try congruence;
      try (rewrite !op_assoc, (op_comm x y); reflexivity).
  - cbn [fold_right]. apply fold_head_swap.
  - destruct l1 as [|a m], l2 as [|b m'], l3 as [|c m'']; try contradiction;
      try exact I. congruence.
Qed.

End Fold1.

Lemma R_min_perm (l l' : list R) : Permutation l l' -> R_min l = R_min l'.
Proof.
  intros H. pose proof (fold1_perm Rmin Rmin_comm (fun a b c => Rmin_assoc a b c) H) as Hf.
  unfold R_min. destruct l, l'; try contradiction; [reflexivity | assumption].
Qed.

Lemma R_max_perm (l l' : list R) : Permutation l l' -> R_max l = R_max l'.
Proof.
  intros H. pose proof (fold1_perm Rmax Rmax_comm (fun a b c => Rmax_assoc a b c) H) as Hf.
  unfold R_max. destruct l, l'; try contradiction; [reflexivity | assumption].
Qed.

End RealReducers.

(** *** Inputs for the aggregation theorems *)

Section AggregateWitnesses.
Import Aggregate.

Local Abbreviation aggregate_R :=
  (_aggregate_data R_eqb R_compare R_mean R_min R_max R_std).

Local Abbreviation aggregate_float64 mean rows :=
  (_aggregate_data (ops := Float64.numpy) float_eqb float_compare
     mean float_min float_max float_std
     {| df_columns := all_columns; df_rows := rows |}).

(** The [_mean] of the [avg_d_mbps] column in the rows of a result. *)
Local Abbreviation avg_d_mbps_means out :=
  (map (fun b => option_map (fun s => fst (fst s)) (avg_d_mbps_stats b)) out).

Lemma aggregate_empty_input_raises_witness :
  df_rows {| df_columns := downloaded_columns; df_rows := two_tiles |} <> []
  /\ aggregate_R {| df_columns := downloaded_columns; df_rows := two_tiles |}
     <> Raise ZeroDivisionError.
Proof.
  split; [discriminate|].
  apply (proj2 (aggregate_empty_input_raises R_eqb R_compare R_mean R_min R_max R_std)).
  discriminate.
Defined.

(** C7 as stated fails: the failure on zero records is no error for the
    empty input.  With the measurement columns it is the
    [ZeroDivisionError] of the log line; without them it is the
    [ValueError] of the empty [agg_dict], which a frame with rows raises
    too. *)
Lemma aggregate_empty_input_not_told_apart :
  aggregate_R {| df_columns := all_columns; df_rows := [] |} = Raise ZeroDivisionError
  /\ aggregate_R {| df_columns := coordinates_only; df_rows := [] |} = Raise ValueError
  /\ aggregate_R {| df_columns := coordinates_only; df_rows := two_tiles |}
     = Raise ValueError.
Proof. repeat split. Qed.

Lemma aggregate_preserves_count_totals_witness :
  exists out tests_sums devices_sums,
    aggregate_R {| df_columns := downloaded_columns; df_rows := two_tiles |} = Ok out
    /\ map tests_sum out = map Some tests_sums
    /\ map devices_sum out = map Some devices_sums
    /\ sum64 tests_sums = sum64 (map tests two_tiles)
    /\ sum64 devices_sums = sum64 (map devices two_tiles).
Proof.
  destruct (aggregate_preserves_count_totals R_eqb R_compare R_mean R_min R_max R_std
              R_eqb_eq {| df_columns := downloaded_columns; df_rows := two_tiles |})
    as (out & ts & ds & H1 & H2 & H3 & H4 & H5 & _).
  - discriminate.
  - reflexivity.
  - reflexivity.
  - intros _ r [<- | [<- | [<- | []]]]; reflexivity.
  - exists out, ts, ds. repeat split; assumption.
Defined.

Lemma aggregate_permutation_invariant_witness :
  Permutation two_tiles (rev two_tiles)
  /\ match aggregate_R {| df_columns := downloaded_columns; df_rows := two_tiles |},
           aggregate_R {| df_columns := downloaded_columns; df_rows := rev two_tiles |} with
     | Ok out, Ok out' =>
         Permutation (map (fun b => (group b, tests_sum b, devices_sum b)) out)
                     (map (fun b => (group b, tests_sum b, devices_sum b)) out')
         /\ Permutation out out'
     | Raise e, Raise e' => e = e'
     | _, _ => False
     end
  /\ match aggregate_float64 float_mean three_tests,
           aggregate_float64 float_mean (rev three_tests) with
     | Ok out, Ok out' =>
         Permutation (map (fun b => (group b, tests_sum b, devices_sum b)) out)
                     (map (fun b => (group b, tests_sum b, devices_sum b)) out')
     | Raise e, Raise e' => e = e'
     | _, _ => False
     end.
Proof.
  split; [apply Permutation_rev | split].
  - pose proof (aggregate_permutation_invariant R_eqb R_compare R_mean R_min R_max R_std
                  R_eqb_eq downloaded_columns (Permutation_rev two_tiles)) as H.
    destruct (aggregate_R {| df_columns := downloaded_columns; df_rows := two_tiles |});
      destruct (aggregate_R {| df_columns := downloaded_columns;
                               df_rows := rev two_tiles |});
      try exact H.
    destruct H as [Hcounts Hrows]. split; [exact Hcounts|].
    apply Hrows.
    + exact R_mean_perm.
    + exact R_min_perm.
    + exact R_max_perm.
    + exact R_std_perm.
  - pose proof (aggregate_permutation_invariant (ops := Float64.numpy)
                  float_eqb float_compare float_mean float_min float_max float_std
                  FloatAxioms.Leibniz.eqb_spec all_columns
                  (Permutation_rev three_tests)) as H.
    destruct (aggregate_float64 float_mean three_tests);
      destruct (aggregate_float64 float_mean (rev three_tests));
      try exact H.
    exact (proj1 H).
Defined.

(** C8 as stated fails at float64.  Three rows of one tile and period with
    download speeds of 41.295, 54.146 and 4.508 Mbps give the mean
    33.316333333333333 in this order and 33.31633333333334 in the reverse
    order, with the compensated sum of pandas and with the plain sum from
    the left alike: the two results are not the same set of rows. *)
Lemma aggregate_float64_mean_depends_on_order :
  Permutation three_tests (rev three_tests)
  /\ match aggregate_float64 float_mean three_tests,
           aggregate_float64 float_mean (rev three_tests) with
     | Ok out, Ok out' =>
         avg_d_mbps_means out = [Some 0x1.0a87d9c54a692p+5%float]
         /\ avg_d_mbps_means out' = [Some 0x1.0a87d9c54a693p+5%float]
         /\ ~ Permutation out out'
         /\ ~ (forall b, In b out <-> In b out')
     | _, _ => False
     end
  /\ match aggregate_float64 Comparison.mean_skipna three_tests,
           aggregate_float64 Comparison.mean_skipna (rev three_tests) with
     | Ok out, Ok out' =>
         avg_d_mbps_means out = [Some 0x1.0a87d9c54a692p+5%float]
         /\ avg_d_mbps_means out' = [Some 0x1.0a87d9c54a693p+5%float]
     | _, _ => False
     end.
Proof.
  split; [apply Permutation_rev|].
  assert (Hne : forall b b' : aggregated_row (F := float),
            avg_d_mbps_means [b] = [Some 0x1.0a87d9c54a692p+5%float] ->
            avg_d_mbps_means [b'] = [Some 0x1.0a87d9c54a693p+5%float] ->
            b <> b').
  { intros b b' Hb Hb' Heq. subst b'. rewrite Hb in Hb'.
    apply (f_equal (fun l => match l with
                             | [Some m] => (m =? 0x1.0a87d9c54a692p+5)%float
                             | _ => false
                             end)) in Hb'.
    vm_compute in Hb'. discriminate. }
  split.
  - destruct (aggregate_float64 float_mean three_tests) as [[|b [|]]|] eqn:E;
      try (vm_compute in E; discriminate).
    destruct (aggregate_float64 float_mean (rev three_tests)) as [[|b' [|]]|] eqn:E';
      try (vm_compute in E'; discriminate).
    assert (Hb : avg_d_mbps_means [b] = [Some 0x1.0a87d9c54a692p+5%float]).
    { apply (f_equal (fun r => match r with Ok out => avg_d_mbps_means out | _ => [] end)) in E.
      rewrite <- E. vm_compute. reflexivity. }
    assert (Hb' : avg_d_mbps_means [b'] = [Some 0x1.0a87d9c54a693p+5%float]).
    { apply (f_equal (fun r => match r with Ok out => avg_d_mbps_means out | _ => [] end)) in E'.
      rewrite <- E'. vm_compute. reflexivity. }
    split; [exact Hb | split; [exact Hb' | split]].
    + intros Hperm. apply Permutation_length_1 in Hperm. now apply (Hne b b').
    + intros H. destruct (proj1 (H b) (or_introl eq_refl)) as [Heq | []].
      now apply (Hne b b').
  - vm_compute. split; reflexivity.
Qed.

End AggregateWitnesses.


(** ** More on the quadkey decoder *)

(** An invariant of the state of a [for] loop that ends normally. *)
Lemma for_range_invariant {S : Type} (P : S -> Prop) (body : Z -> S -> result S) :
  forall n lo s0 s,
  (forall i t t', lo <= i < lo + Z.of_nat n -> P t -> body i t = Ok t' -> P t') ->
  P s0 -> for_range n lo body s0 = Ok s -> P s.
Proof.
  induction n as [|n IH]; intros lo s0 s Hstep H0 Hrun.
  - cbn in Hrun. inversion Hrun. subst. assumption.
  - cbn [for_range] in Hrun. destruct (body lo s0) as [s1|e] eqn:Hb; [| discriminate].
    cbn [bind] in Hrun. apply (IH (lo + 1) s1 s); [| | assumption].
    + intros i t t' Hi. apply Hstep. lia.
    + apply (Hstep lo s0 s1); [lia | assumption..].
Qed.

Section QuadkeyRanges.
Import Quadkey.

Lemma lor_below_pow2 (a b n : Z) :
  0 <= a < 2 ^ n -> 0 <= b < 2 ^ n -> 0 <= Z.lor a b < 2 ^ n.
Proof.
  intros Ha Hb. split; [apply Z.lor_nonneg; lia|].
  destruct (Z.eq_dec a 0) as [-> | Ha0]; [now rewrite Z.lor_0_l|].
  destruct (Z.eq_dec b 0) as [-> | Hb0]; [now rewrite Z.lor_0_r|].
  assert (0 < Z.lor a b).
  { pose proof (proj2 (Z.lor_nonneg a b) (conj (proj1 Ha) (proj1 Hb))).
    destruct (Z.eq_dec (Z.lor a b) 0) as [H0 | H0]; [| lia].
    apply Z.lor_eq_0_iff in H0. lia. }
  apply Z.log2_lt_pow2; [assumption|].
  rewrite Z.log2_lor by lia.
  apply Z.max_lub_lt; apply Z.log2_lt_pow2; lia.
Qed.

(** The tile coordinates stay below [2 ^ level_of_detail]. *)
Lemma decode_digit_below (s : string) (L i : Z) (t t' : Z * Z) :
  0 <= i < L ->
  (0 <= fst t < 2 ^ L /\ 0 <= snd t < 2 ^ L) ->
  decode_digit s L i t = Ok t' ->
  0 <= fst t' < 2 ^ L /\ 0 <= snd t' < 2 ^ L.
Proof.
  intros Hi [Hx Hy]. destruct t as [x y]. cbn [fst snd] in *.
  unfold decode_digit.
  destruct (getitem s i) as [c|e]; cbn [bind]; [| discriminate].
  destruct (int c) as [d|e]; cbn [bind]; [| discriminate].
  assert (Hmask : 0 <= Z.shiftl 1 (L - 1 - i) < 2 ^ L).
  { rewrite Z.shiftl_1_l. split; [apply Z.pow_nonneg; lia|].
    apply Z.pow_lt_mono_r; lia. }
  destruct (d =? 1); [| destruct (d =? 2); [| destruct (d =? 3)]];
    intros H; inversion H; subst; cbn [fst snd];
    (split; [first [assumption | apply lor_below_pow2; assumption]
           | first [assumption | apply lor_below_pow2; assumption]]).
Qed.

Lemma decode_loop_below (s : string) (x y : Z) :
  for_range (String.length s) 0
    (decode_digit s (Z.of_nat (String.length s))) (0, 0) = Ok (x, y) ->
  0 <= x < 2 ^ Z.of_nat (String.length s)
  /\ 0 <= y < 2 ^ Z.of_nat (String.length s).
Proof.
  intros Hrun.
  refine (@for_range_invariant _
            (fun t => 0 <= fst t < 2 ^ Z.of_nat (String.length s)
                      /\ 0 <= snd t < 2 ^ Z.of_nat (String.length s))
            _ _ _ _ (x, y) _ _ Hrun).
  - intros i t t' Hi. apply decode_digit_below. lia.
  - cbn [fst snd]. pose proof (Z.pow_pos_nonneg 2 (Z.of_nat (String.length s))).
    lia.
Qed.

(** The centre of a tile, as a fraction of the map, is inside (0, 1). *)
Lemma pixel_fraction (v L : Z) :
  0 <= L -> 0 <= v < 2 ^ L ->
  (0 < IZR (v * 256 + 128) / IZR (Z.shiftl 256 L) < 1)%R.
Proof.
  intros HL Hv. rewrite Z.shiftl_mul_pow2 by assumption.
  assert (Hm : 0 < 256 * 2 ^ L) by lia.
  assert (Hp : 0 < v * 256 + 128 < 256 * 2 ^ L) by lia.
  apply IZR_lt in Hm. destruct Hp as [Hp1 Hp2].
  apply IZR_lt in Hp1, Hp2.
  split.
  - apply Rdiv_lt_0_compat; assumption.
  - apply (Rmult_lt_reg_r (IZR (256 * 2 ^ L))); [assumption|].
    unfold Rdiv. rewrite Rmult_assoc, Rinv_l by lra. lra.
Qed.

Lemma atan_exp_bounds (t : R) : (0 < atan (exp t) < PI / 2)%R.
Proof.
  split; [| apply atan_bound].
  rewrite <- atan_0. apply atan_increasing. apply exp_pos.
Qed.

(** X1.  Whatever string the decoder accepts, the longitude it returns is
    strictly between -180 and 180 and the latitude strictly between -90 and
    90. *)
Theorem decode_quadkey_coordinate_ranges (quadkey : string) (latitude longitude : R) :
  _decode_quadkey_to_latlon (F := R) quadkey = Ok (latitude, longitude) ->
  (-180 < longitude < 180)%R /\ (-90 < latitude < 90)%R.
Proof.
  unfold _decode_quadkey_to_latlon.
  destruct (for_range _ 0 _ (0, 0)) as [[x y]|e] eqn:Hloop; cbn [bind];
    [| discriminate].
  destruct (decode_loop_below quadkey Hloop) as [Hx Hy].
  intros H. inversion H as [[Hlat Hlon]]. clear H.
  cbn [fsub fdiv fmul fneg of_int half np_pi np_exp np_arctan int_truediv RealFloat].
  pose proof (pixel_fraction (Nat2Z.is_nonneg (String.length quadkey)) Hx) as Hfx.
  split.
  - lra.
  - match goal with |- context [atan (exp ?t)] => pose proof (atan_exp_bounds t) as Ha end.
    pose proof PI_RGT_0 as Hpi.
    match goal with |- context [(360 * ?a / PI)%R] =>
      assert (Hq : (0 < 360 * a / PI < 180)%R) end.
    { split.
      - apply Rdiv_lt_0_compat; lra.
      - apply (Rmult_lt_reg_r PI); [assumption|].
        unfold Rdiv. rewrite Rmult_assoc, Rinv_l by lra. lra. }
    lra.
Qed.

Lemma decode_quadkey_coordinate_ranges_witness :
  exists latitude longitude,
    _decode_quadkey_to_latlon (F := R) "3101020323112312" = Ok (latitude, longitude)
    /\ (-180 < longitude < 180)%R /\ (-90 < latitude < 90)%R.
Proof.
  eexists. eexists. split; [reflexivity|].
  apply (decode_quadkey_coordinate_ranges "3101020323112312"). reflexivity.
Defined.

End QuadkeyRanges.

Section QuadkeyBits.
Import Quadkey.

Lemma decimal_chars (s : string) (i : nat) (c : ascii) :
  forallb is_decimal_digit (chars s) = true ->
  nth_error (chars s) i = Some c -> is_decimal_digit c = true.
Proof.
  intros Hall Hc. rewrite forallb_forall in Hall.
  apply Hall. eapply nth_error_In; eassumption.
Qed.

(** One turn of the loop, by the bits of the character. *)
Lemma decode_digit_bits (s : string) (L : Z) (i : nat) (c : ascii) (x y : Z) :
  nth_error (chars s) i = Some c ->
  is_decimal_digit c = true ->
  decode_digit s L (Z.of_nat i) (x, y)
  = Ok (if x_bit c then Z.lor x (Z.shiftl 1 (L - 1 - Z.of_nat i)) else x,
        if y_bit c then Z.lor y (Z.shiftl 1 (L - 1 - Z.of_nat i)) else y).
Proof.
  intros Hc Hd. unfold decode_digit, x_bit, y_bit.
  rewrite (getitem_nth _ _ Hc). cbn [bind].
  destruct (int_decimal c Hd) as [d [-> Hrange]]. cbn [bind].
  destruct (Z.eqb_spec d 1) as [-> | H1]; [reflexivity|].
  destruct (Z.eqb_spec d 2) as [-> | H2]; [reflexivity|].
  destruct (Z.eqb_spec d 3) as [-> | H3]; reflexivity.
Qed.

Lemma testbit_or_mask (v : Z) (b : bool) (m k : Z) :
  0 <= m -> 0 <= k ->
  Z.testbit (if b then Z.lor v (Z.shiftl 1 m) else v) k
  = Z.testbit v k || (b && (m =? k)).
Proof.
  intros Hm Hk. destruct b; cbn [andb]; [| now rewrite orb_false_r].
  now rewrite Z.lor_spec, Z.shiftl_1_l, Z.pow2_bits_eqb.
Qed.

(** What the turns [i], ..., [i + n - 1] of the loop do to the bits of the
    two accumulators: the turn [j] sets the bit [L - 1 - j], the other bits
    stay. *)
Lemma decode_loop_bits (s : string) :
  forallb is_decimal_digit (chars s) = true ->
  forall n i x y x' y',
  (i + n = String.length s)%nat ->
  for_range n (Z.of_nat i) (decode_digit s (Z.of_nat (String.length s))) (x, y)
  = Ok (x', y') ->
  (forall j c, (i <= j < i + n)%nat -> nth_error (chars s) j = Some c ->
     Z.testbit x' (Z.of_nat (String.length s) - 1 - Z.of_nat j)
     = Z.testbit x (Z.of_nat (String.length s) - 1 - Z.of_nat j) || x_bit c
     /\ Z.testbit y' (Z.of_nat (String.length s) - 1 - Z.of_nat j)
        = Z.testbit y (Z.of_nat (String.length s) - 1 - Z.of_nat j) || y_bit c)
  /\ (forall k, 0 <= k ->
        (forall j, (i <= j < i + n)%nat -> k <> Z.of_nat (String.length s) - 1 - Z.of_nat j) ->
        Z.testbit x' k = Z.testbit x k /\ Z.testbit y' k = Z.testbit y k).
Proof.
  intros Hdec. set (L := Z.of_nat (String.length s)).
  induction n as [|n IH]; intros i x y x' y' Hlen Hrun.
  - cbn in Hrun. inversion Hrun; subst. split; [intros j c Hj; lia | auto].
  - assert (Hi : (i < List.length (chars s))%nat) by (rewrite length_chars; lia).
    destruct (nth_error (chars s) i) as [ci|] eqn:Hci;
      [| apply nth_error_None in Hci; lia].
    cbn [for_range] in Hrun.
    rewrite (decode_digit_bits s L i x y Hci (decimal_chars s i Hdec Hci)) in Hrun.
    cbn [bind] in Hrun.
    replace (Z.of_nat i + 1) with (Z.of_nat (S i)) in Hrun by lia.
    destruct (IH (S i) _ _ x' y' ltac:(lia) Hrun) as [IHA IHB].
    assert (Hm : 0 <= L - 1 - Z.of_nat i) by (unfold L; lia).
    split.
    + intros j c Hj Hc.
      assert (Hk : 0 <= L - 1 - Z.of_nat j) by (unfold L; lia).
      destruct (Nat.eq_dec j i) as [-> | Hne].
      * assert (c = ci) by congruence. subst c.
        destruct (IHB (L - 1 - Z.of_nat i) Hm) as [Hx Hy]; [intros j Hj'; lia|].
        rewrite Hx, Hy, !testbit_or_mask, Z.eqb_refl, !andb_true_r by assumption.
        split; reflexivity.
      * destruct (IHA j c ltac:(lia) Hc) as [Hx Hy].
        rewrite Hx, Hy, !testbit_or_mask by assumption.
        replace (L - 1 - Z.of_nat i =? L - 1 - Z.of_nat j) with false
          by (symmetry; apply Z.eqb_neq; lia).
        rewrite !andb_false_r, !orb_false_r. split; reflexivity.
    + intros k Hk Hout.
      destruct (IHB k Hk) as [Hx Hy]; [intros j Hj; apply Hout; lia|].
      rewrite Hx, Hy, !testbit_or_mask by assumption.
      replace (L - 1 - Z.of_nat i =? k) with false
        by (symmetry; apply Z.eqb_neq; intros <-; apply (Hout i); [lia | reflexivity]).
      rewrite !andb_false_r, !orb_false_r. split; reflexivity.
Qed.

(** The bits of the tile coordinates are the bits of the digits. *)
Lemma decode_bits (s : string) (x y : Z) :
  forallb is_decimal_digit (chars s) = true ->
  for_range (String.length s) 0
    (decode_digit s (Z.of_nat (String.length s))) (0, 0) = Ok (x, y) ->
  forall j c, nth_error (chars s) j = Some c ->
    Z.testbit x (Z.of_nat (String.length s) - 1 - Z.of_nat j) = x_bit c
    /\ Z.testbit y (Z.of_nat (String.length s) - 1 - Z.of_nat j) = y_bit c.
Proof.
  intros Hdec Hrun j c Hc.
  assert (Hj : (j < String.length s)%nat).
  { rewrite <- length_chars. apply nth_error_Some. congruence. }
  destruct (decode_loop_bits s Hdec (String.length s) 0 0 0 eq_refl Hrun)
    as [HA _].
  destruct (HA j c ltac:(lia) Hc) as [Hx Hy].
  rewrite Hx, Hy, !Z.bits_0. split; reflexivity.
Qed.

End QuadkeyBits.

Section QuadkeyInjective.
Import Quadkey.

Lemma quad_digit_bits_inj (c c' : ascii) :
  is_quad_digit c = true -> is_quad_digit c' = true ->
  x_bit c = x_bit c' -> y_bit c = y_bit c' -> c = c'.
Proof.
  intros Hc Hc'.
  destruct (quad_digit_cases c Hc) as [-> | [-> | [-> | ->]]];
    destruct (quad_digit_cases c' Hc') as [-> | [-> | [-> | ->]]];
    cbn; intros; congruence.
Qed.

(** An odd number times a power of two has one such writing. *)
Lemma odd_pow2_unique (a b n m : Z) :
  0 <= n -> 0 <= m ->
  (2 * a + 1) * 2 ^ m = (2 * b + 1) * 2 ^ n -> n = m /\ a = b.
Proof.
  assert (Hlt : forall a b n m, 0 <= n -> n < m ->
                (2 * a + 1) * 2 ^ m = (2 * b + 1) * 2 ^ n -> False).
  { clear. intros a b n m Hn Hnm H.
    replace m with (n + 1 + (m - n - 1)) in H by lia.
    rewrite !Z.pow_add_r, Z.pow_1_r in H by lia.
    assert (Hp : 0 < 2 ^ n) by (apply Z.pow_pos_nonneg; lia).
    set (t := 2 ^ (m - n - 1)) in *.
    assert (Hc : (2 * ((2 * a + 1) * t)) * 2 ^ n = (2 * b + 1) * 2 ^ n) by lia.
    apply Z.mul_reg_r in Hc; [| lia].
    set (u := (2 * a + 1) * t) in *. lia. }
  intros Hn Hm H.
  destruct (Z.lt_trichotomy n m) as [Hnm | [-> | Hmn]].
  - exfalso. apply (Hlt a b n m); assumption.
  - split; [reflexivity|].
    assert (Hp : 0 < 2 ^ m) by (apply Z.pow_pos_nonneg; lia).
    apply Z.mul_reg_r in H; lia.
  - exfalso. symmetry in H. apply (Hlt b a m n); assumption.
Qed.

Lemma Rdiv_cross (a b M N : R) :
  M <> 0%R -> N <> 0%R -> (a / M = b / N)%R -> (a * N = b * M)%R.
Proof.
  intros HM HN H.
  replace (a * N)%R with (a / M * (M * N))%R by (field; assumption).
  rewrite H. field. assumption.
Qed.

(** The centre of a tile, as a fraction of the map, tells the level and
    the tile. *)
Lemma pixel_fraction_inj (v v' L L' : Z) :
  0 <= L -> 0 <= L' ->
  (IZR (v * 256 + 128) / IZR (Z.shiftl 256 L)
   = IZR (v' * 256 + 128) / IZR (Z.shiftl 256 L'))%R ->
  L = L' /\ v = v'.
Proof.
  intros HL HL' H. rewrite !Z.shiftl_mul_pow2 in H by assumption.
  assert (Hp : 0 < 2 ^ L) by (apply Z.pow_pos_nonneg; lia).
  assert (Hp' : 0 < 2 ^ L') by (apply Z.pow_pos_nonneg; lia).
  apply Rdiv_cross in H; try (apply not_0_IZR; lia).
  rewrite <- !mult_IZR in H. apply eq_IZR in H.
  assert (H2 : (2 * v + 1) * 2 ^ L' = (2 * v' + 1) * 2 ^ L) by lia.
  apply odd_pow2_unique in H2; [| assumption..]. lia.
Qed.

Lemma atan_exp_inj (a b : R) : atan (exp a) = atan (exp b) -> a = b.
Proof.
  intros H. destruct (Rtotal_order a b) as [Hlt | [Heq | Hgt]]; [| assumption |].
  - apply exp_increasing, atan_increasing in Hlt. lra.
  - apply exp_increasing, atan_increasing in Hgt. lra.
Qed.

(** X2.  Two quadkeys over the digits 0 to 3 that decode to the same
    coordinates are the same string, whatever their lengths: the centre of
    a tile identifies the tile and its level. *)
Theorem decode_quadkey_injective (quadkey quadkey' : string) (latlon : R * R) :
  forallb is_quad_digit (chars quadkey) = true ->
  forallb is_quad_digit (chars quadkey') = true ->
  _decode_quadkey_to_latlon (F := R) quadkey = Ok latlon ->
  _decode_quadkey_to_latlon (F := R) quadkey' = Ok latlon ->
  quadkey = quadkey'.
Proof.
  intros Hq Hq'.
  assert (Hd : forallb is_decimal_digit (chars quadkey) = true).
  { apply forallb_forall. intros c Hc. apply quad_digit_decimal.
    rewrite forallb_forall in Hq. now apply Hq. }
  assert (Hd' : forallb is_decimal_digit (chars quadkey') = true).
  { apply forallb_forall. intros c Hc. apply quad_digit_decimal.
    rewrite forallb_forall in Hq'. now apply Hq'. }
  unfold _decode_quadkey_to_latlon.
  destruct (for_range _ 0 (decode_digit quadkey _) (0, 0)) as [[x y]|e] eqn:Hloop;
    cbn [bind]; [| discriminate].
  destruct (for_range _ 0 (decode_digit quadkey' _) (0, 0)) as [[x' y']|e] eqn:Hloop';
    cbn [bind]; [| discriminate].
  cbn [fsub fdiv fmul fneg of_int half np_pi np_exp np_arctan int_truediv RealFloat].
  intros H H'. rewrite <- H in H'. inversion H' as [[Hlat Hlon]]. clear H H'.
  set (L := Z.of_nat (String.length quadkey)) in *.
  set (L' := Z.of_nat (String.length quadkey')) in *.
  assert (HL : 0 <= L) by (unfold L; lia).
  assert (HL' : 0 <= L') by (unfold L'; lia).
  assert (Hfx : (IZR (x' * 256 + 128) / IZR (Z.shiftl 256 L')
                 = IZR (x * 256 + 128) / IZR (Z.shiftl 256 L))%R) by lra.
  apply pixel_fraction_inj in Hfx; [| assumption..]. destruct Hfx as [HLL Hxx].
  assert (Hfy : (IZR (y' * 256 + 128) / IZR (Z.shiftl 256 L')
                 = IZR (y * 256 + 128) / IZR (Z.shiftl 256 L))%R).
  { pose proof PI_RGT_0 as Hpi.
    match type of Hlat with
    | (_ - 360 * atan (exp ?a) / PI = _ - 360 * atan (exp ?b) / PI)%R =>
        assert (Hab : a = b)
    end.
    { apply atan_exp_inj.
      apply (Rmult_eq_reg_r (360 / PI)); [| apply Rgt_not_eq; apply Rdiv_lt_0_compat; lra].
      unfold Rdiv in *. lra. }
    apply (Rmult_eq_reg_r (2 * PI)); lra. }
  apply pixel_fraction_inj in Hfy; [| assumption..]. destruct Hfy as [_ Hyy].
  subst x' y'. unfold L, L' in HLL. apply Nat2Z.inj in HLL.
  rewrite <- (string_of_list_ascii_of_string quadkey),
          <- (string_of_list_ascii_of_string quadkey').
  f_equal. fold (chars quadkey) (chars quadkey').
  apply nth_error_ext. intros j.
  destruct (nth_error (chars quadkey) j) as [c|] eqn:Hc;
    destruct (nth_error (chars quadkey') j) as [c'|] eqn:Hc'.
  - f_equal.
    destruct (decode_bits quadkey Hd Hloop j Hc) as [Hx Hy].
    destruct (decode_bits quadkey' Hd' Hloop' j Hc') as [Hx' Hy'].
    rewrite HLL in Hx', Hy'.
    rewrite forallb_forall in Hq, Hq'.
    apply quad_digit_bits_inj; try congruence.
    + apply Hq. eapply nth_error_In; eassumption.
    + apply Hq'. eapply nth_error_In; eassumption.
  - apply nth_error_None in Hc'. rewrite length_chars in Hc'.
    assert (j < List.length (chars quadkey))%nat by (apply nth_error_Some; congruence).
    rewrite length_chars in *. lia.
  - apply nth_error_None in Hc. rewrite length_chars in Hc.
    assert (j < List.length (chars quadkey'))%nat by (apply nth_error_Some; congruence).
    rewrite length_chars in *. lia.
  - reflexivity.
Qed.

Lemma decode_quadkey_injective_witness :
  exists latlon,
    forallb is_quad_digit (chars "3101") = true
    /\ _decode_quadkey_to_latlon (F := R) "3101" = Ok latlon
    /\ "3101"%string = "3101"%string.
Proof.
  eexists. split; [reflexivity|]. split; [reflexivity|].
  eapply (decode_quadkey_injective "3101" "3101"); reflexivity.
Defined.

End QuadkeyInjective.

Section QuadkeyHighDigits.
Import Quadkey.

Lemma chars_map_chars (f : ascii -> ascii) (s : string) :
  chars (map_chars f s) = map f (chars s).
Proof.
  unfold chars. induction s as [|c s IH]; cbn; [reflexivity | now rewrite IH].
Qed.

Lemma length_map_chars (f : ascii -> ascii) (s : string) :
  String.length (map_chars f s) = String.length s.
Proof. induction s as [|c s IH]; cbn; [reflexivity | now rewrite IH]. Qed.

Lemma zero_above_three_bits (c : ascii) :
  is_decimal_digit c = true ->
  is_quad_digit (zero_above_three c) = true
  /\ x_bit (zero_above_three c) = x_bit c
  /\ y_bit (zero_above_three c) = y_bit c.
Proof.
  destruct c as [[] [] [] [] [] [] [] []]; intros H;
    try discriminate H; repeat split; reflexivity.
Qed.

Lemma decode_loop_zero_above_three (s : string) (L : Z) :
  forallb is_decimal_digit (chars s) = true ->
  forall n i t, (i + n = String.length s)%nat ->
  for_range n (Z.of_nat i) (decode_digit (map_chars zero_above_three s) L) t
  = for_range n (Z.of_nat i) (decode_digit s L) t.
Proof.
  intros Hdec. induction n as [|n IH]; intros i [x y] Hlen; [reflexivity|].
  assert (Hi : (i < List.length (chars s))%nat) by (rewrite length_chars; lia).
  destruct (nth_error (chars s) i) as [c|] eqn:Hc;
    [| apply nth_error_None in Hc; lia].
  pose proof (decimal_chars s i Hdec Hc) as Hd.
  destruct (zero_above_three_bits c Hd) as [Hq [Hx Hy]].
  assert (Hc' : nth_error (chars (map_chars zero_above_three s)) i
                = Some (zero_above_three c)).
  { rewrite chars_map_chars, nth_error_map, Hc. reflexivity. }
  cbn [for_range].
  rewrite (decode_digit_bits _ L i x y Hc' (quad_digit_decimal _ Hq)),
          (decode_digit_bits s L i x y Hc Hd), Hx, Hy.
  cbn [bind]. replace (Z.of_nat i + 1) with (Z.of_nat (S i)) by lia.
  apply IH. lia.
Qed.

(** X3.  In a string of decimal digits the digits 4 to 9 are read as 0:
    the string decodes to the coordinates of the quadkey in which each of
    them is replaced by 0. *)
Theorem decode_quadkey_high_digits_as_zero {F : Type} {ops : PyFloat F}
    (quadkey : string) :
  forallb is_decimal_digit (chars quadkey) = true ->
  _decode_quadkey_to_latlon (F := F) quadkey
  = _decode_quadkey_to_latlon (F := F) (map_chars zero_above_three quadkey).
Proof.
  intros Hdec. unfold _decode_quadkey_to_latlon.
  rewrite length_map_chars.
  rewrite (decode_loop_zero_above_three quadkey _ Hdec (String.length quadkey) 0 (0, 0) eq_refl).
  reflexivity.
Qed.

Lemma decode_quadkey_high_digits_as_zero_witness :
  _decode_quadkey_to_latlon (F := R) "3149"
  = _decode_quadkey_to_latlon (F := R) "3100".
Proof.
  apply (decode_quadkey_high_digits_as_zero (F := R) "3149"). reflexivity.
Defined.

End QuadkeyHighDigits.

(** ** More on the sheets of a workbook *)

Section SheetFacts.
Import Excel.
Context {row : Type}.

Lemma range_nth (n : Z) (k : nat) :
  Z.of_nat k < n -> nth_error (range n) k = Some (Z.of_nat k).
Proof.
  intros Hk. unfold range. rewrite nth_error_map, nth_error_seq.
  destruct (Nat.ltb_spec k (Z.to_nat n)); [reflexivity | lia].
Qed.

Lemma length_range (n : Z) : List.length (range n) = Z.to_nat n.
Proof. unfold range. now rewrite length_map, length_seq. Qed.

Lemma iloc_nth (df : list row) (a b : Z) (j : nat) :
  0 <= a -> Z.of_nat j < b - a ->
  nth_error (iloc df a b) j = nth_error df (Z.to_nat a + j).
Proof.
  intros Ha Hj. unfold iloc. rewrite nth_error_firstn, nth_error_skipn.
  destruct (Nat.ltb_spec j (Z.to_nat b - Z.to_nat a)); [reflexivity | lia].
Qed.

Lemma length_iloc (df : list row) (a b : Z) :
  0 <= a -> a <= b -> b <= len df -> len (iloc df a b) = b - a.
Proof.
  intros Ha Hab Hb. unfold len, iloc in *.
  rewrite length_firstn, length_skipn. lia.
Qed.

(** The number of sheets is the number of rows over the row limit, rounded
    up. *)
Lemma num_chunks_ceil (n : Z) :
  0 <= n ->
  (n - 1) / Config.excel_row_limit + 1
  = (n + Config.excel_row_limit - 1) / Config.excel_row_limit.
Proof.
  intros Hn. unfold Config.excel_row_limit.
  replace (n + 900000 - 1) with ((n - 1) + 1 * 900000) by lia.
  rewrite Z.div_add by lia. reflexivity.
Qed.

(** The sheet written in the turn [k] of the loop. *)
Lemma sheet_nth (df : list row) (sheet_name : string) (k : nat) :
  let max_rows := Config.excel_row_limit in
  let num_chunks := (len df - 1) / max_rows + 1 in
  Z.of_nat k < num_chunks ->
  nth_error (_create_excel_file df sheet_name) k
  = Some (if 1 <? num_chunks
          then (sheet_name ++ "_" ++ str_int (Z.of_nat k + 1))%string
          else sheet_name,
          iloc df (Z.of_nat k * max_rows)
               (Z.min ((Z.of_nat k + 1) * max_rows) (len df))).
Proof.
  intros max_rows num_chunks Hk. unfold _create_excel_file. cbv zeta.
  fold max_rows. fold num_chunks.
  rewrite nth_error_map, (range_nth _ Hk). reflexivity.
Qed.

(** X4.  The row at position [i] of the frame is written at position
    [i mod 900000] of the sheet number [i / 900000] (counted from 0). *)
Theorem create_excel_file_row_position (df : list row) (sheet_name : string)
    (i : nat) (r : row) :
  nth_error df i = Some r ->
  exists chunk_sheet_name chunk_data,
    nth_error (_create_excel_file df sheet_name)
      (Z.to_nat (Z.of_nat i / Config.excel_row_limit))
    = Some (chunk_sheet_name, chunk_data)
    /\ nth_error chunk_data (Z.to_nat (Z.of_nat i mod Config.excel_row_limit))
       = Some r.
Proof.
  intros Hr.
  assert (Hi : (i < List.length df)%nat) by (apply nth_error_Some; congruence).
  pose proof (Z.div_mod (Z.of_nat i) Config.excel_row_limit ltac:(discriminate)) as Hdm.
  pose proof (Z.mod_pos_bound (Z.of_nat i) Config.excel_row_limit ltac:(reflexivity)) as Hm.
  pose proof (Z.div_pos (Z.of_nat i) Config.excel_row_limit ltac:(lia) ltac:(reflexivity)) as Hq.
  set (k := Z.of_nat i / Config.excel_row_limit) in *.
  set (j := Z.of_nat i mod Config.excel_row_limit) in *.
  pose proof (Z.div_mod (len df - 1) Config.excel_row_limit ltac:(discriminate)) as Hdm'.
  pose proof (Z.mod_pos_bound (len df - 1) Config.excel_row_limit ltac:(reflexivity)) as Hm'.
  assert (Hk : Z.of_nat (Z.to_nat k) < (len df - 1) / Config.excel_row_limit + 1).
  { rewrite Z2Nat.id by assumption.
    assert (k <= (len df - 1) / Config.excel_row_limit); [| lia].
    apply Z.div_le_mono; [reflexivity | unfold len; lia]. }
  eexists. eexists. split; [apply (sheet_nth df sheet_name _ Hk)|].
  rewrite Z2Nat.id by assumption.
  rewrite iloc_nth.
  - rewrite <- Hr. f_equal. unfold Config.excel_row_limit in *. lia.
  - unfold Config.excel_row_limit in *. lia.
  - unfold len, Config.excel_row_limit in *. lia.
Qed.

(** X5.  The number of sheets is the number of rows divided by 900000,
    rounded up; no sheet is empty, and every sheet but the last one has
    900000 rows. *)
Theorem create_excel_file_sheet_sizes (df : list row) (sheet_name : string) :
  let sheets := _create_excel_file df sheet_name in
  Z.of_nat (List.length sheets)
  = (len df + Config.excel_row_limit - 1) / Config.excel_row_limit
  /\ Forall (fun sheet => 0 < len (snd sheet)) sheets
  /\ Forall (fun sheet => len (snd sheet) = Config.excel_row_limit)
       (removelast sheets).
Proof.
  intros sheets.
  assert (Hn : 0 <= len df) by (unfold len; lia).
  pose proof (Z.div_mod (len df - 1) Config.excel_row_limit ltac:(discriminate)) as Hdm.
  pose proof (Z.mod_pos_bound (len df - 1) Config.excel_row_limit ltac:(reflexivity)) as Hm.
  assert (Hlen : Z.of_nat (List.length sheets)
                 = (len df - 1) / Config.excel_row_limit + 1).
  { unfold sheets, _create_excel_file. cbv zeta.
    rewrite length_map, length_range.
    unfold Config.excel_row_limit in *. lia. }
  assert (Hsheet : forall k sheet, nth_error sheets k = Some sheet ->
            Z.of_nat k < (len df - 1) / Config.excel_row_limit + 1
            /\ len (snd sheet)
               = Z.min ((Z.of_nat k + 1) * Config.excel_row_limit) (len df)
                 - Z.of_nat k * Config.excel_row_limit).
  { intros k sheet Hs.
    assert (Hk : (k < List.length sheets)%nat) by (apply nth_error_Some; congruence).
    assert (Hk' : Z.of_nat k < (len df - 1) / Config.excel_row_limit + 1) by lia.
    split; [assumption|].
    unfold sheets in Hs. rewrite (sheet_nth df sheet_name _ Hk') in Hs.
    inversion Hs; subst sheet. cbn [snd].
    apply length_iloc; unfold Config.excel_row_limit in *; lia. }
  split; [| split].
  - rewrite Hlen. now apply num_chunks_ceil.
  - apply Forall_forall. intros sheet Hin.
    apply In_nth_error in Hin. destruct Hin as [k Hs].
    destruct (Hsheet k sheet Hs) as [Hk ->].
    unfold Config.excel_row_limit in *. lia.
  - rewrite removelast_firstn_len. apply Forall_forall. intros sheet Hin.
    apply In_nth_error in Hin. destruct Hin as [k Hs].
    rewrite nth_error_firstn in Hs.
    destruct (Nat.ltb_spec k (Nat.pred (List.length sheets))); [| discriminate].
    destruct (Hsheet k sheet Hs) as [_ ->].
    unfold Config.excel_row_limit in *. lia.
Qed.

(** A frame of 1 to 900000 rows goes to one sheet. *)
Lemma sheets_of_small_frame (df : list row) (sheet_name : string) :
  0 < len df <= Config.excel_row_limit ->
  _create_excel_file df sheet_name = [(sheet_name, df)].
Proof.
  intros [Hpos Hsmall]. unfold _create_excel_file. cbv zeta.
  replace ((len df - 1) / Config.excel_row_limit + 1) with 1.
  - change (range 1) with [0]. cbn [map].
    change (1 <? 1) with false. cbv iota. f_equal. f_equal. unfold iloc.
    rewrite Z.min_r by (unfold Config.excel_row_limit in *; lia).
    change (Z.to_nat (0 * Config.excel_row_limit)) with 0%nat.
    cbn [skipn]. rewrite Nat.sub_0_r.
    unfold len. rewrite Nat2Z.id. apply firstn_all.
  - rewrite Z.div_small; [reflexivity|].
    unfold Config.excel_row_limit in *. lia.
Qed.

(** X6.  A frame of 1 to 900000 rows is written to one sheet that has the
    name given and all the rows; for a frame with no rows no sheet is
    written. *)
Theorem create_excel_file_single_sheet (df : list row) (sheet_name : string) :
  len df <= Config.excel_row_limit ->
  _create_excel_file df sheet_name
  = match df with
    | [] => []
    | _ :: _ => [(sheet_name, df)]
    end.
Proof.
  intros Hsmall. destruct df as [|r df']; [reflexivity|].
  apply sheets_of_small_frame. split; [| assumption].
  unfold len. cbn [List.length]. lia.
Qed.

End SheetFacts.

Lemma create_excel_file_row_position_witness :
  exists chunk_sheet_name chunk_data,
    nth_error (Excel._create_excel_file [1; 2; 3] "Data")
      (Z.to_nat (Z.of_nat 2 / Config.excel_row_limit))
    = Some (chunk_sheet_name, chunk_data)
    /\ nth_error chunk_data (Z.to_nat (Z.of_nat 2 mod Config.excel_row_limit))
       = Some 3.
Proof.
  apply (create_excel_file_row_position [1; 2; 3] "Data" 2). reflexivity.
Defined.

Lemma create_excel_file_single_sheet_witness :
  Excel._create_excel_file [1; 2; 3] "Data" = [("Data"%string, [1; 2; 3])].
Proof.
  apply (create_excel_file_single_sheet [1; 2; 3] "Data"). discriminate.
Defined.



(** ** More on the aggregation *)

Lemma unique_incl {K : Type} (eqb : K -> K -> bool) (l : list K) (k : K) :
  In k (unique eqb l) -> In k l.
Proof.
  induction l as [|a l IH]; simpl; [tauto|].
  rewrite filter_In. tauto.
Qed.

Lemma length_unique {K : Type} (eqb : K -> K -> bool) (l : list K) :
  (List.length (unique eqb l) <= List.length l)%nat
  /\ (l <> [] -> unique eqb l <> []).
Proof.
  split; [| destruct l; [congruence | discriminate]].
  induction l as [|a l IH]; simpl; [lia|].
  pose proof (filter_length_le (fun b => negb (eqb a b)) (unique eqb l)). lia.
Qed.

Section AggregateOutcomes.
Import Aggregate.
Context {F : Type} {ops : PyFloat F}.
Variable F_eqb : F -> F -> bool.
Variable F_compare : F -> F -> comparison.
Variables agg_mean agg_min agg_max agg_std : list F -> F.

Local Abbreviation aggregate_data :=
  (_aggregate_data F_eqb F_compare agg_mean agg_min agg_max agg_std).

Local Abbreviation group_keys cols rows :=
  (sort_values (key_compare F_compare) (fun k => k)
     (unique (key_eqb F_eqb) (map (key_of cols) rows))).

(** The frame that is grouped, when the function returns. *)
Lemma aggregate_Ok_inv (df : DataFrame) (out : list aggregated_row) :
  aggregate_data df = Ok out ->
  exists rows,
    (if negb (has_latitude (df_columns df)) || negb (has_longitude (df_columns df))
     then Forall2 (fun r r' => decode_latlon r = Ok r') (df_rows df) rows
     else rows = df_rows df)
    /\ rows <> []
    /\ out = groupby_agg F_eqb F_compare agg_mean agg_min agg_max agg_std
               (df_columns df) rows.
Proof.
  unfold _aggregate_data, agg_checked. cbv zeta.
  destruct (negb (has_latitude (df_columns df)) || negb (has_longitude (df_columns df))).
  - destruct (apply decode_latlon (df_rows df)) as [rows|e] eqn:Hap;
      cbn [bind]; [| discriminate].
    destruct (has_measurement (df_columns df)); cbn [bind]; [| discriminate].
    unfold log_ratio, Excel.len.
    destruct (Z.eqb_spec (Z.of_nat (List.length rows)) 0) as [H0 | Hn];
      cbn [bind]; [discriminate|].
    intros H. inversion H. exists rows. split; [now apply apply_Ok_iff|].
    split; [| reflexivity]. intros ->. now apply Hn.
  - cbn [bind].
    destruct (has_measurement (df_columns df)); cbn [bind]; [| discriminate].
    unfold log_ratio, Excel.len.
    destruct (Z.eqb_spec (Z.of_nat (List.length (df_rows df))) 0) as [H0 | Hn];
      cbn [bind]; [discriminate|].
    intros H. inversion H. exists (df_rows df). split; [reflexivity|].
    split; [| reflexivity]. intros Hnil. rewrite Hnil in Hn. now apply Hn.
Qed.

(** X7.  What [_aggregate_data] does is decided by the rows and the
    columns, for quadkeys of characters below code point 256, whose decimal
    digits are 0 to 9.  It raises [ValueError] exactly when a coordinate
    column is missing and some row has a quadkey with a character that is
    no decimal digit, or the frame has none of the measurement columns;
    otherwise it raises [ZeroDivisionError] exactly when the frame has no
    rows; otherwise it returns.  It raises nothing else, and with both
    coordinate columns it never reads a quadkey. *)
Theorem aggregate_outcome (df : DataFrame) :
  let missing :=
    negb (has_latitude (df_columns df)) || negb (has_longitude (df_columns df)) in
  let malformed (r : record) :=
    negb (forallb Quadkey.is_decimal_digit (Quadkey.chars (quadkey r))) in
  let undecodable := missing && existsb malformed (df_rows df) in
  match aggregate_data df with
  | Raise ValueError =>
      undecodable = true \/ has_measurement (df_columns df) = false
  | Raise ZeroDivisionError =>
      undecodable = false /\ has_measurement (df_columns df) = true
      /\ df_rows df = []
  | Raise IndexError => False
  | Ok _ =>
      undecodable = false /\ has_measurement (df_columns df) = true
      /\ df_rows df <> []
  end.
Proof.
  intros missing malformed undecodable. subst undecodable.
  unfold _aggregate_data. cbv zeta. fold missing.
  assert (Hlog : forall rows : list record,
            List.length rows = List.length (df_rows df) ->
            match (aggregated <- agg_checked F_eqb F_compare agg_mean agg_min agg_max
                                   agg_std (df_columns df) rows ;;
                   _ <- log_ratio (100 * Excel.len aggregated) (Excel.len rows) ;;
                   Ok aggregated) with
            | Raise ValueError => has_measurement (df_columns df) = false
            | Raise ZeroDivisionError =>
                has_measurement (df_columns df) = true /\ df_rows df = []
            | Raise IndexError => False
            | Ok _ => has_measurement (df_columns df) = true /\ df_rows df <> []
            end).
  { intros rows Hlen. unfold agg_checked.
    destruct (has_measurement (df_columns df)); cbn [bind]; [| reflexivity].
    unfold log_ratio, Excel.len.
    destruct (Z.eqb_spec (Z.of_nat (List.length rows)) 0) as [H0 | Hn]; cbn [bind].
    - split; [reflexivity|].
      destruct (df_rows df); [reflexivity | simpl in Hlen; lia].
    - split; [reflexivity|].
      intros Hnil. rewrite Hnil in Hlen. simpl in Hlen. lia. }
  destruct missing; cbn [andb].
  - destruct (apply decode_latlon (df_rows df)) as [rows|e] eqn:Hap.
    + cbn [bind]. apply apply_Ok_iff in Hap.
      assert (Hgood : existsb malformed (df_rows df) = false).
      { destruct (existsb malformed (df_rows df)) eqn:Hex; [| reflexivity].
        apply existsb_exists in Hex. destruct Hex as (r & Hin & Hbad).
        assert (Hr : exists r', decode_latlon r = Ok r').
        { clear -Hap Hin. induction Hap as [|a b l l' Hab _ IH]; [contradiction|].
          destruct Hin as [<- | Hin]; eauto. }
        destruct Hr as [r' Hr]. unfold decode_latlon in Hr.
        pose proof (decode_quadkey_outcome (F := F) (quadkey r)) as Hq.
        unfold malformed in Hbad. apply negb_true_iff in Hbad.
        rewrite Hbad in Hq. rewrite Hq in Hr. discriminate. }
      rewrite Hgood.
      specialize (Hlog rows (eq_sym (Forall2_length_eq Hap))).
      destruct (bind _ _) as [out|[]]; try contradiction; auto.
    + cbn [bind]. destruct (apply_Raise_inv _ _ Hap) as (r & Hin & Hr).
      rewrite (decode_latlon_only_ValueError _ Hr). left.
      apply existsb_exists. exists r. split; [assumption|].
      unfold malformed. apply negb_true_iff.
      unfold decode_latlon in Hr.
      pose proof (decode_quadkey_outcome (F := F) (quadkey r)) as Hq.
      destruct (forallb _ _); [| reflexivity].
      destruct Hq as [latlon Hq]. rewrite Hq in Hr. discriminate.
  - cbn [bind]. specialize (Hlog (df_rows df) eq_refl).
    destruct (bind _ _) as [out|[]]; try contradiction; auto.
Qed.

(** The result has at least one row and at most as many as the frame. *)
Lemma aggregate_length (df : DataFrame) (out : list aggregated_row) :
  aggregate_data df = Ok out ->
  (1 <= List.length out <= List.length (df_rows df))%nat.
Proof.
  intros Hout.
  destruct (aggregate_Ok_inv df Hout) as (rows & Hrows & Hne & ->).
  assert (Hlen : List.length rows = List.length (df_rows df)).
  { destruct (negb _ || negb _); [| now subst].
    symmetry. exact (Forall2_length_eq Hrows). }
  unfold groupby_agg. rewrite length_map.
  rewrite (Permutation_length (sort_values_perm _ _ _)).
  destruct (length_unique (key_eqb F_eqb) (map (key_of (df_columns df)) rows))
    as [Hle Hnil].
  rewrite length_map, Hlen in Hle. split; [| assumption].
  destruct (unique _ _); [exfalso; apply Hnil; [| reflexivity] | simpl; lia].
  intros Hm. apply map_eq_nil in Hm. contradiction.
Qed.

(** On a frame with rows whose quadkeys decode, and with a measurement
    column, the function returns. *)
Lemma aggregate_returns (df : DataFrame) :
  df_rows df <> [] ->
  has_measurement (df_columns df) = true ->
  (forall r, In r (df_rows df) ->
     forallb Quadkey.is_decimal_digit (Quadkey.chars (quadkey r)) = true) ->
  exists out, aggregate_data df = Ok out.
Proof.
  intros Hne Hcols Hdec.
  destruct (aggregate_rows F_eqb F_compare agg_mean agg_min agg_max agg_std df)
    as [(rows & Hrows & ->) | (_ & _ & _ & r & Hin & Hbad)].
  - apply Forall2_length_eq in Hrows. unfold agg_checked. rewrite Hcols.
    cbn [bind]. unfold log_ratio, Excel.len.
    destruct (Z.eqb_spec (Z.of_nat (List.length rows)) 0) as [H0 | Hn];
      cbn [bind]; [| eauto].
    destruct (df_rows df); [contradiction | simpl in Hrows; lia].
  - rewrite (Hdec r Hin) in Hbad. discriminate.
Qed.

(** X8.  When a coordinate column is missing, the coordinates of every row
    of the result are the ones decoded from the quadkey of that row; a
    coordinate column the frame did have is not used. *)
Theorem aggregate_coordinates_decoded (df : DataFrame) (out : list aggregated_row) :
  negb (has_latitude (df_columns df)) || negb (has_longitude (df_columns df)) = true ->
  aggregate_data df = Ok out ->
  forall b, In b out ->
    Quadkey._decode_quadkey_to_latlon (k_quadkey (group b))
    = Ok (k_latitude (group b), k_longitude (group b)).
Proof.
  intros Hmissing Hout b Hb.
  destruct (aggregate_Ok_inv df Hout) as (rows & Hrows & _ & ->).
  rewrite Hmissing in Hrows.
  unfold groupby_agg in Hb. apply in_map_iff in Hb. destruct Hb as (k & <- & Hk).
  cbn [group agg].
  apply (Permutation_in _ (sort_values_perm _ _ _)) in Hk.
  apply unique_incl in Hk. apply in_map_iff in Hk. destruct Hk as (r' & <- & Hr').
  assert (Hr : exists r, decode_latlon r = Ok r').
  { clear -Hrows Hr'. induction Hrows as [|a c l l' Hac _ IH]; [contradiction|].
    destruct Hr' as [<- | Hin]; eauto. }
  destruct Hr as [r Hr]. unfold decode_latlon in Hr.
  destruct (Quadkey._decode_quadkey_to_latlon (quadkey r)) as [[lat lon]|e] eqn:Hd;
    cbn [bind] in Hr; [| discriminate].
  inversion Hr. subst r'. cbn. exact Hd.
Qed.

Hypothesis F_eqb_eq : forall a b : F, F_eqb a b = true <-> a = b.

(** X9.  The result has one row for each distinct key of the frame that
    is grouped, the rows with the decoded coordinates when the frame came
    without them: no key is on two rows, the keys are those of the rows,
    and there are at least one row and at most as many as the frame has. *)
Theorem aggregate_one_row_per_key (df : DataFrame) (out : list aggregated_row) :
  aggregate_data df = Ok out ->
  exists rows,
    Forall2 decoded (df_rows df) rows
    /\ NoDup (map group out)
    /\ (forall k, In k (map group out) <-> In k (map (key_of (df_columns df)) rows))
    /\ (1 <= List.length out <= List.length (df_rows df))%nat.
Proof.
  intros Hout.
  destruct (aggregate_Ok_inv df Hout) as (rows & Hrows & Hne & ->).
  assert (Hdec : Forall2 decoded (df_rows df) rows).
  { destruct (negb _ || negb _).
    - eapply Forall2_impl; [| exact Hrows]. apply decode_latlon_decoded.
    - subst rows. clear. induction (df_rows df); constructor; [now left | assumption]. }
  assert (Hkeys : map group
            (groupby_agg F_eqb F_compare agg_mean agg_min agg_max agg_std
               (df_columns df) rows)
          = group_keys (df_columns df) rows).
  { unfold groupby_agg. rewrite map_map. cbn [group agg]. apply map_id. }
  exists rows. split; [assumption|]. rewrite Hkeys.
  split; [apply keys_NoDup; assumption|].
  split; [apply keys_In; assumption|].
  exact (aggregate_length df Hout).
Qed.

(** X10.  [_prepare_single_file] raises what the aggregation raises.
    When the aggregation returns, the workbook has at least one sheet and
    its sheets, read in order, are the aggregated rows; for a file of at
    most 900000 rows it is the one sheet [Data]. *)
Theorem prepare_single_file_workbook (df : DataFrame) :
  match aggregate_data df with
  | Raise e =>
      Prepare._prepare_single_file F_eqb F_compare agg_mean agg_min agg_max agg_std df
      = Raise e
  | Ok aggregated =>
      exists wb,
        Prepare._prepare_single_file F_eqb F_compare agg_mean agg_min agg_max agg_std df
        = Ok wb
        /\ List.concat (map snd wb) = aggregated
        /\ wb <> []
        /\ (Excel.len (df_rows df) <= Config.excel_row_limit ->
            wb = [("Data"%string, aggregated)])
  end.
Proof.
  unfold Prepare._prepare_single_file.
  destruct (aggregate_data df) as [aggregated|e] eqn:Hagg; cbn [bind]; [| reflexivity].
  pose proof (aggregate_length df Hagg) as Hlen.
  eexists. split; [reflexivity|].
  split; [apply sheets_concat|].
  split.
  - intros Hnil. pose proof (sheets_concat aggregated "Data") as Hc.
    rewrite Hnil in Hc. cbn in Hc. subst aggregated. simpl in Hlen. lia.
  - intros Hsmall. apply sheets_of_small_frame. unfold Excel.len in *. lia.
Qed.

End AggregateOutcomes.

Section AggregateOrder.
Import Aggregate.

#[export] Instance option_order {A : Type} (cmp : A -> A -> comparison) :
  CmpOrder cmp -> CmpOrder (option_compare cmp).
Proof.
  intros H. split.
  - intros [x|] [y|]; simpl; split; intros H'; try discriminate; try reflexivity.
    + apply cmp_eq in H'. congruence.
    + inversion H'. now apply cmp_eq.
  - intros [x|] [y|]; simpl; try reflexivity. apply cmp_opp.
  - intros [x|] [y|] [z|]; simpl; try discriminate; try reflexivity.
    apply cmp_lt_trans.
Qed.


Context {F : Type}.
Variable F_compare : F -> F -> comparison.
Context {F_order : CmpOrder F_compare}.



End AggregateOrder.


Section AggregateSorted.
Import Aggregate.
Context {F : Type} {ops : PyFloat F}.
Variable F_eqb : F -> F -> bool.
Variable F_compare : F -> F -> comparison.
Variables agg_mean agg_min agg_max agg_std : list F -> F.
Hypothesis F_eqb_eq : forall a b : F, F_eqb a b = true <-> a = b.
Context {F_order : CmpOrder F_compare}.

Local Abbreviation grouped :=
  (groupby_agg F_eqb F_compare agg_mean agg_min agg_max agg_std).





End AggregateSorted.

Section AggregateMoreWitnesses.
Import Aggregate.

#[export] Instance R_order : CmpOrder R_compare.
Proof.
  split.
  - intros a b. unfold R_compare.
    destruct (Rlt_dec a b); [split; [discriminate | lra]|].
    destruct (Req_dec_T a b); [tauto | split; [discriminate | contradiction]].
  - intros a b. unfold R_compare.
    destruct (Rlt_dec a b), (Rlt_dec b a), (Req_dec_T a b), (Req_dec_T b a);
      try reflexivity; lra.
  - intros a b c. unfold R_compare.
    destruct (Rlt_dec a b); [| destruct (Req_dec_T a b); discriminate].
    destruct (Rlt_dec b c); [| destruct (Req_dec_T b c); discriminate].
    destruct (Rlt_dec a c); [reflexivity | lra].
Qed.

Local Abbreviation aggregate_tiles :=
  (_aggregate_data R_eqb R_compare R_mean R_min R_max R_std
     {| df_columns := downloaded_columns; df_rows := two_tiles |}).

Lemma two_tiles_decimal (r : record (F := R)) :
  In r two_tiles ->
  forallb Quadkey.is_decimal_digit (Quadkey.chars (quadkey r)) = true.
Proof. intros [<- | [<- | [<- | []]]]; reflexivity. Qed.

Lemma aggregate_coordinates_decoded_witness :
  exists out,
    aggregate_tiles = Ok out
    /\ forall b, In b out ->
         Quadkey._decode_quadkey_to_latlon (k_quadkey (group b))
         = Ok (k_latitude (group b), k_longitude (group b)).
Proof.
  destruct (aggregate_returns R_eqb R_compare R_mean R_min R_max R_std
              {| df_columns := downloaded_columns; df_rows := two_tiles |})
    as [out Hout]; [discriminate | reflexivity | exact two_tiles_decimal |].
  exists out. split; [exact Hout|].
  exact (aggregate_coordinates_decoded R_eqb R_compare R_mean R_min R_max R_std
           {| df_columns := downloaded_columns; df_rows := two_tiles |}
           eq_refl Hout).
Defined.

Lemma aggregate_one_row_per_key_witness :
  exists out,
    aggregate_tiles = Ok out
    /\ NoDup (map group out)
    /\ (1 <= List.length out <= 3)%nat.
Proof.
  destruct (aggregate_returns R_eqb R_compare R_mean R_min R_max R_std
              {| df_columns := downloaded_columns; df_rows := two_tiles |})
    as [out Hout]; [discriminate | reflexivity | exact two_tiles_decimal |].
  exists out. split; [exact Hout|].
  destruct (aggregate_one_row_per_key R_eqb R_compare R_mean R_min R_max R_std
              R_eqb_eq {| df_columns := downloaded_columns; df_rows := two_tiles |}
              Hout) as (rows & _ & Hnd & _ & Hlen).
  split; assumption.
Defined.


End AggregateMoreWitnesses.

Lemma prepare_single_file_workbook_witness :
  exists aggregated,
    Aggregate._aggregate_data Aggregate.R_eqb Aggregate.R_compare Aggregate.R_mean
      Aggregate.R_min Aggregate.R_max Aggregate.R_std
      {| Aggregate.df_columns := Aggregate.downloaded_columns;
         Aggregate.df_rows := Aggregate.two_tiles |} = Ok aggregated
    /\ Prepare._prepare_single_file Aggregate.R_eqb Aggregate.R_compare
         Aggregate.R_mean Aggregate.R_min Aggregate.R_max Aggregate.R_std
         {| Aggregate.df_columns := Aggregate.downloaded_columns;
            Aggregate.df_rows := Aggregate.two_tiles |}
       = Ok [("Data"%string, aggregated)].
Proof.
  destruct (aggregate_returns Aggregate.R_eqb Aggregate.R_compare Aggregate.R_mean
              Aggregate.R_min Aggregate.R_max Aggregate.R_std
              {| Aggregate.df_columns := Aggregate.downloaded_columns;
                 Aggregate.df_rows := Aggregate.two_tiles |})
    as [out Hout]; [discriminate | reflexivity | exact two_tiles_decimal |].
  exists out. split; [exact Hout|].
  pose proof (prepare_single_file_workbook Aggregate.R_eqb Aggregate.R_compare
                Aggregate.R_mean Aggregate.R_min Aggregate.R_max Aggregate.R_std
                {| Aggregate.df_columns := Aggregate.downloaded_columns;
                   Aggregate.df_rows := Aggregate.two_tiles |}) as H.
  rewrite Hout in H. destruct H as (wb & Hwb & _ & _ & Hsmall).
  rewrite Hwb, Hsmall; [reflexivity | discriminate].
Defined.


(** ** More on the comparison *)

Section ComparisonOutcomes.
Import Comparison.
Variable mean : list float -> float.

Lemma cell_eqb_refl (z : Z) : cell_eqb (Some z) (Some z) = true.
Proof. apply Z.eqb_refl. Qed.

Lemma cell_eqb_None (a : option Z) : cell_eqb a None = false.
Proof. now destruct a. Qed.

(** A period with a missing year or quarter has no rows: a missing value
    equals nothing; a period with both has the row it was read from. *)
Lemma baseline_rows_nil_iff (df : list bin) (baseline_year baseline_quarter : option Z) :
  baseline_period df = Ok (baseline_year, baseline_quarter) ->
  (baseline_rows df baseline_year baseline_quarter = []
   <-> baseline_year = None \/ baseline_quarter = None).
Proof.
  intros Hp. split.
  - intros Hnil.
    destruct baseline_year as [y|]; [| now left].
    destruct baseline_quarter as [q|]; [| now right].
    exfalso.
    destruct (baseline_period_first df Hp) as (r0 & rest & Hsort & Hkey).
    assert (Hin : In r0 df).
    { apply (Permutation_in _ (sort_values_perm period_compare period_key df)).
      rewrite Hsort. now left. }
    assert (Hr0 : In r0 (baseline_rows df (Some y) (Some q))).
    { unfold baseline_rows. apply filter_In. split; [assumption|].
      unfold period_key in Hkey. injection Hkey as Hy Hq.
      rewrite Hy, Hq, !cell_eqb_refl. reflexivity. }
    rewrite Hnil in Hr0. contradiction.
  - intros Hnone. unfold baseline_rows.
    destruct (filter _ df) as [|r l] eqn:Hf; [reflexivity|].
    assert (Hr : In r (filter (fun r => cell_eqb (year r) baseline_year
                                        && cell_eqb (quarter r) baseline_quarter) df))
      by (rewrite Hf; now left).
    apply filter_In in Hr. destruct Hr as [_ Hr]. apply andb_true_iff in Hr.
    destruct Hr as [Hy Hq].
    destruct Hnone as [-> | ->];
      [rewrite cell_eqb_None in Hy | rewrite cell_eqb_None in Hq]; discriminate.
Qed.

(** What [_create_comparison_file] does, by the frame and its earliest
    period. *)
Lemma create_comparison_file_cases (df : list bin) :
  match _create_comparison_file mean df with
  | Raise e => e = IndexError /\ df = []
  | Ok None =>
      df <> [] /\ exists baseline_year baseline_quarter,
        baseline_period df = Ok (baseline_year, baseline_quarter)
        /\ (baseline_year = None \/ baseline_quarter = None)
  | Ok (Some _) =>
      df <> [] /\ exists y q, baseline_period df = Ok (Some y, Some q)
  end.
Proof.
  destruct df as [|r df'].
  - split; reflexivity.
  - set (df := r :: df').
    destruct (baseline_period_nonempty (df := df) ltac:(discriminate))
      as [[baseline_year baseline_quarter] Hp].
    pose proof (baseline_rows_nil_iff df Hp) as Hnil.
    unfold _create_comparison_file. rewrite Hp. cbn [bind].
    unfold Excel.len.
    destruct (baseline_rows df baseline_year baseline_quarter) as [|b l] eqn:Hb.
    + cbn. split; [discriminate|]. exists baseline_year, baseline_quarter.
      split; [reflexivity | now apply Hnil].
    + change (Z.of_nat (List.length (b :: l)) =? 0) with false. cbv iota.
      split; [discriminate|].
      destruct baseline_year as [y|];
        [| exfalso; assert (b :: l = []) by (apply Hnil; now left); discriminate].
      destruct baseline_quarter as [q|];
        [| exfalso; assert (b :: l = []) by (apply Hnil; now right); discriminate].
      now exists y, q.
Qed.

(** The period of the first row in (year, quarter) order is the period of
    a row. *)
Lemma baseline_period_In (df : list bin) (baseline_year baseline_quarter : option Z) :
  baseline_period df = Ok (baseline_year, baseline_quarter) ->
  exists r, In r df /\ year r = baseline_year /\ quarter r = baseline_quarter.
Proof.
  intros Hp.
  destruct (baseline_period_first df Hp) as (r0 & rest & Hsort & Hkey).
  exists r0. split.
  - apply (Permutation_in _ (sort_values_perm period_compare period_key df)).
    rewrite Hsort. now left.
  - unfold period_key in Hkey. now inversion Hkey.
Qed.

(** X12.  On a frame with no rows [_create_comparison_file] raises
    [IndexError], from [iloc[0]].  On a frame with rows it raises nothing,
    and it returns [None] without writing exactly when the earliest period
    lacks its year or its quarter; so a frame with rows that all have year
    and quarter always gets its comparison workbook. *)
Theorem create_comparison_file_outcome (df : list bin) :
  match _create_comparison_file mean df with
  | Raise e => e = IndexError /\ df = []
  | Ok None =>
      df <> [] /\ exists baseline_year baseline_quarter,
        baseline_period df = Ok (baseline_year, baseline_quarter)
        /\ (baseline_year = None \/ baseline_quarter = None)
  | Ok (Some _) =>
      df <> [] /\ exists y q, baseline_period df = Ok (Some y, Some q)
  end
  /\ (df <> [] ->
      (forall r, In r df -> year r <> None /\ quarter r <> None) ->
      exists wb, _create_comparison_file mean df = Ok (Some wb)).
Proof.
  pose proof (create_comparison_file_cases df) as Hmain.
  split; [exact Hmain|].
  intros Hne Hall.
  destruct (_create_comparison_file mean df) as [[wb|]|e].
  - eauto.
  - exfalso. destruct Hmain as (_ & baseline_year & baseline_quarter & Hp & Hnone).
    destruct (baseline_period_In df Hp) as (r0 & Hin & Hy & Hq).
    destruct (Hall r0 Hin). destruct Hnone; congruence.
  - exfalso. destruct Hmain as [_ Hnil]. contradiction.
Qed.

End ComparisonOutcomes.

Lemma create_comparison_file_outcome_witness :
  exists wb,
    Comparison._create_comparison_file Comparison.mean_skipna Comparison.gap_fixture
    = Ok (Some wb).
Proof.
  apply (proj2 (create_comparison_file_outcome Comparison.mean_skipna
                  Comparison.gap_fixture)).
  - discriminate.
  - intros r [<- | [<- | []]]; split; discriminate.
Defined.

Section BaselineChange.
Import Comparison.
Variable mean : list float -> float.

(** A finite value that is not zero, against itself. *)
Lemma percent_change_self (x : float) :
  is_finite x = true -> is_zero x = false ->
  is_zero (percent_change x x) = true.
Proof.
  intros Hfin Hnz. apply is_zero_iff.
  unfold percent_change. rewrite mul_spec, div_spec, sub_spec.
  change (Prim2SF 100) with (S754_finite false 7036874417766400 (-46)).
  destruct (Prim2SF x) as [s | s | | s m e] eqn:Hx.
  - assert (is_zero x = true) by (apply is_zero_iff; eauto). congruence.
  - assert (is_infinity x = true) by (apply is_infinity_iff; eauto).
    unfold is_finite in Hfin. rewrite H, orb_true_r in Hfin. discriminate.
  - assert (is_nan x = true) by (now apply is_nan_iff).
    unfold is_finite in Hfin. rewrite H in Hfin. discriminate.
  - unfold SF64mul, SF64div, SF64sub, SFsub. cbv zeta.
    rewrite Z.sub_diag. cbn [binary_normalize SFdiv SFmul]. eauto.
Qed.

(** X13.  A tile with one row in the baseline period, the row itself,
    has the percent changes zero on that row, when its two speeds are
    finite and not zero and the mean of one value is that value. *)
Theorem baseline_row_has_zero_change (df : list bin) wb (r : comparison_row)
    (baseline_year baseline_quarter : option Z) :
  _create_comparison_file mean df = Ok (Some wb) ->
  In r (List.concat (map snd wb)) ->
  baseline_period df = Ok (baseline_year, baseline_quarter) ->
  filter (fun b => String.eqb (quadkey b) (quadkey (base r)))
         (baseline_rows df baseline_year baseline_quarter) = [base r] ->
  mean [avg_d_kbps_mean (base r)] = avg_d_kbps_mean (base r) ->
  mean [avg_u_kbps_mean (base r)] = avg_u_kbps_mean (base r) ->
  is_finite (avg_d_kbps_mean (base r)) = true ->
  is_zero (avg_d_kbps_mean (base r)) = false ->
  is_finite (avg_u_kbps_mean (base r)) = true ->
  is_zero (avg_u_kbps_mean (base r)) = false ->
  is_zero (d_kbps_pct_change r) = true /\ is_zero (u_kbps_pct_change r) = true.
Proof.
  intros Hwb Hin Hp Hgroup Hmd Hmu Hfd Hzd Hfu Hzu.
  destruct (create_comparison_file_inv mean df Hwb) as (y & q & Hp' & _ & Hrows).
  rewrite Hp in Hp'. inversion Hp'; subst y q. clear Hp'.
  rewrite Hrows in Hin.
  destruct (comparison_frame_In mean _ _ _ Hin) as (b & prev & Hb & Hr).
  pose proof (merge_row_baseline mean (baseline_rows df baseline_year baseline_quarter) b)
    as Hbase. cbv zeta in Hbase.
  assert (Hbin : base r = b).
  { rewrite Hr. cbn [base add_changes]. unfold merge_row.
    now destruct (find _ _) as [[k [bd bu]]|]. }
  rewrite Hbin in *. rewrite Hgroup in Hbase. cbn [map] in Hbase.
  rewrite Hmd, Hmu in Hbase. injection Hbase as Hd Hu.
  rewrite Hr. cbn [d_kbps_pct_change u_kbps_pct_change add_changes].
  assert (Hpd : m_d_kbps_pct_change (merge_row (baseline_metrics mean
                   (baseline_rows df baseline_year baseline_quarter)) b)
                = percent_change (avg_d_kbps_mean b) (avg_d_kbps_mean b)).
  { rewrite <- Hd at 2. unfold merge_row. now destruct (find _ _) as [[k [bd bu]]|]. }
  assert (Hpu : m_u_kbps_pct_change (merge_row (baseline_metrics mean
                   (baseline_rows df baseline_year baseline_quarter)) b)
                = percent_change (avg_u_kbps_mean b) (avg_u_kbps_mean b)).
  { rewrite <- Hu at 2. unfold merge_row. now destruct (find _ _) as [[k [bd bu]]|]. }
  rewrite Hpd, Hpu. split; apply percent_change_self; assumption.
Qed.

End BaselineChange.

Lemma baseline_row_has_zero_change_witness :
  exists wb r,
    Comparison._create_comparison_file Comparison.mean_skipna Comparison.gap_fixture
    = Ok (Some wb)
    /\ nth_error (List.concat (map snd wb)) 0 = Some r
    /\ Comparison.base r = Comparison.row7 2024 1 100 100
    /\ is_zero (Comparison.d_kbps_pct_change r) = true
    /\ is_zero (Comparison.u_kbps_pct_change r) = true.
Proof.
  eexists. eexists.
  split; [vm_compute; reflexivity|].
  split; [vm_compute; reflexivity|].
  split; [reflexivity|].
  refine (baseline_row_has_zero_change Comparison.mean_skipna Comparison.gap_fixture
            (baseline_year := Some 2024) (baseline_quarter := Some 1)
            _ _ _ _ _ _ _ _ _ _ _).
  - vm_compute. reflexivity.
  - vm_compute. left. reflexivity.
  - reflexivity.
  - reflexivity.
  - reflexivity.
  - reflexivity.
  - reflexivity.
  - reflexivity.
  - reflexivity.
  - reflexivity.
Defined.


(** ** Exporting the combined frame *)

Section ExportFacts.
Import Comparison Prepare.
Variable mean : list float -> float.

Lemma complete_periods_In (df : list bin) (y q : Z) :
  In (y, q) (complete_periods df)
  <-> exists r, In r df /\ year r = Some y /\ quarter r = Some q.
Proof.
  unfold complete_periods. rewrite in_flat_map. split.
  - intros (r & Hr & Hin). exists r. split; [assumption|].
    destruct (year r) as [y'|], (quarter r) as [q'|]; try contradiction.
    destruct Hin as [Heq | []]. inversion Heq. now subst.
  - intros (r & Hr & Hy & Hq). exists r. split; [assumption|].
    rewrite Hy, Hq. now left.
Qed.

Lemma period_eqb_eq (a b : Z * Z) : period_eqb a b = true <-> a = b.
Proof.
  destruct a as [y q], b as [y' q']. unfold period_eqb. cbn [fst snd].
  rewrite andb_true_iff, !Z.eqb_eq. split; [intros [-> ->]; reflexivity|].
  intros H. inversion H. split; reflexivity.
Qed.

(** More than one period: two rows with a year and a quarter and not the
    same period. *)
Lemma several_periods_iff (df : list bin) :
  1 < Excel.len (time_periods df)
  <-> exists r r' y q y' q',
        In r df /\ In r' df
        /\ year r = Some y /\ quarter r = Some q
        /\ year r' = Some y' /\ quarter r' = Some q'
        /\ (y, q) <> (y', q').
Proof.
  unfold time_periods, Excel.len.
  pose proof (unique_NoDup period_eqb period_eqb_eq (complete_periods df)) as Hnd.
  pose proof (unique_In_iff period_eqb period_eqb_eq (complete_periods df)) as Hin.
  destruct (unique period_eqb (complete_periods df)) as [|[y q] [|[y' q'] l]].
  - split; [simpl; lia|].
    intros (r & r' & y & q & y' & q' & Hr & _ & Hy & Hq & _).
    assert (H0 : In (y, q) []) by (apply Hin, complete_periods_In; eauto).
    contradiction.
  - split; [simpl; lia|].
    intros (r & r' & y1 & q1 & y2 & q2 & Hr & Hr' & Hy & Hq & Hy' & Hq' & Hne).
    assert (H1 : In (y1, q1) [(y, q)]) by (apply Hin, complete_periods_In; eauto).
    assert (H2 : In (y2, q2) [(y, q)]) by (apply Hin, complete_periods_In; eauto).
    destruct H1 as [H1 | []], H2 as [H2 | []]. exfalso. congruence.
  - split; [| simpl; lia]. intros _.
    assert (H1 : In (y, q) (complete_periods df)) by (apply Hin; now left).
    assert (H2 : In (y', q') (complete_periods df)) by (apply Hin; right; now left).
    apply complete_periods_In in H1, H2.
    destruct H1 as (r & Hr & Hy & Hq), H2 as (r' & Hr' & Hy' & Hq').
    exists r, r', y, q, y', q'. repeat split; try assumption.
    intros Heq. inversion Hnd as [|p l' Hout _]; subst.
    apply Hout. rewrite Heq. now left.
Qed.

(** X14.  [_export_to_excel] raises nothing of [_create_comparison_file];
    it raises [AttributeError], from [stat] on [None], exactly when the
    frame has more than one period among the rows with year and quarter
    and its earliest row, missing values last, lacks year or quarter.
    Otherwise it returns, with a comparison workbook exactly when there is
    more than one such period.  A frame whose rows all have year and
    quarter is always exported. *)
Theorem export_to_excel_outcome (df : list bin) :
  match _export_to_excel mean df with
  | Raised e =>
      e = AttributeError
      /\ 1 < Excel.len (time_periods df)
      /\ exists baseline_year baseline_quarter,
           baseline_period df = Ok (baseline_year, baseline_quarter)
           /\ (baseline_year = None \/ baseline_quarter = None)
  | Returned files =>
      match comparison files with
      | None => Excel.len (time_periods df) <= 1
      | Some None => False
      | Some (Some _) =>
          1 < Excel.len (time_periods df)
          /\ exists y q, baseline_period df = Ok (Some y, Some q)
      end
  end
  /\ ((forall r, In r df -> year r <> None /\ quarter r <> None) ->
      exists files, _export_to_excel mean df = Returned files)
  /\ _export_to_excel mean_skipna early_row_without_quarter = Raised AttributeError.
Proof.
  assert (Hmain :
    match _export_to_excel mean df with
    | Raised e =>
        e = AttributeError
        /\ 1 < Excel.len (time_periods df)
        /\ exists baseline_year baseline_quarter,
             baseline_period df = Ok (baseline_year, baseline_quarter)
             /\ (baseline_year = None \/ baseline_quarter = None)
    | Returned files =>
        match comparison files with
        | None => Excel.len (time_periods df) <= 1
        | Some None => False
        | Some (Some _) =>
            1 < Excel.len (time_periods df)
            /\ exists y q, baseline_period df = Ok (Some y, Some q)
        end
    end).
  { unfold _export_to_excel. cbv zeta.
    destruct (Z.ltb_spec 1 (Excel.len (time_periods df))) as [Hmany | Hfew].
    - pose proof (create_comparison_file_cases mean df) as Hc.
      destruct (_create_comparison_file mean df) as [[wb|]|e]; cbn [bind comparison].
      + split; [assumption | apply Hc].
      + split; [reflexivity|]. split; [assumption | apply Hc].
      + exfalso. destruct Hc as [_ ->]. cbn in Hmany. lia.
    - cbn [comparison]. assumption. }
  split; [exact Hmain|]. split; [| vm_compute; reflexivity].
  intros Hall.
  destruct (_export_to_excel mean df) as [files|e]; [eauto|].
  exfalso. destruct Hmain as (_ & _ & baseline_year & baseline_quarter & Hp & Hnone).
  destruct (baseline_period_In df Hp) as (r0 & Hin & Hy & Hq).
  destruct (Hall r0 Hin). destruct Hnone; congruence.
Qed.

Lemma rows_of_type_nil_iff (t : string) (df : list bin) :
  rows_of_type t df = [] <-> forall r, In r df -> data_type r <> t.
Proof.
  unfold rows_of_type. split.
  - intros Hnil r Hr Ht.
    assert (Hin : In r (filter (fun r => String.eqb (data_type r) t) df))
      by (apply filter_In; split; [assumption | now apply String.eqb_eq]).
    rewrite Hnil in Hin. contradiction.
  - intros Hall. induction df as [|r df IH]; [reflexivity|]. cbn [filter].
    destruct (String.eqb_spec (data_type r) t) as [Ht | _].
    + exfalso. apply (Hall r); [now left | assumption].
    + apply IH. intros r' Hr'. apply Hall. now right.
Qed.

(** X15.  In the files [_export_to_excel] returns, the sheets of the
    combined workbook, read in order, are the frame.  There is a mobile
    workbook exactly when a row has the data type [mobile], and its sheets
    are those rows in frame order; the same holds for [fixed].  No row is
    in both, and a row of another data type is in the combined workbook
    only. *)
Theorem export_to_excel_data_type_files (df : list bin) (files : output_files) :
  _export_to_excel mean df = Returned files ->
  List.concat (map snd (combined files)) = df
  /\ match mobile files with
     | Some wb =>
         List.concat (map snd wb) = rows_of_type "mobile" df
         /\ exists r, In r df /\ data_type r = "mobile"%string
     | None => forall r, In r df -> data_type r <> "mobile"%string
     end
  /\ match fixed files with
     | Some wb =>
         List.concat (map snd wb) = rows_of_type "fixed" df
         /\ exists r, In r df /\ data_type r = "fixed"%string
     | None => forall r, In r df -> data_type r <> "fixed"%string
     end
  /\ (forall r, In r (rows_of_type "mobile" df) -> ~ In r (rows_of_type "fixed" df))
  /\ (List.length (rows_of_type "mobile" df) + List.length (rows_of_type "fixed" df)
      <= List.length df)%nat.
Proof.
  intros Hfiles.
  assert (Hshape : combined files = Excel._create_excel_file df "All Data"
            /\ mobile files
               = (if 0 <? Excel.len (rows_of_type "mobile" df)
                  then Some (Excel._create_excel_file (rows_of_type "mobile" df) "Mobile")
                  else None)
            /\ fixed files
               = (if 0 <? Excel.len (rows_of_type "fixed" df)
                  then Some (Excel._create_excel_file (rows_of_type "fixed" df) "Fixed")
                  else None)).
  { unfold _export_to_excel in Hfiles. cbv zeta in Hfiles.
    destruct (if 1 <? _ then _ else _) as [[[c|]|]|e]; try discriminate;
      inversion Hfiles; repeat split. }
  destruct Hshape as (-> & -> & ->).
  assert (Htype : forall t wb,
    (if 0 <? Excel.len (rows_of_type t df)
     then Some (Excel._create_excel_file (rows_of_type t df) wb) else None)
    = (if 0 <? Excel.len (rows_of_type t df)
       then Some (Excel._create_excel_file (rows_of_type t df) wb) else None) ->
    match (if 0 <? Excel.len (rows_of_type t df)
           then Some (Excel._create_excel_file (rows_of_type t df) wb) else None) with
    | Some wb' =>
        List.concat (map snd wb') = rows_of_type t df
        /\ exists r, In r df /\ data_type r = t
    | None => forall r, In r df -> data_type r <> t
    end).
  { intros t wb _. unfold Excel.len.
    destruct (rows_of_type t df) as [|r l] eqn:Hrows.
    - cbn. now apply rows_of_type_nil_iff.
    - change (0 <? Z.of_nat (List.length (r :: l))) with true. cbv iota.
      split; [apply sheets_concat|]. exists r.
      assert (Hin : In r (rows_of_type t df)) by (rewrite Hrows; now left).
      unfold rows_of_type in Hin. apply filter_In in Hin.
      destruct Hin as [Hin Ht]. apply String.eqb_eq in Ht. now split. }
  split; [apply sheets_concat|].
  split; [now apply Htype|]. split; [now apply Htype|]. split.
  - intros r Hm Hf. unfold rows_of_type in Hm, Hf.
    apply filter_In in Hm, Hf. destruct Hm as [_ Hm], Hf as [_ Hf].
    apply String.eqb_eq in Hm, Hf. rewrite Hm in Hf. discriminate.
  - unfold rows_of_type. clear. induction df as [|r df IH]; [simpl; lia|].
    cbn [filter].
    destruct (String.eqb_spec (data_type r) "mobile") as [Hm | _];
      destruct (String.eqb_spec (data_type r) "fixed") as [Hf | _];
      cbn [List.length]; try lia.
    rewrite Hm in Hf. discriminate.
Qed.

End ExportFacts.

Lemma export_to_excel_data_type_files_witness :
  exists files,
    Prepare._export_to_excel Comparison.mean_skipna Comparison.gap_fixture
    = Prepare.Returned files
    /\ List.concat (map snd (Prepare.combined files)) = Comparison.gap_fixture.
Proof.
  eexists. split; [vm_compute; reflexivity|].
  refine (proj1 (export_to_excel_data_type_files Comparison.mean_skipna
                   Comparison.gap_fixture _)).
  vm_compute. reflexivity.
Defined.

Lemma export_to_excel_outcome_witness :
  exists files,
    Prepare._export_to_excel Comparison.mean_skipna Comparison.gap_fixture
    = Prepare.Returned files.
Proof.
  apply (proj1 (proj2 (export_to_excel_outcome Comparison.mean_skipna
                         Comparison.gap_fixture))).
  intros r [<- | [<- | []]]; split; discriminate.
Defined.


(** ** Configuration and the validation of a download *)

Section ConfigFacts.
Import Config.

Lemma contains_int_In (x : Z) (l : list Z) : contains_int x l = true <-> In x l.
Proof.
  unfold contains_int. rewrite existsb_exists. split.
  - intros (y & Hy & Heq). apply Z.eqb_eq in Heq. now subst.
  - intros Hin. exists x. split; [assumption | apply Z.eqb_refl].
Qed.

Lemma contains_str_In (x : string) (l : list string) :
  contains_str x l = true <-> In x l.
Proof.
  unfold contains_str. rewrite existsb_exists. split.
  - intros (y & Hy & Heq). apply String.eqb_eq in Heq. now subst.
  - intros Hin. exists x. split; [assumption | apply String.eqb_refl].
Qed.

(** [range(start, stop)] has the ints from [start] to [stop - 1]. *)
Lemma list_range_In (start stop x : Z) :
  In x (list_range start stop) <-> start <= x < stop.
Proof.
  unfold list_range. rewrite in_map_iff. split.
  - intros (i & <- & Hi). apply in_seq in Hi. lia.
  - intros Hx. exists (Z.to_nat (x - start)). split; [lia|].
    apply in_seq. lia.
Qed.

Lemma valid_year_iff (year : Z) :
  contains_int year available_years = true <-> 2019 <= year <= 2025.
Proof.
  rewrite contains_int_In. unfold available_years. rewrite list_range_In. lia.
Qed.

Lemma valid_quarter_iff (quarter : Z) :
  contains_int quarter available_quarters = true <-> 1 <= quarter <= 4.
Proof.
  rewrite contains_int_In. unfold available_quarters. simpl. lia.
Qed.

Lemma valid_data_type_iff (data_type : string) :
  contains_str data_type data_types = true
  <-> data_type = "mobile"%string \/ data_type = "fixed"%string.
Proof.
  rewrite contains_str_In. unfold data_types. simpl.
  intuition congruence.
Qed.

(** X16.  [validate_year_quarter] returns [True] exactly for a year from
    2019 to 2025 and a quarter from 1 to 4, and raises [ValueError] for any
    other pair; it never returns [False]. *)
Theorem validate_year_quarter_outcome (year quarter : Z) :
  (validate_year_quarter year quarter = Ok true
   <-> 2019 <= year <= 2025 /\ 1 <= quarter <= 4)
  /\ (validate_year_quarter year quarter = Raise ValueError
      <-> ~ (2019 <= year <= 2025 /\ 1 <= quarter <= 4))
  /\ validate_year_quarter year quarter <> Ok false.
Proof.
  unfold validate_year_quarter.
  pose proof (valid_year_iff year) as Hy.
  pose proof (valid_quarter_iff quarter) as Hq.
  destruct (contains_int year available_years);
    destruct (contains_int quarter available_quarters); cbn [negb];
    (split; [| split]); try discriminate;
    split; intros H; try discriminate; try reflexivity; intuition lia.
Qed.

Lemma get_region_info_In (region_key : string) (info : region) :
  get_region_info region_key = Ok info -> In (region_key, info) REGION_PRESETS.
Proof.
  unfold get_region_info.
  destruct (find _ REGION_PRESETS) as [[k i]|] eqn:Hf; [| discriminate].
  apply find_some in Hf. destruct Hf as [Hin Hk]. cbn [fst] in Hk.
  apply String.eqb_eq in Hk. subst k. intros H. inversion H. now subst.
Qed.

(** The presets, checked one against the other. *)
Lemma presets_checked :
  forallb (fun a =>
    String.eqb (country (snd a)) "Indonesia"
    && negb (Nat.eqb (List.length (provinces (snd a))) 0)
    && forallb (fun b =>
         String.eqb (fst a) (fst b)
         || forallb (fun p => negb (existsb (String.eqb p) (provinces (snd b))))
              (provinces (snd a)))
       REGION_PRESETS)
    REGION_PRESETS = true.
Proof. vm_compute. reflexivity. Qed.

Lemma presets_NoDup :
  Forall (fun a => NoDup (provinces (snd a))) REGION_PRESETS.
Proof.
  repeat constructor; cbn [provinces snd In]; intuition discriminate.
Qed.

(** X17.  Every region [get_region_info] returns is in Indonesia and has
    a list of provinces that is not empty and names no province twice, and
    the regions of two different keys have no province in common. *)
Theorem region_presets_disjoint (region_key region_key' : string)
    (info info' : region) :
  get_region_info region_key = Ok info ->
  get_region_info region_key' = Ok info' ->
  country info = "Indonesia"%string
  /\ provinces info <> []
  /\ NoDup (provinces info)
  /\ (region_key <> region_key' ->
      forall province, In province (provinces info) ->
                       ~ In province (provinces info')).
Proof.
  intros H H'. apply get_region_info_In in H, H'.
  pose proof presets_checked as Hall. rewrite forallb_forall in Hall.
  specialize (Hall _ H). cbn [fst snd] in Hall.
  rewrite !andb_true_iff in Hall. destruct Hall as [[Hc Hn] Hpair].
  split; [now apply String.eqb_eq|].
  split.
  { intros Hnil. rewrite Hnil in Hn. discriminate. }
  split.
  { pose proof presets_NoDup as Hnd. rewrite Forall_forall in Hnd.
    exact (Hnd _ H). }
  intros Hne province Hin Hin'.
  rewrite forallb_forall in Hpair. specialize (Hpair _ H'). cbn [fst snd] in Hpair.
  apply orb_true_iff in Hpair. destruct Hpair as [Hk | Hdis].
  - apply String.eqb_eq in Hk. contradiction.
  - rewrite forallb_forall in Hdis. specialize (Hdis _ Hin).
    apply negb_true_iff in Hdis.
    assert (Hex : existsb (String.eqb province) (provinces info') = true).
    { apply existsb_exists. exists province. split; [assumption | apply String.eqb_refl]. }
    congruence.
Qed.

Lemma region_presets_disjoint_witness :
  exists info info',
    get_region_info "indonesia_java" = Ok info
    /\ get_region_info "indonesia_papua" = Ok info'
    /\ forall province, In province (provinces info) ->
                        ~ In province (provinces info').
Proof.
  eexists. eexists. split; [reflexivity|]. split; [reflexivity|].
  refine (proj2 (proj2 (proj2 (region_presets_disjoint
            "indonesia_java" "indonesia_papua" eq_refl eq_refl))) _).
  discriminate.
Defined.

End ConfigFacts.

Section DownloadFacts.
Import Config Download.
Variables GeoDataFrame Exception : Type.
Variable fetch : region -> Z -> Z -> string -> Exception + option GeoDataFrame.

(** X18.  [download] raises only [ValueError], and exactly when no region
    is set, the year is not one of 2019 to 2025, the quarter is not one of
    1 to 4, or the data type is neither [mobile] nor [fixed].  Otherwise it
    returns what the download gave, and [None] when the download raised:
    no exception of the download leaves the function. *)
Theorem download_outcome (region_info : option region) (year quarter : Z)
    (data_type : string) :
  let valid :=
    region_info <> None
    /\ 2019 <= year <= 2025 /\ 1 <= quarter <= 4
    /\ (data_type = "mobile"%string \/ data_type = "fixed"%string) in
  match download fetch region_info year quarter data_type with
  | Raise e => e = ValueError /\ ~ valid
  | Ok gdf_result =>
      valid
      /\ exists info, region_info = Some info
           /\ gdf_result = match fetch info year quarter data_type with
                           | inr r => r
                           | inl _ => None
                           end
  end.
Proof.
  intros valid. unfold download, validate_year_quarter.
  destruct region_info as [info|]; [| split; [reflexivity|]; intros [H _]; congruence].
  pose proof (valid_year_iff year) as Hy.
  pose proof (valid_quarter_iff quarter) as Hq.
  pose proof (valid_data_type_iff data_type) as Ht.
  destruct (contains_int year available_years); cbn [negb bind];
    [| split; [reflexivity|]; intros (_ & H & _); apply Hy in H; discriminate].
  destruct (contains_int quarter available_quarters); cbn [negb bind];
    [| split; [reflexivity|]; intros (_ & _ & H & _); apply Hq in H; discriminate].
  destruct (contains_str data_type data_types); cbn [negb];
    [| split; [reflexivity|]; intros (_ & _ & _ & H); apply Ht in H; discriminate].
  assert (Hvalid : valid).
  { split; [discriminate|]. split; [now apply Hy|]. split; [now apply Hq | now apply Ht]. }
  destruct (fetch info year quarter data_type) as [e|r] eqn:Hf;
    (split; [exact Hvalid|]); exists info; rewrite Hf; split; reflexivity.
Qed.

End DownloadFacts.

Section RegionFacts.
Import Config Download.

(** X19.  The region [set_region] assigns always has a country with a
    name that is not empty and at least one province, whether it is a
    preset or a custom region.  A key that is not empty decides alone: the
    country and the provinces given with it are not read, and a key that is
    no preset raises [ValueError] even when they are given. *)
Theorem set_region_outcome (region_key country_arg : option string)
    (provinces_arg : option (list string)) :
  (forall info,
     set_region region_key country_arg provinces_arg = Ok info ->
     country info <> EmptyString /\ provinces info <> [])
  /\ (truthy_str region_key = true ->
      set_region region_key country_arg provinces_arg
      = set_region region_key None None)
  /\ (truthy_str region_key = true ->
      (forall preset, In preset REGION_PRESETS -> Some (fst preset) <> region_key) ->
      set_region region_key country_arg provinces_arg = Raise ValueError).
Proof.
  split; [| split].
  - intros info. unfold set_region.
    destruct (truthy_str region_key).
    + intros H. apply get_region_info_In in H.
      pose proof presets_checked as Hall. rewrite forallb_forall in Hall.
      specialize (Hall _ H). cbn [fst snd] in Hall.
      rewrite !andb_true_iff in Hall. destruct Hall as [[Hc Hn] _].
      apply String.eqb_eq in Hc. split.
      * rewrite Hc. discriminate.
      * intros Hnil. rewrite Hnil in Hn. discriminate.
    + destruct country_arg as [c|]; cbn [truthy_str andb]; [| discriminate].
      destruct (String.eqb_spec c EmptyString) as [-> | Hc]; cbn [negb andb]; [discriminate|].
      destruct provinces_arg as [[|p l]|]; cbn [truthy_list]; try discriminate.
      intros H. inversion H. cbn. split; [assumption | discriminate].
  - intros Hkey. unfold set_region. now rewrite Hkey.
  - intros Hkey Hunknown. unfold set_region. rewrite Hkey.
    destruct region_key as [k|]; [| discriminate]. cbn [value].
    unfold get_region_info.
    destruct (find _ REGION_PRESETS) as [preset|] eqn:Hf; [| reflexivity].
    apply find_some in Hf. destruct Hf as [Hin Hk]. apply String.eqb_eq in Hk.
    exfalso. apply (Hunknown preset Hin). now rewrite Hk.
Qed.

Lemma set_region_outcome_witness :
  set_region (Some "atlantis"%string) (Some "Indonesia"%string) (Some ["Bali"%string])
  = Raise ValueError.
Proof.
  apply (proj2 (proj2 (set_region_outcome (Some "atlantis"%string)
                         (Some "Indonesia"%string) (Some ["Bali"%string])))).
  - reflexivity.
  - intros preset Hin.
    repeat (destruct Hin as [<- | Hin]; [discriminate|]). contradiction.
Defined.

End RegionFacts.
